(** * Blog backend: post, comment and profile handlers

    A shallow embedding of [controllers/postController.js],
    [controllers/commentController.js] and the Mongoose schemas of
    [models/Post.js] and [models/Comment.js].

    - The document store is a record of three collections, each a finite
      map from [_id] to document.
    - A handler is a function from the request and the store to a response
      and the store after the request.  The [try]/[catch] of every handler
      is an error monad; the [catch] turns the error into a response.
    - [Date.now()] and [new Date()] read a clock that the caller passes in.
    - A JavaScript number is an IEEE 754 binary64 number, a primitive
      [float]; what the proofs need of its arithmetic is derived from its
      specification in [SpecFloat].
    - A JavaScript string is its sequence of UTF-16 code units.
      [String.prototype.toLowerCase] follows the Unicode case mappings of
      the runtime; it is a parameter of the development ([Runtime]), of
      which only the behaviour on ASCII and white space is assumed. *)

From Stdlib Require Import ZArith QArith Qminmax List String Ascii.
From Stdlib Require Import PrimFloat Uint63 SpecFloat FloatOps FloatAxioms.
From Stdlib Require Import Sorting.Sorted Sorting.Permutation.
From stdpp Require Import gmap strings list.

Set Default Proof Using "Type".

(* ================================================================== *)
(** * JavaScript numbers *)
(* ================================================================== *)

(** The number that an integer converts to: the nearest binary64 number,
    ties to even.  Integers up to [2^53] in magnitude convert exactly. *)
Definition float_of_Z (z : Z) : float :=
  SF2Prim (binary_normalize prec emax z 0 false).

Definition float_of_nat (n : nat) : float := float_of_Z (Z.of_nat n).

(** [Math.round] on a binary64 value [m * 2^e]: a value with [e >= 0] is
    an integer already; otherwise the result is [floor (x + 1/2)],
    computed on the integers, and a negative argument that rounds to zero
    gives negative zero. *)
Definition Math_round (x : float) : float :=
  match Prim2SF x with
  | S754_finite s m e =>
      if (e <? 0)%Z then
        let k := (- e)%Z in
        let n := if s then Z.neg m else Z.pos m in
        let r := ((2 * n + 2 ^ k) / 2 ^ (k + 1))%Z in
        if s && (r =? 0)%Z then (- 0)%float else float_of_Z r
      else x
  | _ => x
  end.

(** [Math.max(a, b)]: [NaN] if either is, and [+0] is larger than [-0]. *)
Definition Math_max (a b : float) : float :=
  if is_nan a || is_nan b then nan
  else if (a <? b)%float then b
  else if (b <? a)%float then a
  else if get_sign a then b else a.

(* ================================================================== *)
(** * JavaScript strings *)
(* ================================================================== *)

(** A string is the sequence of its UTF-16 code units; [length],
    [substring] and [slice] count code units. *)
Abbreviation JsString := (list N) (only parsing).

(** The string of a literal of this file (ASCII). *)
Fixpoint str (s : string) : JsString :=
  match s with
  | EmptyString => []
  | String c s' => N_of_ascii c :: str s'
  end.

Definition in_range (lo hi c : N) : bool := ((lo <=? c) && (c <=? hi))%N.

(** The character class [[a-z0-9]]. *)
Definition is_alnum (c : N) : bool := in_range 97 122 c || in_range 48 57 c.

Definition is_hyphen (c : N) : bool := (c =? 45)%N.

(** White space as [String.prototype.trim] and [parseInt] see it: the
    WhiteSpace and LineTerminator code points of ECMAScript (tab, line
    feed, vertical tab, form feed, carriage return, space, no-break
    space, U+1680, U+2000 to U+200A, U+2028, U+2029, U+202F, U+205F,
    U+3000 and U+FEFF). *)
Definition is_space (c : N) : bool :=
  (in_range 9 13 c || (c =? 32) || (c =? 160) || (c =? 5760)
   || in_range 8192 8202 c || (c =? 8232) || (c =? 8233) || (c =? 8239)
   || (c =? 8287) || (c =? 12288) || (c =? 65279))%N.

(** Lower-casing within ASCII: [A-Z] moves to [a-z]. *)
Definition lower_ascii (c : N) : N :=
  if in_range 65 90 c then (c + 32)%N else c.

(** What the development takes from the JavaScript runtime:
    [String.prototype.toLowerCase].  It applies the Unicode lower-case
    mappings, which may change the length of a string (U+0130 becomes two
    code units) and depend on the context (the final sigma).  On a string
    of ASCII and white-space code units it lower-cases [A-Z] and leaves
    every other code unit as it is; nothing else is assumed of it. *)
Class Runtime := {
  toLowerCase : JsString -> JsString;
  toLowerCase_ascii : forall s,
    Forall (fun c => (c < 128)%N \/ is_space c = true) s ->
    toLowerCase s = List.map lower_ascii s
}.

(** A runtime to evaluate examples with: it changes [A-Z] only. *)
#[export] Instance ascii_runtime : Runtime := {|
  toLowerCase := List.map lower_ascii;
  toLowerCase_ascii := fun _ _ => eq_refl
|}.

(** A runtime that also has the two mappings from outside ASCII into
    [a-z]: the Kelvin sign U+212A becomes k, and U+0130 becomes i
    followed by U+0307. *)
Definition lower_unit (c : N) : JsString :=
  if (c =? 8490)%N then [107%N]
  else if (c =? 304)%N then [105; 775]%N
  else [lower_ascii c].

Definition unicode_runtime : Runtime.
Proof.
  refine {| toLowerCase := flat_map lower_unit |}.
  intros s Hs. induction Hs as [|c s Hc _ IH]; [reflexivity|].
  cbn [flat_map List.map]. rewrite IH. unfold lower_unit.
  destruct (N.eqb_spec c 8490) as [->|_];
    [exfalso; destruct Hc as [Hc|Hc]; [lia | discriminate]|].
  destruct (N.eqb_spec c 304) as [->|_];
    [exfalso; destruct Hc as [Hc|Hc]; [lia | discriminate]|].
  reflexivity.
Defined.

(** "300K Istanbul", written with the Kelvin sign and with U+0130. *)
Definition kelvin_title : JsString :=
  str "300" ++ [8490%N] ++ str " " ++ [304%N] ++ str "stanbul".

(** [s.replace(/[^a-z0-9]+/g, '-')].  The scan goes left to right; where
    a code unit outside the class is met the greedy [+] takes every such
    code unit that follows, and the whole match is replaced by one
    hyphen.  [inRun] says that the scan is inside such a match. *)
Fixpoint replaceNonAlnum (inRun : bool) (s : JsString) : JsString :=
  match s with
  | [] => []
  | c :: s' =>
      if is_alnum c then c :: replaceNonAlnum false s'
      else if inRun then replaceNonAlnum true s'
      else 45%N :: replaceNonAlnum true s'
  end.

(** [s.replace(/(^-|-$)/g, '')]: the first alternative matches a hyphen
    at index 0 only, the second a hyphen at the last index only. *)
Definition dropLeadingHyphen (s : JsString) : JsString :=
  match s with
  | c :: s' => if is_hyphen c then s' else s
  | [] => []
  end.

Fixpoint dropTrailingHyphen (s : JsString) : JsString :=
  match s with
  | [] => []
  | [c] => if is_hyphen c then [] else s
  | c :: s' => c :: dropTrailingHyphen s'
  end.

Definition stripEdgeHyphens (s : JsString) : JsString :=
  dropTrailingHyphen (dropLeadingHyphen s).

(** The slug that [createPost] derives from the title (lines 86-89). *)
Definition slugify `{Runtime} (title : JsString) : JsString :=
  stripEdgeHyphens (replaceNonAlnum false (toLowerCase title)).

(** [String.prototype.trim]. *)
Fixpoint trimStart (s : JsString) : JsString :=
  match s with
  | c :: s' => if is_space c then trimStart s' else s
  | [] => []
  end.

Fixpoint trimEnd (s : JsString) : JsString :=
  match s with
  | [] => []
  | c :: s' =>
      match trimEnd s' with
      | [] => if is_space c then [] else [c]
      | r => c :: r
      end
  end.

Definition trim (s : JsString) : JsString := trimEnd (trimStart s).

(** [s.length === 0], and what makes a string falsy. *)
Definition is_empty (s : JsString) : bool :=
  match s with [] => true | _ => false end.

(** [s.substring(start, finish)]; the two are swapped when they come in
    the wrong order. *)
Definition substring (start finish : nat) (s : JsString) : JsString :=
  take (Nat.max start finish - Nat.min start finish)
       (drop (Nat.min start finish) s).

(** [s.slice(-n)]. *)
Definition slice_last (n : nat) (s : JsString) : JsString :=
  drop (length s - n) s.

(** ** The slug as the specification words it *)

(** The maximal runs of a string: consecutive code units that agree on
    membership in [[a-z0-9]], each run tagged with that membership. *)
Fixpoint runs (s : JsString) : list (bool * JsString) :=
  match s with
  | [] => []
  | c :: s' =>
      let k := is_alnum c in
      match runs s' with
      | (k', r) :: rest =>
          if Bool.eqb k k' then (k, c :: r) :: rest
          else (k, [c]) :: (k', r) :: rest
      | [] => [(k, [c])]
      end
  end.

(** What makes the runs maximal: neighbouring runs differ in their tag,
    no run is empty, and the code units of a run all have its tag. *)
Fixpoint alternating (rs : list (bool * JsString)) : Prop :=
  match rs with
  | (k1, _) :: (((k2, _) :: _) as t) => k1 <> k2 /\ alternating t
  | _ => True
  end.

Fixpoint all_chars (p : N -> bool) (s : JsString) : bool :=
  match s with
  | [] => true
  | c :: s' => p c && all_chars p s'
  end.

Definition uniform_run (kr : bool * JsString) : Prop :=
  snd kr <> []
  /\ all_chars (fun c => Bool.eqb (is_alnum c) (fst kr)) (snd kr) = true.

Definition join_runs (rs : list (bool * JsString)) : JsString :=
  fold_right (fun kr acc => snd kr ++ acc) [] rs.

(** A run of alphanumeric code units stays; any other run becomes one
    hyphen. *)
Definition render_run (kr : bool * JsString) : JsString :=
  if fst kr then snd kr else [45%N].

Definition render (rs : list (bool * JsString)) : JsString :=
  fold_right (fun kr acc => render_run kr ++ acc) [] rs.

Definition spec_collapse (s : JsString) : JsString := render (runs s).

(** Trimming removes every leading and every trailing hyphen. *)
Fixpoint spec_trimLeading (s : JsString) : JsString :=
  match s with
  | c :: s' => if is_hyphen c then spec_trimLeading s' else s
  | [] => []
  end.

Fixpoint spec_trimTrailing (s : JsString) : JsString :=
  match s with
  | [] => []
  | c :: s' =>
      match spec_trimTrailing s' with
      | [] => if is_hyphen c then [] else [c]
      | r => c :: r
      end
  end.

Definition spec_slug `{Runtime} (title : JsString) : JsString :=
  spec_trimTrailing (spec_trimLeading (spec_collapse (toLowerCase title))).

(** [parseInt(s)] with no radix argument: leading white space, an
    optional sign, an optional [0x] prefix, then the longest prefix of
    digits.  [None] is [NaN]. *)
Definition digit_value (radix : Z) (c : N) : option Z :=
  let v :=
    if in_range 48 57 c then Some (Z.of_N c - 48)%Z
    else if in_range 97 122 c then Some (Z.of_N c - 87)%Z
    else if in_range 65 90 c then Some (Z.of_N c - 55)%Z
    else None in
  match v with
  | Some d => if (d <? radix)%Z then Some d else None
  | None => None
  end.

Fixpoint parse_digits (radix : Z) (s : JsString) (acc : option Z) : option Z :=
  match s with
  | c :: s' =>
      match digit_value radix c with
      | Some d => parse_digits radix s' (Some (radix * default 0%Z acc + d)%Z)
      | None => acc
      end
  | [] => acc
  end.

Definition parseInt (s : JsString) : option Z :=
  let s0 := trimStart s in
  let '(neg, s1) :=
    match s0 with
    | c :: s' =>
        if (c =? 45)%N then (true, s')
        else if (c =? 43)%N then (false, s') else (false, s0)
    | [] => (false, s0)
    end in
  let '(radix, s2) :=
    match s1 with
    | c :: x :: s' =>
        if (c =? 48)%N && ((x =? 120)%N || (x =? 88)%N)
        then (16%Z, s') else (10%Z, s1)
    | _ => (10%Z, s1)
    end in
  match parse_digits radix s2 None with
  | Some n => Some (if neg : bool then (- n)%Z else n)
  | None => None
  end.

(** [arr.slice(0, end)]: a negative [end] counts from the end of the
    array. *)
Definition slice0 {A} (finish : Z) (l : list A) : list A :=
  if (finish <? 0)%Z then take (Z.to_nat (Z.of_nat (length l) + finish)) l
  else take (Z.to_nat finish) l.

(** [Array.prototype.sort(cmp)]: a stable sort; [cmp a b > 0] puts [a]
    after [b].  Insertion from the right keeps elements that compare
    equal in their order of arrival. *)
Section Sort.
Context {A : Type}.
Variable cmp : A -> A -> float.

Fixpoint sort_insert (x : A) (l : list A) : list A :=
  match l with
  | [] => [x]
  | y :: l' =>
      if (0 <? cmp x y)%float then y :: sort_insert x l'
      else x :: y :: l'
  end.

Fixpoint js_sort (l : list A) : list A :=
  match l with
  | [] => []
  | x :: l' => sort_insert x (js_sort l')
  end.
End Sort.

(** [ObjectId.prototype.toString]: 24 lower-case hexadecimal digits. *)
Definition hex_digit (n : N) : N :=
  if (n <? 10)%N then (48 + n)%N else (87 + n)%N.

Fixpoint hex_of (digits : nat) (n : N) (acc : JsString) : JsString :=
  match digits with
  | O => acc
  | S d => hex_of d (n / 16)%N (hex_digit (n mod 16)%N :: acc)
  end.

(* ================================================================== *)
(** * Documents and the store *)
(* ================================================================== *)

Abbreviation ObjectId := positive (only parsing).

Definition oid_toString (id : ObjectId) : JsString := hex_of 24 (Npos id) [].

(** [models/Post.js].  The [_id] of a document is its key in the
    collection. *)
Module Post.
Inductive Status := draft | published.

Record t := {
  title : JsString;
  slug : JsString;
  content_html : JsString;
  excerpt : option JsString;
  cover_image : option JsString;
  author : ObjectId;
  tags : list JsString;
  category : option JsString;
  status : Status;
  views : float;                   (* [Number], default 0 *)
  likes : list ObjectId;
  created_at : Z;                  (* a [Date]: milliseconds since the epoch *)
  updated_at : Z
}.

Definition is_published (p : t) : bool :=
  match status p with published => true | draft => false end.

Definition with_views (v : float) (p : t) : t :=
  {| title := title p; slug := slug p; content_html := content_html p;
     excerpt := excerpt p; cover_image := cover_image p; author := author p;
     tags := tags p; category := category p; status := status p;
     views := v; likes := likes p;
     created_at := created_at p; updated_at := updated_at p |}.

Definition with_likes (l : list ObjectId) (p : t) : t :=
  {| title := title p; slug := slug p; content_html := content_html p;
     excerpt := excerpt p; cover_image := cover_image p; author := author p;
     tags := tags p; category := category p; status := status p;
     views := views p; likes := l;
     created_at := created_at p; updated_at := updated_at p |}.

Definition with_updated_at (u : Z) (p : t) : t :=
  {| title := title p; slug := slug p; content_html := content_html p;
     excerpt := excerpt p; cover_image := cover_image p; author := author p;
     tags := tags p; category := category p; status := status p;
     views := views p; likes := likes p;
     created_at := created_at p; updated_at := u |}.
End Post.

(** [models/Comment.js]. *)
Module Comment.
Record t := {
  post : ObjectId;
  user : ObjectId;
  content : JsString;
  parent : option ObjectId;      (* [None] is [null]: a top-level comment *)
  replies : list ObjectId;
  created_at : Z;
  updated_at : Z
}.
End Comment.

(** Modelled from the spec: the User document.  [models/User.js] is not
    among the sources; the specification lists name, email, bio, avatar
    and role, and [updateUserProfile] reads and writes exactly these.
    [None] is a field that is not set. *)
Module User.
Record t := {
  name : JsString;
  email : JsString;
  bio : option JsString;
  avatar_url : option JsString;
  role : JsString
}.
End User.

Record Db := {
  Posts : gmap positive Post.t;
  Comments : gmap positive Comment.t;
  Users : gmap positive User.t
}.

Definition with_Posts (ps : gmap positive Post.t) (db : Db) : Db :=
  {| Posts := ps; Comments := Comments db; Users := Users db |}.

Definition with_Comments (cs : gmap positive Comment.t) (db : Db) : Db :=
  {| Posts := Posts db; Comments := cs; Users := Users db |}.

Definition with_Users (us : gmap positive User.t) (db : Db) : Db :=
  {| Posts := Posts db; Comments := Comments db; Users := us |}.

(** The clock: [clock i] is what the [i]-th reading of the time during a
    request returns, in milliseconds since the epoch. *)
Definition Clock := nat -> Z.

(* ================================================================== *)
(** * Errors and responses *)
(* ================================================================== *)

(** What a handler body can throw. *)
Inductive Error :=
| ValidationError      (* Mongoose: a required path is missing or empty *)
| DuplicateKeyError    (* MongoDB E11000, [error.code === 11000] *)
| TypeError.           (* a property read on [undefined] or [null] *)

Definition Result (A : Type) : Type := Error + A.

Definition ret {A} (a : A) : Result A := inr a.
Definition throw {A} (e : Error) : Result A := inl e.
Definition bind {A B} (m : Result A) (k : A -> Result B) : Result B :=
  match m with inl e => inl e | inr a => k a end.

Notation "'let*' x ':=' m 'in' k" := (bind m (fun x => k))
  (at level 10, x name, m at level 100, k at level 200, only parsing).

Fixpoint mapM_index {A B} (f : nat -> A -> Result B) (i : nat) (l : list A)
  : Result (list B) :=
  match l with
  | [] => ret []
  | x :: l' =>
      let* y := f i x in
      let* ys := mapM_index f (S i) l' in
      ret (y :: ys)
  end.

(** The response of a handler. *)
Inductive Response (A : Type) :=
| Ok (code : nat) (payload : A)            (* [res.status(code).json(payload)] *)
| Fail (code : nat) (message : string)     (* [res.status(code).json({ message })] *)
| ServerError (e : Error).                 (* [res.status(500).json({ message: error.message })] *)
Arguments Ok {A} code payload.
Arguments Fail {A} code message.
Arguments ServerError {A} e.

(** A value of a JSON body field that is expected to hold a string. *)
Inductive JsVal :=
| JUndefined                 (* the field is absent *)
| JNull
| JStr (s : JsString).

Definition truthy (v : JsVal) : option JsString :=
  match v with
  | JStr s => if is_empty s then None else Some s
  | _ => None
  end.

(** [o || d] on an optional string. *)
Definition or_else (o : option JsString) (d : JsString) : JsString :=
  match o with
  | Some s => if is_empty s then d else s
  | None => d
  end.

(* ================================================================== *)
(** * Mongoose operations *)
(* ================================================================== *)

(** [Model.find(filter)]: the documents that pass the filter, each with
    its [_id], in the order in which the store yields them. *)
Definition find {D} (keep : D -> bool) (coll : gmap positive D)
  : list (positive * D) :=
  List.filter (fun kv => keep kv.2) (map_to_list coll).

(** [doc.save()] on a post that was read from the store.  The pre-save
    hook of [PostSchema] sets [updated_at]; the required paths of a stored
    document were validated when it was created and are not touched by
    the handlers, so validation passes. *)
Definition Post_save (now : Z) (id : ObjectId) (p : Post.t) (db : Db) : Db :=
  with_Posts (<[id := Post.with_updated_at now p]> (Posts db)) db.

(** The unique index on [slug]. *)
Definition slug_taken (s : JsString) (db : Db) : bool :=
  existsb (fun kv : positive * Post.t => bool_decide (Post.slug kv.2 = s))
          (map_to_list (Posts db)).

(** [Post.create(doc)].  Mongoose builds the document (the schema trims
    [title], and the defaults give [views], [likes], [created_at] and
    [updated_at]), validates the required paths [title], [slug] and
    [content_html] (a required string must be present and non-empty),
    runs the pre-save hook and inserts; the insert fails with E11000 when
    the slug is in the unique index already.  The store assigns an [_id]
    that no post has. *)
Definition Post_create (clock : Clock) (title slug : JsString)
    (content_html excerpt cover_image : option JsString)
    (author : ObjectId) (tags : list JsString) (db : Db)
  : Result (ObjectId * Post.t * Db) :=
  match content_html with
  | None => throw ValidationError
  | Some c =>
      if is_empty (trim title) || is_empty slug || is_empty c
      then throw ValidationError
      else if slug_taken slug db then throw DuplicateKeyError
      else
        let id := fresh (dom (Posts db)) in
        let doc := {| Post.title := trim title; Post.slug := slug;
                      Post.content_html := c; Post.excerpt := excerpt;
                      Post.cover_image := cover_image; Post.author := author;
                      Post.tags := tags; Post.category := None;
                      Post.status := Post.published;
                      Post.views := 0%float; Post.likes := [];
                      Post.created_at := clock 0%nat;
                      Post.updated_at := clock 2%nat |} in
        ret (id, doc, with_Posts (<[id := doc]> (Posts db)) db)
  end.

(** [Comment.deleteMany({ $or: [{ _id: id }, { parent: id }] })]. *)
Definition Comment_deleteMany_id_or_parent (id : ObjectId)
    (coll : gmap positive Comment.t) : gmap positive Comment.t :=
  filter (fun kv : positive * Comment.t =>
            ¬ (kv.1 = id ∨ Comment.parent kv.2 = Some id)) coll.

(* ================================================================== *)
(** * Post handlers ([controllers/postController.js]) *)
(* ================================================================== *)

(** [post.likes.includes(userId)] on a Mongoose array of ObjectIds:
    membership by value. *)
Definition includes (l : list ObjectId) (x : ObjectId) : bool :=
  existsb (Pos.eqb x) l.

Record AuthorView := {
  av_id : ObjectId; av_name : JsString;
  av_avatar_url : option JsString; av_bio : option JsString
}.

Record PostView := {
  pv_id : ObjectId; pv_title : JsString; pv_content : JsString;
  pv_excerpt : option JsString; pv_coverImage : option JsString;
  pv_author : option AuthorView; pv_tags : list JsString;
  pv_category : option JsString; pv_views : float; pv_likes : nat;
  pv_userHasLiked : bool; pv_createdAt : Z; pv_updatedAt : Z
}.

(** [.populate('author', 'name avatar_url bio')]: [None] when the
    referenced user does not exist. *)
Definition populate_author (db : Db) (p : Post.t) : option AuthorView :=
  match Users db !! Post.author p with
  | Some u => Some {| av_id := Post.author p; av_name := User.name u;
                      av_avatar_url := User.avatar_url u; av_bio := User.bio u |}
  | None => None
  end.

(** [getPostById] (lines 39-76); [user] is [req.user]. *)
Definition getPostById (clock : Clock) (id : ObjectId) (user : option ObjectId)
    (db : Db) : Response PostView * Db :=
  match Posts db !! id with
  | Some post =>
      let author := populate_author db post in
      let post := Post.with_views (Post.views post + 1)%float post in
      let now := clock 0%nat in
      let db' := Post_save now id post db in
      let userHasLiked :=
        match user with
        | Some u => includes (Post.likes post) u
        | None => false
        end in
      (Ok 200 {| pv_id := id; pv_title := Post.title post;
                 pv_content := Post.content_html post;
                 pv_excerpt := Post.excerpt post;
                 pv_coverImage := Post.cover_image post;
                 pv_author := author; pv_tags := Post.tags post;
                 pv_category := Post.category post;
                 pv_views := Post.views post;
                 pv_likes := length (Post.likes post);
                 pv_userHasLiked := userHasLiked;
                 pv_createdAt := Post.created_at post;
                 pv_updatedAt := now |}, db')
  | None => (Fail 404 "Post not found", db)
  end.

Record CreatePostBody := {
  body_title : option JsString;      (* [None]: absent or [null] *)
  body_content : option JsString;
  body_tags : option (list JsString);
  body_excerpt : option JsString;
  body_coverImage : option JsString
}.

Record Created := {
  created_id : ObjectId; created_title : JsString;
  created_slug : JsString; created_createdAt : Z
}.

(** [createPost] (lines 81-119); [user] is [req.user._id]. *)
Definition createPost `{Runtime} (clock : Clock) (user : ObjectId) (body : CreatePostBody)
    (db : Db) : Response Created * Db :=
  let attempt : Result (Created * Db) :=
    let* title :=
      match body_title body with
      | Some t => ret t
      | None => throw TypeError        (* [title.toLowerCase] on [undefined] *)
      end in
    let slug := slugify title in
    let* created :=
      Post_create clock title slug (body_content body) (body_excerpt body)
        (body_coverImage body) user (default [] (body_tags body)) db in
    let '(id, post, db') := created in
    ret ({| created_id := id; created_title := Post.title post;
            created_slug := Post.slug post;
            created_createdAt := Post.created_at post |}, db') in
  match attempt with
  | inr (c, db') => (Ok 201 c, db')
  | inl DuplicateKeyError =>
      (Fail 400 "A post with this title already exists", db)
  | inl e => (ServerError e, db)
  end.

Record ProfileBody := {
  body_name : JsVal; body_bio : JsVal; body_avatar : JsVal
}.

Record ProfileView := {
  prof_id : ObjectId; prof_name : JsString; prof_email : JsString;
  prof_bio : option JsString; prof_avatar_url : option JsString;
  prof_role : JsString
}.

(** [updateUserProfile] (lines 124-152); [uid] is [req.user._id]. *)
Definition updateUserProfile (uid : ObjectId) (body : ProfileBody) (db : Db)
  : Response ProfileView * Db :=
  match Users db !! uid with
  | Some user =>
      let name :=
        match truthy (body_name body) with
        | Some s => s
        | None => User.name user
        end in
      let bio :=
        match truthy (body_bio body) with
        | Some s => Some s
        | None => User.bio user
        end in
      let avatar_url :=
        match truthy (body_avatar body) with
        | Some s => Some s
        | None => User.avatar_url user
        end in
      let updatedUser :=
        {| User.name := name; User.email := User.email user;
           User.bio := bio; User.avatar_url := avatar_url;
           User.role := User.role user |} in
      (Ok 200 {| prof_id := uid; prof_name := User.name updatedUser;
                 prof_email := User.email updatedUser;
                 prof_bio := User.bio updatedUser;
                 prof_avatar_url := User.avatar_url updatedUser;
                 prof_role := User.role updatedUser |},
       with_Users (<[uid := updatedUser]> (Users db)) db)
  | None => (Fail 404 "User not found", db)
  end.

Record LikeResult := {
  liked : bool; likesCount : nat; like_message : string
}.

(** The likes array after the toggle of lines 262-270. *)
Definition toggle_like (userId : ObjectId) (likes : list ObjectId)
  : list ObjectId :=
  if includes likes userId
  then List.filter (fun id => negb (Pos.eqb id userId)) likes
  else likes ++ [userId].

(** [likePost] (lines 253-282); [userId] is [req.user._id]. *)
Definition likePost (clock : Clock) (id userId : ObjectId) (db : Db)
  : Response LikeResult * Db :=
  match Posts db !! id with
  | None => (Fail 404 "Post not found", db)
  | Some post =>
      let isLiked := includes (Post.likes post) userId in
      let post := Post.with_likes (toggle_like userId (Post.likes post)) post in
      let db' := Post_save (clock 0%nat) id post db in
      (Ok 200 {| liked := negb isLiked;
                 likesCount := length (Post.likes post);
                 like_message := if isLiked then "Post unliked" else "Post liked" |},
       db')
  end.

(** [deletePost] (lines 287-305). *)
Definition deletePost (id userId : ObjectId) (db : Db) : Response string * Db :=
  match Posts db !! id with
  | None => (Fail 404 "Post not found", db)
  | Some post =>
      if negb (Pos.eqb (Post.author post) userId)
      then (Fail 401 "Not authorized to delete this post", db)
      else (Ok 200 "Post removed"%string, with_Posts (delete id (Posts db)) db)
  end.

(** ** Trending posts *)

Fixpoint count_spaces (s : JsString) : nat :=
  match s with
  | [] => 0
  | c :: s' => (if (c =? 32)%N then 1 else 0) + count_spaces s'
  end.

(** [Math.ceil(content.split(' ').length / 200)]. *)
Definition readTime (content : JsString) : Z :=
  ((Z.of_nat (S (count_spaces content)) + 199) / 200)%Z.

(** [parseInt(req.query.limit) || 4]; [NaN] and [0] are falsy. *)
Definition trendingLimit (limit : option JsString) : Z :=
  match limit ≫= parseInt with
  | Some n => if (n =? 0)%Z then 4%Z else n
  | None => 4%Z
  end.

(** An element of [postsWithScores]: the populated post with the two
    added properties. *)
Record Scored := {
  sc_id : ObjectId;
  sc_post : Post.t;
  sc_author : option User.t;       (* the populated [author], or [null] *)
  trendingScore : float;
  hoursSincePosted : float
}.

(** The callback of lines 168-184; [now] is what [new Date()] returns.
    A date enters the arithmetic as its number of milliseconds. *)
Definition scorePost (now : Z) (doc : ObjectId * Post.t * option User.t)
  : Scored :=
  let '(id, post, author) := doc in
  let postDate := Post.created_at post in
  let hours :=
    ((float_of_Z now - float_of_Z postDate) / (1000 * 60 * 60))%float in
  let agePenalty :=
    if (24 <? hours)%float
    then ((hours - 24) * 0x1.999999999999ap-4)%float    (* the literal 0.1 *)
    else 0%float in
  let score :=
    ((Post.views post * 1) + (float_of_nat (length (Post.likes post)) * 3)
     - agePenalty)%float in
  {| sc_id := id; sc_post := post; sc_author := author;
     trendingScore := score; hoursSincePosted := hours |}.

(** The comparator of lines 188-193. *)
Definition compareTrending (a b : Scored) : float :=
  if negb (trendingScore b =? trendingScore a)%float
  then (trendingScore b - trendingScore a)%float
  else (float_of_Z (Post.created_at (sc_post b))
        - float_of_Z (Post.created_at (sc_post a)))%float.

Record TrendingItem := {
  ti_id : ObjectId; ti_rank : nat; ti_title : JsString; ti_excerpt : JsString;
  ti_coverImage : JsString; ti_author : JsString; ti_createdAt : Z;
  ti_readTime : Z; ti_likes : nat; ti_views : float; ti_trendingScore : float
}.

(** The callback of lines 196-210; reading [post.author.name] throws
    when the author was not found. *)
Definition trendingItem (index : nat) (sp : Scored) : Result TrendingItem :=
  let post := sc_post sp in
  let* author :=
    match sc_author sp with
    | Some u => ret (User.name u)
    | None => throw TypeError
    end in
  ret {| ti_id := sc_id sp;
         ti_rank := index + 1;
         ti_title := Post.title post;
         ti_excerpt :=
           or_else (Post.excerpt post)
             (substring 0 100 (Post.content_html post) ++ str "...");
         ti_coverImage :=
           or_else (Post.cover_image post)
             (str "https://picsum.photos/400/250?random="
              ++ slice_last 6 (oid_toString (sc_id sp)));
         ti_author := author;
         ti_createdAt := Post.created_at post;
         ti_readTime := readTime (Post.content_html post);
         ti_likes := length (Post.likes post);
         ti_views := Post.views post;
         ti_trendingScore :=
           (Math_round (trendingScore sp * 100) / 100)%float |}.

(** [Post.find({ status: 'published' }).populate('author', ...)]. *)
Definition allPosts (db : Db) : list (ObjectId * Post.t * option User.t) :=
  List.map (fun kv : positive * Post.t =>
              (kv.1, kv.2, Users db !! Post.author kv.2))
           (find Post.is_published (Posts db)).

(** Every call of the callback reads the clock once. *)
Definition postsWithScores (clock : Clock) (db : Db) : list Scored :=
  imap (fun i doc => scorePost (clock i) doc) (allPosts db).

Definition sortedPosts (clock : Clock) (limit : Z) (db : Db) : list Scored :=
  slice0 limit (js_sort compareTrending (postsWithScores clock db)).

(** [getTrendingPosts] (lines 157-216); [limit] is [req.query.limit]. *)
Definition getTrendingPosts (clock : Clock) (limit : option JsString) (db : Db)
  : Response (list TrendingItem) :=
  match mapM_index trendingItem 0 (sortedPosts clock (trendingLimit limit) db) with
  | inr trendingPosts => Ok 200 trendingPosts
  | inl e => ServerError e
  end.

(* ================================================================== *)
(** * Comment handlers ([controllers/commentController.js]) *)
(* ================================================================== *)

Record CommentBody := {
  body_comment : JsVal;                  (* [content] *)
  body_parentId : option ObjectId
}.

(** [createComment]; [user] is [req.user._id].  The response carries the
    new comment with its [user] populated. *)
Definition createComment (clock : Clock) (postId user : ObjectId)
    (body : CommentBody) (db : Db)
  : Response (ObjectId * Comment.t * option User.t) * Db :=
  match truthy (body_comment body) with
  | None => (Fail 400 "Comment content is required", db)
  | Some content =>
      if is_empty (trim content)
      then (Fail 400 "Comment content is required", db)
      else
        match Posts db !! postId with
        | None => (Fail 404 "Post not found", db)
        | Some _ =>
            let id := fresh (dom (Comments db)) in
            let comment :=
              {| Comment.post := postId; Comment.user := user;
                 Comment.content := trim content;
                 Comment.parent := body_parentId body;
                 Comment.replies := [];
                 Comment.created_at := clock 0%nat;
                 Comment.updated_at := clock 2%nat |} in
            (Ok 201 (id, comment, Users db !! user),
             with_Comments (<[id := comment]> (Comments db)) db)
        end
  end.

(** [deleteComment]; [userId] is [req.user._id]. *)
Definition deleteComment (id userId : ObjectId) (db : Db)
  : Response string * Db :=
  match Comments db !! id with
  | None => (Fail 404 "Comment not found", db)
  | Some comment =>
      if negb (Pos.eqb (Comment.user comment) userId)
      then (Fail 401 "Not authorized to delete this comment", db)
      else (Ok 200 "Comment removed"%string,
            with_Comments (Comment_deleteMany_id_or_parent id (Comments db)) db)
  end.

(* ================================================================== *)
(** * Handlers that only read *)
(* ================================================================== *)

(** [.sort({ created_at: -1 })] and [.sort({ created_at: 1 })] on the
    result of a query.  Documents with the same key stay in the order in
    which the store yields them (the store promises no order among them,
    and nothing below depends on it). *)
Section QuerySort.
Context {D : Type}.
Variable key : D -> Z.
Variable descending : bool.

(** [x] has to come after [y]. *)
Definition sorts_after (x y : positive * D) : bool :=
  if descending then (key x.2 <? key y.2)%Z else (key y.2 <? key x.2)%Z.

Fixpoint Query_insert (x : positive * D) (l : list (positive * D))
  : list (positive * D) :=
  match l with
  | [] => [x]
  | y :: l' => if sorts_after x y then y :: Query_insert x l' else x :: y :: l'
  end.

Fixpoint Query_sort (l : list (positive * D)) : list (positive * D) :=
  match l with
  | [] => []
  | x :: l' => Query_insert x (Query_sort l')
  end.
End QuerySort.

(** [.limit(n)]: the driver sends the absolute value of a negative limit,
    and 0 is no limit. *)
Definition Query_limit {A} (n : Z) (l : list A) : list A :=
  if (n =? 0)%Z then l else take (Z.to_nat (Z.abs n)) l.

Record UserPostItem := {
  up_id : ObjectId; up_title : JsString; up_content : JsString;
  up_createdAt : Z; up_tags : list JsString; up_author : JsString;
  up_authorId : ObjectId; up_readTime : Z; up_likes : nat;
  up_comments : nat; up_coverImage : JsString
}.

(** The callback of lines 16-28; reading [post.author.name] throws when
    the populated author is [null]. *)
Definition userPostItem (db : Db) (kv : positive * Post.t)
  : Result UserPostItem :=
  let post := kv.2 in
  let* author :=
    match Users db !! Post.author post with
    | Some u => ret u
    | None => throw TypeError
    end in
  ret {| up_id := kv.1;
         up_title := Post.title post;
         up_content :=
           or_else (Post.excerpt post)
             (substring 0 200 (Post.content_html post) ++ str "...");
         up_createdAt := Post.created_at post;
         up_tags := Post.tags post;
         up_author := User.name author;
         up_authorId := Post.author post;
         up_readTime := readTime (Post.content_html post);
         up_likes := length (Post.likes post);
         up_comments := 0;
         up_coverImage :=
           or_else (Post.cover_image post)
             (str "https://picsum.photos/400/250?random="
              ++ slice_last 6 (oid_toString kv.1)) |}.

(** The posts that [getUserPosts] reads (lines 9-14). *)
Definition userPosts (userId : ObjectId) (db : Db) : list (positive * Post.t) :=
  Query_sort Post.created_at true
    (find (fun p => Pos.eqb (Post.author p) userId && Post.is_published p)
          (Posts db)).

(** [getUserPosts] (lines 7-34); [userId] is [req.params.userId]. *)
Definition getUserPosts (userId : ObjectId) (db : Db)
  : Response (list UserPostItem) :=
  match mapM_index (fun _ => userPostItem db) 0 (userPosts userId db) with
  | inr postsWithStats => Ok 200 postsWithStats
  | inl e => ServerError e
  end.

(** [parseInt(req.query.limit) || 3]. *)
Definition featuredLimit (limit : option JsString) : Z :=
  match limit ≫= parseInt with
  | Some n => if (n =? 0)%Z then 3%Z else n
  | None => 3%Z
  end.

Record FeaturedItem := {
  fi_id : ObjectId; fi_title : JsString; fi_content : JsString;
  fi_coverImage : JsString; fi_author : JsString;
  fi_authorAvatar : option JsString; fi_createdAt : Z; fi_readTime : Z;
  fi_likes : nat; fi_views : float
}.

(** The callback of lines 231-242. *)
Definition featuredItem (db : Db) (kv : positive * Post.t)
  : Result FeaturedItem :=
  let post := kv.2 in
  let* author :=
    match Users db !! Post.author post with
    | Some u => ret u
    | None => throw TypeError
    end in
  ret {| fi_id := kv.1;
         fi_title := Post.title post;
         fi_content :=
           or_else (Post.excerpt post)
             (substring 0 200 (Post.content_html post) ++ str "...");
         fi_coverImage :=
           or_else (Post.cover_image post)
             (str "https://picsum.photos/400/250?random="
              ++ slice_last 6 (oid_toString kv.1));
         fi_author := User.name author;
         fi_authorAvatar := User.avatar_url author;
         fi_createdAt := Post.created_at post;
         fi_readTime := readTime (Post.content_html post);
         fi_likes := length (Post.likes post);
         fi_views := Post.views post |}.

(** The posts that [getFeaturedPosts] reads (lines 226-229). *)
Definition featuredPosts (limit : Z) (db : Db) : list (positive * Post.t) :=
  Query_limit limit
    (Query_sort Post.created_at true (find Post.is_published (Posts db))).

(** [getFeaturedPosts] (lines 221-248); [limit] is [req.query.limit]. *)
Definition getFeaturedPosts (limit : option JsString) (db : Db)
  : Response (list FeaturedItem) :=
  match mapM_index (fun _ => featuredItem db) 0
          (featuredPosts (featuredLimit limit) db) with
  | inr items => Ok 200 items
  | inl e => ServerError e
  end.

(** A comment of the response of [getPostComments], with its [user]
    populated ([None]: the user was not found). *)
Record CommentView := {
  cv_id : ObjectId; cv_comment : Comment.t; cv_user : option User.t
}.

Record Thread := {
  th_comment : CommentView;
  th_replies : list CommentView
}.

Definition commentView (db : Db) (kv : positive * Comment.t) : CommentView :=
  {| cv_id := kv.1; cv_comment := kv.2;
     cv_user := Users db !! Comment.user kv.2 |}.

(** The two queries of [getPostComments]. *)
Definition topLevelComments (postId : ObjectId) (db : Db)
  : list (positive * Comment.t) :=
  Query_sort Comment.created_at false
    (find (fun c => Pos.eqb (Comment.post c) postId
                    && bool_decide (Comment.parent c = None))
          (Comments db)).

Definition repliesOf (id : ObjectId) (db : Db) : list (positive * Comment.t) :=
  Query_sort Comment.created_at false
    (find (fun c => bool_decide (Comment.parent c = Some id)) (Comments db)).

(** [getPostComments]; [postId] is [req.params.postId]. *)
Definition getPostComments (postId : ObjectId) (db : Db)
  : Response (list Thread) :=
  Ok 200
    (List.map (fun kv : positive * Comment.t =>
                 {| th_comment := commentView db kv;
                    th_replies := List.map (commentView db) (repliesOf kv.1 db) |})
              (topLevelComments postId db)).

(* ================================================================== *)
(** * The service as a transition system *)
(* ================================================================== *)

(** The requests that the routers dispatch to the handlers above.  The
    remaining routes ([getUserPosts], [getFeaturedPosts],
    [getPostComments]) only read, like [GetTrendingPosts]. *)
Inductive Request :=
| GetPostById (id : ObjectId) (user : option ObjectId)
| CreatePost (user : ObjectId) (body : CreatePostBody)
| UpdateUserProfile (user : ObjectId) (body : ProfileBody)
| GetTrendingPosts (limit : option JsString)
| LikePost (id user : ObjectId)
| DeletePost (id user : ObjectId)
| CreateComment (postId user : ObjectId) (body : CommentBody)
| DeleteComment (id user : ObjectId).

(** The store after a request. *)
Definition handle `{Runtime} (clock : Clock) (r : Request) (db : Db) : Db :=
  match r with
  | GetPostById id user => (getPostById clock id user db).2
  | CreatePost user body => (createPost clock user body db).2
  | UpdateUserProfile user body => (updateUserProfile user body db).2
  | GetTrendingPosts _ => db
  | LikePost id user => (likePost clock id user db).2
  | DeletePost id user => (deletePost id user db).2
  | CreateComment postId user body => (createComment clock postId user body db).2
  | DeleteComment id user => (deleteComment id user db).2
  end.

(** A run: requests served one after the other, each with its clock. *)
Fixpoint run `{Runtime} (rs : list (Clock * Request)) (db : Db) : Db :=
  match rs with
  | [] => db
  | (clock, r) :: rs' => run rs' (handle clock r db)
  end.

(* ================================================================== *)
(** * Properties: vocabulary *)
(* ================================================================== *)

(** ** The trending score as the specification words it *)

(** In binary64 arithmetic, each operation rounded to the nearest
    number. *)
Definition spec_agePenalty (hours : float) : float :=
  (Math_max 0 (hours - 24) * 0x1.999999999999ap-4)%float.

Definition spec_trendingScore (views : float) (likes : nat) (hours : float)
  : float :=
  (views + 3 * float_of_nat likes - spec_agePenalty hours)%float.

Definition spec_hoursSincePosted (now created : Z) : float :=
  (float_of_Z (now - created) / 3600000)%float.

(** The rational number that a finite binary64 number is. *)
Definition exact (x : float) : option Q :=
  match Prim2SF x with
  | S754_zero _ => Some 0%Q
  | S754_finite s m e =>
      let n := if s then Z.neg m else Z.pos m in
      Some (if (e <? 0)%Z then Qmake n (Z.to_pos (2 ^ (- e)))
            else inject_Z (n * 2 ^ e))
  | _ => None
  end.

(** A date that JavaScript can represent: at most 8.64e15 milliseconds
    from the epoch. *)
Definition time_value (t : Z) : Prop := (Z.abs t <= 8640000000000000)%Z.

(** [a] may stand before [b] in the ranking: a higher score, or the same
    score and a creation time that is not older. *)
Definition trending_before (a b : Scored) : Prop :=
  (trendingScore b <? trendingScore a)%float = true
  \/ ((trendingScore a =? trendingScore b)%float = true
      /\ (Post.created_at (sc_post b) <= Post.created_at (sc_post a))%Z).

(** A scored post that the comparator can rank: its score is a number
    and its creation time is a date. *)
Definition rankable (sp : Scored) : Prop :=
  is_nan (trendingScore sp) = false /\ time_value (Post.created_at (sc_post sp)).

(** Every score is a number, and every published post has a date. *)
Definition scores_are_numbers (scored : list Scored) : Prop :=
  Forall (fun sp => is_nan (trendingScore sp) = false) scored.

Definition dates_valid (db : Db) : Prop :=
  forall id p, Posts db !! id = Some p -> Post.is_published p = true ->
    time_value (Post.created_at p).

(** What an entry of the response shows of the scored post at its place. *)
Definition shows (sp : Scored) (it : TrendingItem) : Prop :=
  ti_id it = sc_id sp
  /\ ti_title it = Post.title (sc_post sp)
  /\ ti_createdAt it = Post.created_at (sc_post sp)
  /\ ti_views it = Post.views (sc_post sp)
  /\ ti_likes it = length (Post.likes (sc_post sp)).

(** The view counter did not go down from [v] to [v']. *)
Definition not_below (v v' : float) : Prop := (v' <? v)%float = false.

(** It did not go down, and is still a number if it was one. *)
Definition grown (v v' : float) : Prop :=
  not_below v v' /\ (is_nan v = false -> is_nan v' = false).

(** Every published post refers to an author that exists. *)
Definition authors_exist (db : Db) : Prop :=
  forall id p, Posts db !! id = Some p -> Post.is_published p = true ->
    is_Some (Users db !! Post.author p).

(** ** Invariants of the store *)

Definition likes_NoDup (db : Db) : Prop :=
  forall id p, Posts db !! id = Some p -> NoDup (Post.likes p).

(** No two neighbouring hyphens. *)
Fixpoint no_double_hyphen (s : JsString) : Prop :=
  match s with
  | a :: ((b :: _) as t) =>
      (is_hyphen a && is_hyphen b = false) /\ no_double_hyphen t
  | _ => True
  end.

Definition starts_with_hyphen (s : JsString) : bool :=
  match s with
  | c :: _ => is_hyphen c
  | [] => false
  end.

(** The same post but for [views], [likes] and [updated_at]. *)
Definition same_content (p q : Post.t) : Prop :=
  Post.title q = Post.title p /\ Post.slug q = Post.slug p
  /\ Post.content_html q = Post.content_html p
  /\ Post.excerpt q = Post.excerpt p
  /\ Post.cover_image q = Post.cover_image p
  /\ Post.author q = Post.author p /\ Post.tags q = Post.tags p
  /\ Post.category q = Post.category p /\ Post.status q = Post.status p
  /\ Post.created_at q = Post.created_at p.

(** The values that [||] and [if] treat like an absent field. *)
Definition falsy (v : JsVal) : Prop :=
  v = JUndefined \/ v = JNull \/ v = JStr [].

(** ** Sample data *)

Definition sample_user : User.t :=
  {| User.name := str "Ada"; User.email := str "ada@example.org";
     User.bio := Some (str "Writes."); User.avatar_url := None;
     User.role := str "user" |}.

(** A user whose name and bio are empty strings. *)
Definition blank_user : User.t :=
  {| User.name := []; User.email := str "blank@example.org";
     User.bio := Some []; User.avatar_url := None;
     User.role := str "user" |}.

Definition blank_db : Db :=
  {| Posts := ∅; Comments := ∅; Users := <[9%positive := blank_user]> ∅ |}.

Definition sample_post (title slug : string) (author : ObjectId)
    (views : float) (likes : list ObjectId) (created : Z) : Post.t :=
  {| Post.title := str title; Post.slug := str slug;
     Post.content_html := str "<p>Some words here</p>";
     Post.excerpt := None; Post.cover_image := None; Post.author := author;
     Post.tags := []; Post.category := None; Post.status := Post.published;
     Post.views := views; Post.likes := likes;
     Post.created_at := created; Post.updated_at := created |}.


Definition sample_comment (post user : ObjectId) (parent : option ObjectId)
  : Comment.t :=
  {| Comment.post := post; Comment.user := user; Comment.content := str "Nice";
     Comment.parent := parent; Comment.replies := [];
     Comment.created_at := 0; Comment.updated_at := 0 |}.

(** One user (7); three published posts; a comment (1) with two replies
    (2, 3), a reply to a reply (4) and an unrelated comment (5). *)
Definition sample_db : Db :=
  {| Posts :=
       <[1%positive := sample_post "Hello" "hello" 7 10 [8; 9]%positive 100]>
       (<[2%positive := sample_post "Second" "second" 7 16 [] 200]>
       (<[3%positive := sample_post "Third" "third" 7 16 [] 300]> ∅));
     Comments :=
       <[1%positive := sample_comment 1 7 None]>
       (<[2%positive := sample_comment 1 8 (Some 1%positive)]>
       (<[3%positive := sample_comment 1 9 (Some 1%positive)]>
       (<[4%positive := sample_comment 1 7 (Some 2%positive)]>
       (<[5%positive := sample_comment 1 7 None]> ∅))));
     Users := <[7%positive := sample_user]> ∅ |}.

Definition sample_clock : Clock := fun _ => 1000%Z.

(** Five published posts at the sample time: the third and the fifth
    score the same, the fifth being newer; the fourth is 100 hours old. *)
Definition trending_db : Db :=
  {| Posts :=
       <[1%positive := sample_post "First" "first" 7 5 [] 100]>
       (<[2%positive := sample_post "Second" "second" 7 40 [8]%positive 200]>
       (<[3%positive := sample_post "Third" "third" 7 12 [] 300]>
       (<[4%positive := sample_post "Old" "old" 7 13 [] (-359999000)]>
       (<[5%positive := sample_post "Fifth" "fifth" 7 9 [8]%positive 400]> ∅))));
     Comments := ∅;
     Users := <[7%positive := sample_user]> ∅ |}.

(** A post that has been read [2^53] times. *)
Definition worn_db : Db :=
  {| Posts :=
       <[1%positive := sample_post "Hello" "hello" 7 9007199254740992 [] 100]> ∅;
     Comments := ∅;
     Users := <[7%positive := sample_user]> ∅ |}.

(** A request body for a new post, and what [createPost] makes of it on
    the sample store. *)
Definition hello_body (title : string) (content : option string)
  : CreatePostBody :=
  {| body_title := Some (str title); body_content := str <$> content;
     body_tags := None; body_excerpt := None; body_coverImage := None |}.

(** A post titled with the Kelvin sign alone. *)
Definition kelvin_body : CreatePostBody :=
  {| body_title := Some [8490%N]; body_content := Some (str "text");
     body_tags := None; body_excerpt := None; body_coverImage := None |}.

Definition hello_created : Created :=
  {| created_id := 4%positive; created_title := str "Hello, World!";
     created_slug := str "hello-world"; created_createdAt := 1000 |}.

Definition hello_db : Db :=
  with_Posts
    (<[4%positive :=
         {| Post.title := str "Hello, World!"; Post.slug := str "hello-world";
            Post.content_html := str "text"; Post.excerpt := None;
            Post.cover_image := None; Post.author := 7%positive;
            Post.tags := []; Post.category := None;
            Post.status := Post.published; Post.views := 0%float;
            Post.likes := []; Post.created_at := 1000;
            Post.updated_at := 1000 |}]> (Posts sample_db))
    sample_db.


(* ================================================================== *)
(** * Further properties: vocabulary *)
(* ================================================================== *)

(** ** Shape of a slug *)

Definition is_slug_char (c : N) : bool := is_alnum c || is_hyphen c.

Fixpoint ends_with_hyphen (s : JsString) : bool :=
  match s with
  | [] => false
  | [c] => is_hyphen c
  | _ :: s' => ends_with_hyphen s'
  end.

(** Lower-case letters, digits and single hyphens between them. *)
Definition url_safe (s : JsString) : Prop :=
  all_chars is_slug_char s = true
  /\ no_double_hyphen s
  /\ starts_with_hyphen s = false
  /\ ends_with_hyphen s = false.

(** ** Invariants and frames *)


(** The request removes the post [id]. *)
Definition deletes (id : ObjectId) (r : Request) : Prop :=
  match r with
  | DeletePost i _ => i = id
  | _ => False
  end.

(** Nothing but the post [id] differs between the two stores. *)
Definition only_post_differs (id : ObjectId) (db db' : Db) : Prop :=
  Comments db' = Comments db /\ Users db' = Users db
  /\ forall k, k <> id -> Posts db' !! k = Posts db !! k.

(** Nothing but the comment [id] differs between the two stores. *)
Definition only_comment_differs (id : ObjectId) (db db' : Db) : Prop :=
  Posts db' = Posts db /\ Users db' = Users db
  /\ forall k, k <> id -> Comments db' !! k = Comments db !! k.

(** The direct replies to the comment [id], the comment itself apart. *)
Definition direct_replies (id : ObjectId) (coll : gmap positive Comment.t)
  : gmap positive Comment.t :=
  filter (fun kv : positive * Comment.t =>
            kv.1 <> id /\ Comment.parent kv.2 = Some id) coll.

(** The comment [id] is shown somewhere in the threads. *)
Definition listed (id : ObjectId) (threads : list Thread) : Prop :=
  exists t, In t threads
    /\ (cv_id (th_comment t) = id
        \/ exists v, In v (th_replies t) /\ cv_id v = id).

(** Orders of a sorted query result. *)
Definition newest_first {D} (key : D -> Z) (a b : positive * D) : Prop :=
  (key b.2 <= key a.2)%Z.

Definition oldest_first {D} (key : D -> Z) (a b : positive * D) : Prop :=
  (key a.2 <= key b.2)%Z.

(** The entry for a post whose author is [u]. *)
Definition userPostView (u : User.t) (kv : positive * Post.t) : UserPostItem :=
  {| up_id := kv.1;
     up_title := Post.title kv.2;
     up_content :=
       or_else (Post.excerpt kv.2)
         (substring 0 200 (Post.content_html kv.2) ++ str "...");
     up_createdAt := Post.created_at kv.2;
     up_tags := Post.tags kv.2;
     up_author := User.name u;
     up_authorId := Post.author kv.2;
     up_readTime := readTime (Post.content_html kv.2);
     up_likes := length (Post.likes kv.2);
     up_comments := 0;
     up_coverImage :=
       or_else (Post.cover_image kv.2)
         (str "https://picsum.photos/400/250?random="
          ++ slice_last 6 (oid_toString kv.1)) |}.

(** The entry for a featured post whose author is [u]. *)
Definition featuredView (u : User.t) (kv : positive * Post.t) : FeaturedItem :=
  {| fi_id := kv.1;
     fi_title := Post.title kv.2;
     fi_content :=
       or_else (Post.excerpt kv.2)
         (substring 0 200 (Post.content_html kv.2) ++ str "...");
     fi_coverImage :=
       or_else (Post.cover_image kv.2)
         (str "https://picsum.photos/400/250?random="
          ++ slice_last 6 (oid_toString kv.1));
     fi_author := User.name u;
     fi_authorAvatar := User.avatar_url u;
     fi_createdAt := Post.created_at kv.2;
     fi_readTime := readTime (Post.content_html kv.2);
     fi_likes := length (Post.likes kv.2);
     fi_views := Post.views kv.2 |}.

(** The published posts, newest first. *)
Definition recentPosts (db : Db) : list (positive * Post.t) :=
  Query_sort Post.created_at true (find Post.is_published (Posts db)).

(** What the schema asks of a stored post. *)
Definition valid_post (p : Post.t) : Prop :=
  url_safe (Post.slug p) /\ Post.slug p <> []
  /\ Post.content_html p <> []
  /\ Post.status p = Post.published.

Definition posts_valid (db : Db) : Prop :=
  forall id p, Posts db !! id = Some p -> valid_post p.

(** ** More sample data *)

(** A run of requests: a read, a like, a create and a delete. *)
Definition sample_reads : list (Clock * Request) :=
  [(sample_clock, GetPostById 1 None); (sample_clock, LikePost 1 7);
   (sample_clock, CreatePost 7 (hello_body "Hello, World!" (Some "text"%string)));
   (sample_clock, DeletePost 2 7)].

Definition reply_body (text : JsString) (parent : option ObjectId) : CommentBody :=
  {| body_comment := JStr text; body_parentId := parent |}.

(** The comment that [createComment] stores for "Hi" by the user 8 on the
    post 1 of the sample store, and the store with it. *)
Definition hi_comment : Comment.t :=
  {| Comment.post := 1; Comment.user := 8; Comment.content := str "Hi";
     Comment.parent := None; Comment.replies := [];
     Comment.created_at := 1000; Comment.updated_at := 1000 |}.

Definition hi_db : Db :=
  with_Comments (<[6%positive := hi_comment]> (Comments sample_db)) sample_db.

(* ================================================================== *)
(** * Binary64 arithmetic: vocabulary *)
(* ================================================================== *)

Section NumberVocabulary.
Local Open Scope Z_scope.

(** A number other than zero does not round to zero, and rounding keeps
    the sign. *)
Definition nonzero_of_sign (s : bool) (X : spec_float) : Prop :=
  (exists m e, X = S754_finite s m e) \/ X = S754_infinity s.

(** The integer that stands for a finite number once both operands of a
    sum or difference are aligned to the exponent [ez]. *)
Definition aligned (s : bool) (m : positive) (e ez : Z) : Z :=
  cond_Zopp s (Z.pos (shl_align m e ez).1).

(** A key that orders the numbers other than NaN: the class (negative
    infinity, negative, zero, positive, positive infinity), then the
    exponent, then the mantissa.  The two zeros have the same key. *)
Definition rank (X : spec_float) : Z * Z * Z :=
  match X with
  | S754_zero _ => (0, 0, 0)
  | S754_infinity s => (if s then -2 else 2, 0, 0)
  | S754_nan => (3, 0, 0)
  | S754_finite s m e => if s then (-1, - e, Z.neg m) else (1, e, Z.pos m)
  end.

Definition rank_lt (a b : Z * Z * Z) : Prop :=
  a.1.1 < b.1.1
  \/ (a.1.1 = b.1.1 /\ (a.1.2 < b.1.2 \/ (a.1.2 = b.1.2 /\ a.2 < b.2))).

(** [q * 2^t], with [q] and [t] as the format wants them, is the
    magnitude [n]. *)
Definition represents (q : positive) (t : Z) (n : Z) : Prop :=
  fexp prec emax (Z.pos (digits2_pos q) + t) = t
  /\ -52 <= t <= 1
  /\ (t <= 0 -> Z.pos q = n * 2 ^ (- t))
  /\ (0 <= t -> n = Z.pos q * 2 ^ t).

(** An integer that binary64 holds exactly, as do its neighbours. *)
Definition safe (n : Z) : Prop := Z.abs n < 2 ^ 53.

End NumberVocabulary.

(* ================================================================== *)
(** * Binary64 arithmetic *)
(* ================================================================== *)

(** What the proofs below need of the arithmetic of JavaScript numbers,
    derived from the specification of the primitive operations. *)

Section Binary64.
Local Open Scope Z_scope.

Lemma iter_pos_nat {A} (f : A -> A) p : forall x,
  SpecFloat.iter_pos f p x = Nat.iter (Pos.to_nat p) f x.
Proof.
  induction p as [p IH|p IH|]; intros x; cbn [SpecFloat.iter_pos].
  - rewrite !IH, Pos2Nat.inj_xI.
    replace (S (2 * Pos.to_nat p))%nat with (Pos.to_nat p + (Pos.to_nat p + 1))%nat by lia.
    rewrite !Nat.iter_add. reflexivity.
  - rewrite !IH, Pos2Nat.inj_xO.
    replace (2 * Pos.to_nat p)%nat with (Pos.to_nat p + Pos.to_nat p)%nat by lia.
    rewrite Nat.iter_add. reflexivity.
  - reflexivity.
Qed.

Lemma shr_1_spec m r s :
  0 <= m ->
  shr_1 (Build_shr_record m r s) = Build_shr_record (m / 2) (Z.odd m) (r || s).
Proof.
  intros Hm. rewrite <- Z.div2_div.
  destruct m as [|[p|p|]|]; try reflexivity. lia.
Qed.

Lemma shr_iter_m n rec :
  0 <= shr_m rec -> shr_m (Nat.iter n shr_1 rec) = shr_m rec / 2 ^ Z.of_nat n.
Proof.
  intros Hm. induction n as [|n IH].
  - cbn. by rewrite Z.div_1_r.
  - rewrite Nat.iter_succ. destruct (Nat.iter n shr_1 rec) as [m r s] eqn:E.
    cbn [shr_m] in IH. rewrite shr_1_spec.
    + cbn [shr_m]. rewrite IH, Z.div_div by lia.
      rewrite Nat2Z.inj_succ, Z.pow_succ_r by lia. f_equal. lia.
    + rewrite IH. apply Z.div_pos; lia.
Qed.

Lemma shr_iter_exact n m :
  0 <= m -> m mod 2 ^ Z.of_nat n = 0 ->
  Nat.iter n shr_1 (Build_shr_record m false false)
  = Build_shr_record (m / 2 ^ Z.of_nat n) false false.
Proof.
  intros Hm. induction n as [|n IH]; intros Hd.
  - cbn. by rewrite Z.div_1_r.
  - rewrite Nat2Z.inj_succ, Z.pow_succ_r in Hd |- * by lia.
    assert (0 < 2 ^ Z.of_nat n) as Hp by lia.
    apply Z.mod_divide in Hd; [|lia]. destruct Hd as [k Hk].
    rewrite Nat.iter_succ. rewrite IH.
    + rewrite shr_1_spec by (apply Z.div_pos; lia).
      rewrite Z.div_div by lia. f_equal; [f_equal; lia|].
      subst m. replace (k * (2 * 2 ^ Z.of_nat n)) with ((2 * k) * 2 ^ Z.of_nat n) by lia.
      rewrite Z.div_mul by lia. by rewrite Z.odd_mul.
    + subst m. replace (k * (2 * 2 ^ Z.of_nat n)) with ((2 * k) * 2 ^ Z.of_nat n) by lia.
      apply Z.mod_mul. lia.
Qed.

Lemma digits2_pos_size p : digits2_pos p = Pos.size p.
Proof. induction p; cbn; congruence. Qed.

Lemma digits_bounds p :
  2 ^ (Z.pos (digits2_pos p) - 1) <= Z.pos p < 2 ^ Z.pos (digits2_pos p).
Proof.
  rewrite digits2_pos_size. split.
  - pose proof (Pos.size_le p) as H.
    apply Pos2Z.pos_le_pos in H. rewrite Pos2Z.inj_pow in H.
    replace (Z.pos (Pos.size p)) with (Z.succ (Z.pos (Pos.size p) - 1)) in H by lia.
    rewrite Z.pow_succ_r in H by lia. lia.
  - pose proof (Pos.size_gt p) as H.
    apply Pos2Z.pos_lt_pos in H. by rewrite Pos2Z.inj_pow in H.
Qed.

Lemma digits_unique p k :
  2 ^ (k - 1) <= Z.pos p < 2 ^ k -> Z.pos (digits2_pos p) = k.
Proof.
  intros [Hl Hu]. pose proof (digits_bounds p) as [Hl' Hu'].
  assert (0 < k).
  { destruct (Z.lt_ge_cases 0 k) as [|Hk]; [done|].
    assert (2 ^ k <= 2 ^ 0) by (apply Z.pow_le_mono_r; lia). lia. }
  destruct (Z.lt_trichotomy (Z.pos (digits2_pos p)) k) as [Hlt|[|Hgt]]; [|done|].
  - assert (2 ^ Z.pos (digits2_pos p) <= 2 ^ (k - 1)) by (apply Z.pow_le_mono_r; lia). lia.
  - assert (2 ^ k <= 2 ^ (Z.pos (digits2_pos p) - 1)) by (apply Z.pow_le_mono_r; lia). lia.
Qed.

(** ** Rounding a value that is representable *)

Lemma fexp_eq e : fexp prec emax e = Z.max (e - 53) (-1074).
Proof. reflexivity. Qed.

Lemma shl_pos m d : Z.pos (Pos.iter xO m d) = Z.pos m * 2 ^ Z.pos d.
Proof.
  rewrite Pos2Nat.inj_iter, <- (positive_nat_Z d).
  induction (Pos.to_nat d) as [|n IH]; [cbn; lia|].
  cbn [nat_rect Nat.iter]. rewrite Pos2Z.inj_xO, IH, Nat2Z.inj_succ, Z.pow_succ_r by lia. lia.
Qed.

Lemma digits_shift m q k :
  0 <= k -> Z.pos m = Z.pos q * 2 ^ k ->
  Z.pos (digits2_pos m) = Z.pos (digits2_pos q) + k.
Proof.
  intros Hk Hm. apply digits_unique. rewrite Hm.
  pose proof (digits_bounds q) as [Hl Hu].
  replace (Z.pos (digits2_pos q) + k - 1) with ((Z.pos (digits2_pos q) - 1) + k) by lia.
  rewrite !Z.pow_add_r by lia.
  assert (0 < 2 ^ k) by lia. nia.
Qed.

Lemma shr_fexp_exact m q t k :
  0 <= k -> Z.pos m = Z.pos q * 2 ^ k ->
  fexp prec emax (Z.pos (digits2_pos q) + t) = t ->
  shr_fexp prec emax (Z.pos m) (t - k) loc_Exact
  = (Build_shr_record (Z.pos q) false false, t).
Proof.
  intros Hk Hm Hc. unfold shr_fexp. cbn [Zdigits2 shr_record_of_loc].
  rewrite (digits_shift m q k Hk Hm).
  replace (Z.pos (digits2_pos q) + k + (t - k)) with (Z.pos (digits2_pos q) + t) by lia.
  rewrite Hc. replace (t - (t - k)) with k by lia.
  destruct k as [|p|p]; [| |lia].
  - cbn [shr]. rewrite Z.pow_0_r in Hm. f_equal; [f_equal; lia|lia].
  - cbn [shr]. rewrite iter_pos_nat.
    rewrite shr_iter_exact; rewrite ?positive_nat_Z; try lia.
    + f_equal; [|lia]. f_equal. rewrite Hm. apply Z.div_mul. lia.
    + rewrite Hm. apply Z.mod_mul. lia.
Qed.

Lemma binary_round_aux_exact s m q t k :
  0 <= k -> Z.pos m = Z.pos q * 2 ^ k ->
  fexp prec emax (Z.pos (digits2_pos q) + t) = t ->
  binary_round_aux prec emax s (Z.pos m) (t - k) loc_Exact
  = if t <=? emax - prec then S754_finite s q t else S754_infinity s.
Proof.
  intros Hk Hm Hc. unfold binary_round_aux.
  rewrite (shr_fexp_exact m q t k Hk Hm Hc).
  cbn [shr_m loc_of_shr_record round_nearest_even].
  replace t with (t - 0) at 1 by lia.
  rewrite (shr_fexp_exact q q t 0); [done|lia|lia|done].
Qed.

Lemma binary_round_exact s m e q t :
  fexp prec emax (Z.pos (digits2_pos q) + t) = t ->
  (e <= t -> Z.pos m = Z.pos q * 2 ^ (t - e)) ->
  (t <= e -> Z.pos q = Z.pos m * 2 ^ (e - t)) ->
  binary_round prec emax s m e
  = if t <=? emax - prec then S754_finite s q t else S754_infinity s.
Proof.
  intros Hc Hle Hge. unfold binary_round.
  assert (Z.pos (digits2_pos m) + e = Z.pos (digits2_pos q) + t) as Hd.
  { destruct (Z.le_ge_cases e t) as [H|H].
    - pose proof (digits_shift m q (t - e) ltac:(lia) (Hle H)). lia.
    - pose proof (digits_shift q m (e - t) ltac:(lia) (Hge H)). lia. }
  rewrite Hd, Hc. unfold shl_align.
  destruct (t - e) as [|p|p] eqn:E.
  - replace e with (t - 0) by lia.
    apply (binary_round_aux_exact s m q t 0); [lia| |done].
    rewrite Hle by lia. apply f_equal, f_equal. lia.
  - replace e with (t - Z.pos p) by lia.
    apply (binary_round_aux_exact s m q t (Z.pos p)); [lia| |done].
    rewrite Hle by lia. apply f_equal, f_equal. lia.
  - replace t with (t - 0) at 1 by lia.
    apply (binary_round_aux_exact s _ q t 0); [lia| |done].
    rewrite shl_pos, Z.pow_0_r, Z.mul_1_r, Hge by lia. apply f_equal, f_equal. lia.
Qed.

(** ** Valid numbers *)

Lemma valid_finite s m e :
  valid_binary (S754_finite s m e) = true ->
  fexp prec emax (Z.pos (digits2_pos m) + e) = e /\ e <= 971.
Proof.
  cbn [SpecFloat.valid_binary]. unfold bounded, canonical_mantissa.
  intros [H1 H2]%andb_prop. apply Z.eqb_eq in H1. apply Z.leb_le in H2.
  split; [done|]. exact H2.
Qed.

Lemma Prim2SF_one : Prim2SF 1 = S754_finite false 4503599627370496 (-52).
Proof. reflexivity. Qed.

Lemma Prim2SF_zero : Prim2SF 0 = S754_zero false.
Proof. reflexivity. Qed.

(** [x * 1] is [x]. *)
Lemma SFmul_one X :
  valid_binary X = true ->
  SF64mul X (S754_finite false 4503599627370496 (-52)) = X.
Proof.
  intros Hv. destruct X as [[]|[]| |s m e]; try reflexivity.
  destruct (valid_finite s m e Hv) as [Hc Hb].
  unfold SF64mul, SFmul.
  replace (e + -52) with (e - 52) by lia.
  rewrite (binary_round_aux_exact _ _ m e 52); [|lia| |done].
  - replace (e <=? emax - prec) with true by (symmetry; apply Z.leb_le; exact Hb).
    by destruct s.
  - rewrite Pos2Z.inj_mul. reflexivity.
Qed.

Lemma float_mul_1 (x : float) : (x * 1)%float = x.
Proof.
  apply Prim2SF_inj. rewrite mul_spec, Prim2SF_one.
  apply SFmul_one, Prim2SF_valid.
Qed.

Lemma SFmul_comm X Y : SF64mul X Y = SF64mul Y X.
Proof.
  destruct X as [[]|[]| |s m e], Y as [[]|[]| |s' m' e']; try reflexivity;
    try (by destruct s); try (by destruct s').
  unfold SF64mul, SFmul.
  by rewrite xorb_comm, Pos.mul_comm, Z.add_comm.
Qed.

Lemma float_mul_comm (x y : float) : (x * y)%float = (y * x)%float.
Proof. apply Prim2SF_inj. rewrite !mul_spec. apply SFmul_comm. Qed.

(** ** The sign of a rounded value *)

(** Shifting to the exponent that [fexp] asks for keeps a positive
    mantissa positive when the exponent is not below [emin]. *)
Lemma shr_fexp_pos m e l :
  0 < m -> -1074 <= e ->
  0 < shr_m (shr_fexp prec emax m e l).1 /\ -1074 <= (shr_fexp prec emax m e l).2.
Proof.
  intros Hm He. unfold shr_fexp.
  destruct m as [|p|p]; try lia. cbn [Zdigits2].
  set (d := Z.pos (digits2_pos p)).
  assert (shr_m (shr_record_of_loc (Z.pos p) l) = Z.pos p) as Hrec
    by (by destruct l as [|[]]).
  rewrite fexp_eq.
  destruct (Z.max (d + e - 53) (-1074) - e) as [|n|n] eqn:En; cbn [shr fst snd].
  - rewrite Hrec. lia.
  - rewrite iter_pos_nat, shr_iter_m, Hrec, positive_nat_Z by (rewrite Hrec; lia).
    split; [|lia].
    assert (Z.pos n = d - 53) as Hn by lia.
    pose proof (digits_bounds p) as [Hl _]. fold d in Hl.
    replace (d - 1) with (52 + Z.pos n) in Hl by lia.
    rewrite Z.pow_add_r in Hl by lia.
    assert (2 ^ 52 <= Z.pos p / 2 ^ Z.pos n); [|lia].
    apply Z.div_le_lower_bound; lia.
  - rewrite Hrec. lia.
Qed.

Lemma round_nearest_even_pos m l : 0 < m -> 0 < round_nearest_even m l.
Proof. intros Hm. destruct l as [|[]]; cbn; [done|by destruct (Z.even m); lia|done|lia]. Qed.

Lemma binary_round_aux_pos s m e l :
  0 < m -> -1074 <= e -> nonzero_of_sign s (binary_round_aux prec emax s m e l).
Proof.
  intros Hm He. unfold binary_round_aux.
  destruct (shr_fexp_pos m e l Hm He) as [H1 H1'].
  destruct (shr_fexp prec emax m e l) as [mrs' e'].
  cbn [fst snd] in H1, H1'.
  pose proof (round_nearest_even_pos _ (loc_of_shr_record mrs') H1) as H2.
  destruct (shr_fexp_pos _ e' loc_Exact H2 H1') as [H3 _].
  destruct (shr_fexp prec emax _ e' loc_Exact) as [mrs'' e''].
  cbn [fst] in H3. destruct (shr_m mrs'') as [|q|q]; try lia.
  destruct (e'' <=? emax - prec); [left; eauto | by right].
Qed.

Lemma shl_align_value m e ez :
  ez <= e -> Z.pos (shl_align m e ez).1 = Z.pos m * 2 ^ (e - ez).
Proof.
  intros H. unfold shl_align. destruct (ez - e) as [|d|d] eqn:E; cbn [fst].
  - replace (e - ez) with 0 by lia. lia.
  - lia.
  - rewrite shl_pos. apply f_equal, f_equal. lia.
Qed.

Lemma shl_align_exponent m e ez :
  (shl_align m e ez).2 = Z.min e ez.
Proof. unfold shl_align. destruct (ez - e) as [|d|d] eqn:E; cbn [snd]; lia. Qed.

Lemma binary_round_pos s m e :
  -1074 <= e -> nonzero_of_sign s (binary_round prec emax s m e).
Proof.
  intros He. unfold binary_round.
  pose proof (shl_align_exponent m e (fexp prec emax (Z.pos (digits2_pos m) + e))) as Hz.
  destruct (shl_align m e _) as [mz ez]. cbn [snd] in Hz.
  apply binary_round_aux_pos; [lia|]. rewrite fexp_eq in Hz. lia.
Qed.

(** ** Comparison *)

Lemma aligned_value s m e ez :
  ez <= e -> aligned s m e ez = cond_Zopp s (Z.pos m * 2 ^ (e - ez)).
Proof. intros H. unfold aligned. by rewrite shl_align_value. Qed.

Lemma canonical_digits m e :
  fexp prec emax (Z.pos (digits2_pos m) + e) = e ->
  -1074 <= e /\ Z.pos m < 2 ^ 53 /\ (-1074 < e -> 2 ^ 52 <= Z.pos m).
Proof.
  rewrite fexp_eq. intros Hc. pose proof (digits_bounds m) as [Hl Hu].
  split; [lia|]. split.
  - assert (2 ^ Z.pos (digits2_pos m) <= 2 ^ 53) by (apply Z.pow_le_mono_r; lia). lia.
  - intros He. replace (Z.pos (digits2_pos m)) with 53 in Hl by lia. exact Hl.
Qed.

(** Two valid finite numbers compare like their aligned integers. *)
Lemma SFcompare_aligned s1 m1 e1 s2 m2 e2 :
  valid_binary (S754_finite s1 m1 e1) = true ->
  valid_binary (S754_finite s2 m2 e2) = true ->
  SFcompare (S754_finite s1 m1 e1) (S754_finite s2 m2 e2)
  = Some (aligned s1 m1 e1 (Z.min e1 e2) ?= aligned s2 m2 e2 (Z.min e1 e2)).
Proof.
  intros [Hc1 _]%valid_finite [Hc2 _]%valid_finite.
  apply canonical_digits in Hc1 as (Hm1 & Hu1 & Hl1).
  apply canonical_digits in Hc2 as (Hm2 & Hu2 & Hl2).
  rewrite !aligned_value by lia. cbn [SFcompare]. f_equal.
  assert (forall a b : positive, Pos.compare_cont Eq a b = (Z.pos a ?= Z.pos b)) as Hcmp
    by reflexivity.
  assert (forall k, 0 < k -> 2 ^ 1 <= 2 ^ k) as Hpow
    by (intros k Hk; apply Z.pow_le_mono_r; lia).
  destruct (Z.compare_spec e1 e2) as [He|He|He].
  - subst e2. rewrite Z.min_id, Z.sub_diag, Z.pow_0_r, !Z.mul_1_r, Hcmp.
    by destruct s1, s2.
  - rewrite Z.min_l, Z.sub_diag, Z.pow_0_r, Z.mul_1_r by lia.
    specialize (Hl2 ltac:(lia)). specialize (Hpow (e2 - e1) ltac:(lia)).
    destruct s1, s2; cbn [cond_Zopp]; symmetry;
      first [apply Z.compare_lt_iff | apply Z.compare_gt_iff]; nia.
  - rewrite Z.min_r, Z.sub_diag, Z.pow_0_r, Z.mul_1_r by lia.
    specialize (Hl1 ltac:(lia)). specialize (Hpow (e1 - e2) ltac:(lia)).
    destruct s1, s2; cbn [cond_Zopp]; symmetry;
      first [apply Z.compare_lt_iff | apply Z.compare_gt_iff]; nia.
Qed.

Lemma binary_normalize_sign z e :
  -1074 <= e ->
  SFltb (S754_zero false) (binary_normalize prec emax z e false) = (0 <? z).
Proof.
  intros He. destruct z as [|p|p]; cbn [binary_normalize]; [done| |].
  - by destruct (binary_round_pos false p e He) as [(m' & e' & ->)| ->].
  - by destruct (binary_round_pos true p e He) as [(m' & e' & ->)| ->].
Qed.

(** The sign of a difference tells which operand is the larger. *)
Lemma SFsub_sign X Y :
  valid_binary X = true -> valid_binary Y = true ->
  X <> S754_nan -> Y <> S754_nan ->
  SFltb (S754_zero false) (SF64sub Y X) = SFltb X Y.
Proof.
  intros HX HY HnX HnY.
  destruct X as [sx|sx| |sx mx ex], Y as [sy|sy| |sy my ey]; try done;
    try (by destruct sx, sy); try (by destruct sx); try (by destruct sy).
  unfold SF64sub, SFsub, SFltb. rewrite (SFcompare_aligned _ _ _ _ _ _ HX HY).
  fold (aligned sy my ey (Z.min ey ex)). fold (aligned sx mx ex (Z.min ey ex)).
  fold (SFltb (S754_zero false)
          (binary_normalize prec emax
             (aligned sy my ey (Z.min ey ex) - aligned sx mx ex (Z.min ey ex))
             (Z.min ey ex) false)).
  apply valid_finite in HX as [HX _]. apply valid_finite in HY as [HY _].
  rewrite fexp_eq in HX, HY.
  rewrite binary_normalize_sign by lia. rewrite (Z.min_comm ey ex).
  destruct (Z.compare_spec (aligned sx mx ex (Z.min ex ey))
              (aligned sy my ey (Z.min ex ey))) as [H|H|H];
    [apply Z.ltb_ge | apply Z.ltb_lt | apply Z.ltb_ge]; lia.
Qed.

Lemma not_nan (x : float) : is_nan x = false -> Prim2SF x <> S754_nan.
Proof.
  unfold is_nan. rewrite FloatAxioms.eqb_spec. intros H E. by rewrite E in H.
Qed.

Lemma float_sub_sign (a b : float) :
  is_nan a = false -> is_nan b = false ->
  (0 <? b - a)%float = (a <? b)%float.
Proof.
  intros Ha Hb. rewrite !FloatAxioms.ltb_spec, sub_spec, Prim2SF_zero.
  apply SFsub_sign; auto using Prim2SF_valid, not_nan.
Qed.

(** ** The order of the numbers *)

Lemma SFltb_rank X Y :
  SFltb X Y = true <-> X <> S754_nan /\ Y <> S754_nan /\ rank_lt (rank X) (rank Y).
Proof.
  unfold SFltb, rank_lt.
  destruct X as [sx|sx| |sx mx ex], Y as [sy|sy| |sy my ey];
    cbn [SFcompare rank fst snd];
    try (split; [done | by intros (? & ? & ?)]);
    try (destruct sx); try (destruct sy); cbn [fst snd];
    try (split; [intros _; repeat split; try done; lia
                | done]);
    try (split; [done | intros (_ & _ & ?); lia]).
  - destruct (Z.compare_spec ex ey) as [H|H|H].
    + subst. change (Pos.compare_cont Eq mx my) with (Z.pos mx ?= Z.pos my).
      destruct (Z.compare_spec (Z.pos mx) (Z.pos my)) as [H|H|H]; cbn [CompOpp];
        (split; [try done; intros _; repeat split; try done; lia
                | try done; intros (_ & _ & ?); lia]).
    + split; [done | intros (_ & _ & ?); lia].
    + split; [intros _; repeat split; try done; lia | done].
  - destruct (Z.compare_spec ex ey) as [H|H|H].
    + subst. change (Pos.compare_cont Eq mx my) with (Z.pos mx ?= Z.pos my).
      destruct (Z.compare_spec (Z.pos mx) (Z.pos my)) as [H|H|H];
        (split; [try done; intros _; repeat split; try done; lia
                | try done; intros (_ & _ & ?); lia]).
    + split; [intros _; repeat split; try done; lia | done].
    + split; [done | intros (_ & _ & ?); lia].
Qed.

Lemma SFeqb_rank X Y :
  SFeqb X Y = true <-> X <> S754_nan /\ Y <> S754_nan /\ rank X = rank Y.
Proof.
  unfold SFeqb.
  destruct X as [sx|sx| |sx mx ex], Y as [sy|sy| |sy my ey];
    cbn [SFcompare rank];
    try (split; [done | by intros (? & ? & ?)]);
    try (destruct sx); try (destruct sy);
    try (split; [by intros _ | done]);
    try (split; [done | by intros (_ & _ & ?)]).
  - destruct (Z.compare_spec ex ey) as [H|H|H].
    + subst. change (Pos.compare_cont Eq mx my) with (Z.pos mx ?= Z.pos my).
      destruct (Z.compare_spec (Z.pos mx) (Z.pos my)) as [H|H|H]; cbn [CompOpp];
        (split; [try done; intros _; repeat split; try done; congruence
                | try done; intros (_ & _ & [= ?]); lia]).
    + split; [done | intros (_ & _ & [= ? ?]); lia].
    + split; [done | intros (_ & _ & [= ? ?]); lia].
  - destruct (Z.compare_spec ex ey) as [H|H|H].
    + subst. change (Pos.compare_cont Eq mx my) with (Z.pos mx ?= Z.pos my).
      destruct (Z.compare_spec (Z.pos mx) (Z.pos my)) as [H|H|H];
        (split; [try done; intros _; repeat split; try done; congruence
                | try done; intros (_ & _ & [= ?]); lia]).
    + split; [done | intros (_ & _ & [= ? ?]); lia].
    + split; [done | intros (_ & _ & [= ? ?]); lia].
Qed.

Lemma rank_lt_trans a b c : rank_lt a b -> rank_lt b c -> rank_lt a c.
Proof. unfold rank_lt. lia. Qed.

Lemma rank_trichotomy a b : rank_lt a b \/ a = b \/ rank_lt b a.
Proof.
  destruct a as [[a1 a2] a3], b as [[b1 b2] b3]. unfold rank_lt. cbn [fst snd].
  destruct (Z.lt_trichotomy a1 b1) as [|[->|]]; [lia| |lia].
  destruct (Z.lt_trichotomy a2 b2) as [|[->|]]; [lia| |lia].
  destruct (Z.lt_trichotomy a3 b3) as [|[->|]]; [lia| |lia].
  right. by left.
Qed.

Lemma float_ltb_rank (a b : float) :
  (a <? b)%float = true
  <-> is_nan a = false /\ is_nan b = false
      /\ rank_lt (rank (Prim2SF a)) (rank (Prim2SF b)).
Proof.
  rewrite FloatAxioms.ltb_spec, SFltb_rank. unfold is_nan.
  rewrite !FloatAxioms.eqb_spec, !negb_false_iff, !SFeqb_rank. tauto.
Qed.

Lemma float_eqb_rank (a b : float) :
  (a =? b)%float = true
  <-> is_nan a = false /\ is_nan b = false
      /\ rank (Prim2SF a) = rank (Prim2SF b).
Proof.
  rewrite FloatAxioms.eqb_spec, SFeqb_rank. unfold is_nan.
  rewrite !FloatAxioms.eqb_spec, !negb_false_iff, !SFeqb_rank. tauto.
Qed.

Lemma float_ltb_trans (a b c : float) :
  (a <? b)%float = true -> (b <? c)%float = true -> (a <? c)%float = true.
Proof.
  rewrite !float_ltb_rank. intros (? & ? & ?) (? & ? & ?).
  eauto using rank_lt_trans.
Qed.

Lemma float_eqb_sym (a b : float) : (a =? b)%float = (b =? a)%float.
Proof.
  apply eq_true_iff_eq. rewrite !float_eqb_rank. intuition congruence.
Qed.

Lemma float_eqb_trans (a b c : float) :
  (a =? b)%float = true -> (b =? c)%float = true -> (a =? c)%float = true.
Proof. rewrite !float_eqb_rank. intuition congruence. Qed.

Lemma float_eqb_ltb (a b c : float) :
  (a =? b)%float = true -> (b <? c)%float = true -> (a <? c)%float = true.
Proof.
  rewrite float_eqb_rank, !float_ltb_rank. intros (? & ? & ->) (? & ? & ?). auto.
Qed.

Lemma float_ltb_eqb (a b c : float) :
  (a <? b)%float = true -> (b =? c)%float = true -> (a <? c)%float = true.
Proof.
  rewrite float_eqb_rank, !float_ltb_rank. intros (? & ? & ?) (? & ? & <-). auto.
Qed.

Lemma float_trichotomy (a b : float) :
  is_nan a = false -> is_nan b = false ->
  (a <? b)%float = false -> (a =? b)%float = false -> (b <? a)%float = true.
Proof.
  intros Ha Hb Hlt Heq.
  apply not_true_iff_false in Hlt, Heq.
  rewrite float_ltb_rank in Hlt |- *. rewrite float_eqb_rank in Heq.
  destruct (rank_trichotomy (rank (Prim2SF a)) (rank (Prim2SF b))) as [|[|]]; tauto.
Qed.

(** ** Integers *)

Lemma safe_integer_represented n :
  0 < n <= 2 ^ 53 -> exists q t, represents q t n.
Proof.
  intros Hn. destruct n as [|p|p]; try lia.
  pose proof (digits_bounds p) as [Hl Hu].
  set (d := Z.pos (digits2_pos p)) in *.
  assert (d <= 54).
  { destruct (Z.le_gt_cases d 54) as [|Hd]; [done|].
    assert (2 ^ 54 <= 2 ^ (d - 1)) by (apply Z.pow_le_mono_r; lia). lia. }
  assert (1 <= d) by lia.
  destruct (Z.eq_dec d 54) as [Hd|Hd].
  - exists 4503599627370496%positive, 1. rewrite Hd in Hl.
    repeat split; lia.
  - exists (Z.to_pos (Z.pos p * 2 ^ (53 - d))), (d - 53).
    assert (0 < 2 ^ (53 - d)) by (apply Z.pow_pos_nonneg; lia).
    assert (Z.pos (Z.to_pos (Z.pos p * 2 ^ (53 - d))) = Z.pos p * 2 ^ (53 - d)) as Hq
      by (rewrite Z2Pos.id; lia).
    split; [|split; [lia|split]].
    + rewrite (digits_shift _ p (53 - d)); [|lia|done].
      fold d. rewrite fexp_eq. lia.
    + intros _. rewrite Hq. apply f_equal, f_equal. lia.
    + intros Ht. assert (d = 53) as -> by lia.
      rewrite Hq. change (2 ^ (53 - 53)) with 1. change (2 ^ (53 - 53)) with 1. lia.
Qed.

Lemma represents_valid s q t n :
  represents q t n -> valid_binary (S754_finite s q t) = true.
Proof.
  intros (Hc & Ht & _). cbn. unfold bounded, canonical_mantissa.
  rewrite Hc, Z.eqb_refl. apply Z.leb_le. change (emax - prec) with 971. lia.
Qed.

(** A safe integer, scaled to any exponent that is not positive, rounds
    to itself. *)
Lemma binary_round_represented s m e q t n :
  represents q t n -> e <= 0 -> Z.pos m = n * 2 ^ (- e) ->
  binary_round prec emax s m e = S754_finite s q t.
Proof.
  intros (Hc & Ht & Hneg & Hpos) He Hm.
  rewrite (binary_round_exact s m e q t Hc).
  - replace (t <=? emax - prec) with true; [done|].
    symmetry. apply Z.leb_le. change (emax - prec) with 971. lia.
  - intros Het. rewrite Hm. destruct (Z.le_gt_cases t 0) as [Ht0|Ht0].
    + rewrite Hneg by done. rewrite <- Z.mul_assoc, <- Z.pow_add_r by lia.
      apply f_equal, f_equal. lia.
    + rewrite (Hpos ltac:(lia)) at 1. rewrite <- Z.mul_assoc, <- Z.pow_add_r by lia.
      apply f_equal, f_equal. lia.
  - intros Het. rewrite Hm, Hneg by lia.
    rewrite <- Z.mul_assoc, <- Z.pow_add_r by lia. apply f_equal, f_equal. lia.
Qed.

Lemma binary_normalize_scaled n k :
  0 <= k -> Z.abs n <= 2 ^ 53 ->
  binary_normalize prec emax (n * 2 ^ k) (- k) false
  = binary_normalize prec emax n 0 false.
Proof.
  intros Hk Hn. assert (0 < 2 ^ k) by (apply Z.pow_pos_nonneg; lia).
  destruct n as [|p|p].
  - reflexivity.
  - destruct (safe_integer_represented (Z.pos p)) as (q & t & Hr); [lia|].
    destruct (Z.pos p * 2 ^ k) as [|m|m] eqn:E; try lia.
    cbn [binary_normalize].
    rewrite (binary_round_represented false m (- k) q t (Z.pos p) Hr); [|lia|].
    + symmetry. apply (binary_round_represented false p 0 q t (Z.pos p) Hr); [lia|].
      cbn. lia.
    + rewrite Z.opp_involutive. lia.
  - destruct (safe_integer_represented (Z.pos p)) as (q & t & Hr); [lia|].
    destruct (Z.neg p * 2 ^ k) as [|m|m] eqn:E; try lia.
    cbn [binary_normalize].
    rewrite (binary_round_represented true m (- k) q t (Z.pos p) Hr); [|lia|].
    + symmetry. apply (binary_round_represented true p 0 q t (Z.pos p) Hr); [lia|].
      cbn. lia.
    + rewrite Z.opp_involutive. lia.
Qed.

(** The number that a safe integer converts to. *)
Lemma binary_normalize_safe n :
  Z.abs n <= 2 ^ 53 -> n <> 0 ->
  exists q t,
    represents q t (Z.abs n)
    /\ binary_normalize prec emax n 0 false = S754_finite (n <? 0) q t.
Proof.
  intros Hn H0. destruct (safe_integer_represented (Z.abs n)) as (q & t & Hr); [lia|].
  exists q, t. split; [done|].
  destruct n as [|p|p]; [done| |]; cbn [binary_normalize].
  - apply (binary_round_represented _ _ _ _ _ _ Hr); [lia|]. cbn. lia.
  - apply (binary_round_represented _ _ _ _ _ _ Hr); [lia|]. cbn. lia.
Qed.

Lemma Prim2SF_float_of_Z n :
  Z.abs n <= 2 ^ 53 ->
  Prim2SF (float_of_Z n) = binary_normalize prec emax n 0 false.
Proof.
  intros Hn. unfold float_of_Z. apply Prim2SF_SF2Prim.
  destruct (Z.eq_dec n 0) as [->|H0]; [done|].
  destruct (binary_normalize_safe n Hn H0) as (q & t & Hr & ->).
  eapply represents_valid, Hr.
Qed.

Lemma represents_exponent q t n : represents q t n -> n < 2 ^ 53 -> t <= 0.
Proof.
  intros (Hc & Ht & _ & Hpos) Hn.
  destruct (Z.le_gt_cases t 0) as [|Ht0]; [done|].
  assert (t = 1) as -> by lia.
  apply canonical_digits in Hc as (_ & _ & Hl).
  specialize (Hl ltac:(lia)). specialize (Hpos ltac:(lia)).
  change (2 ^ 1) with 2 in Hpos. lia.
Qed.

Lemma aligned_safe n q t ez :
  represents q t (Z.abs n) -> t <= 0 -> ez <= t ->
  aligned (n <? 0) q t ez = n * 2 ^ (- ez).
Proof.
  intros (_ & _ & Hneg & _) Ht Hz. rewrite aligned_value by done.
  rewrite (Hneg Ht), <- Z.mul_assoc, <- Z.pow_add_r by lia.
  replace (- t + (t - ez)) with (- ez) by lia.
  assert (0 < 2 ^ (- ez)) by (apply Z.pow_pos_nonneg; lia).
  destruct (Z.ltb_spec n 0); cbn [cond_Zopp]; nia.
Qed.

(** Sums and differences of safe integers are exact as long as the
    result is at most [2^53] in magnitude. *)
Lemma SFadd_safe a b :
  safe a -> safe b -> Z.abs (a + b) <= 2 ^ 53 ->
  SF64add (binary_normalize prec emax a 0 false)
          (binary_normalize prec emax b 0 false)
  = binary_normalize prec emax (a + b) 0 false.
Proof.
  unfold safe. intros Ha Hb Hab.
  destruct (Z.eq_dec a 0) as [->|Ha0].
  { destruct (Z.eq_dec b 0) as [->|Hb0]; [done|].
    destruct (binary_normalize_safe b ltac:(lia) Hb0) as (q & t & _ & E).
    cbn [Z.add]. by rewrite E. }
  destruct (Z.eq_dec b 0) as [->|Hb0].
  { destruct (binary_normalize_safe a ltac:(lia) Ha0) as (q & t & _ & E).
    rewrite Z.add_0_r. by rewrite E. }
  destruct (binary_normalize_safe a ltac:(lia) Ha0) as (qa & ta & Hra & ->).
  destruct (binary_normalize_safe b ltac:(lia) Hb0) as (qb & tb & Hrb & ->).
  pose proof (represents_exponent _ _ _ Hra Ha).
  pose proof (represents_exponent _ _ _ Hrb Hb).
  unfold SF64add, SFadd.
  fold (aligned (a <? 0) qa ta (Z.min ta tb)). fold (aligned (b <? 0) qb tb (Z.min ta tb)).
  rewrite !aligned_safe by (done || lia).
  rewrite <- Z.mul_add_distr_r.
  rewrite <- (Z.opp_involutive (Z.min ta tb)) at 2.
  apply binary_normalize_scaled; lia.
Qed.

Lemma binary_normalize_opp n e :
  n <> 0 ->
  binary_normalize prec emax (- n) e false
  = SFopp (binary_normalize prec emax n e false).
Proof.
  intros Hn. destruct n as [|p|p]; unfold Z.opp; cbn [binary_normalize]; [done| |];
    unfold binary_round, binary_round_aux;
    destruct (shl_align _ _ _) as [mz ez];
    destruct (shr_fexp _ _ _ _ _) as [mrs' e'];
    destruct (shr_fexp _ _ _ _ _) as [mrs'' e''];
    destruct (shr_m mrs'') as [|m|m]; try done;
    by destruct (e'' <=? emax - prec).
Qed.

Lemma SFsub_safe a b :
  safe a -> safe b -> Z.abs (a - b) <= 2 ^ 53 ->
  SF64sub (binary_normalize prec emax a 0 false)
          (binary_normalize prec emax b 0 false)
  = binary_normalize prec emax (a - b) 0 false.
Proof.
  unfold safe. intros Ha Hb Hab.
  destruct (Z.eq_dec b 0) as [->|Hb0].
  { destruct (Z.eq_dec a 0) as [->|Ha0]; [done|].
    destruct (binary_normalize_safe a ltac:(lia) Ha0) as (q & t & _ & E).
    rewrite Z.sub_0_r. by rewrite E. }
  destruct (binary_normalize_safe b ltac:(lia) Hb0) as (qb & tb & Hrb & Eb).
  destruct (Z.eq_dec a 0) as [->|Ha0].
  { rewrite Z.sub_0_l, binary_normalize_opp, Eb by done. reflexivity. }
  destruct (binary_normalize_safe a ltac:(lia) Ha0) as (qa & ta & Hra & ->).
  rewrite Eb.
  pose proof (represents_exponent _ _ _ Hra Ha).
  pose proof (represents_exponent _ _ _ Hrb Hb).
  unfold SF64sub, SFsub.
  fold (aligned (a <? 0) qa ta (Z.min ta tb)). fold (aligned (b <? 0) qb tb (Z.min ta tb)).
  rewrite !aligned_safe by (done || lia).
  rewrite <- Z.mul_sub_distr_r.
  rewrite <- (Z.opp_involutive (Z.min ta tb)) at 2.
  apply binary_normalize_scaled; lia.
Qed.

Lemma SFcompare_safe a b :
  safe a -> safe b ->
  SFcompare (binary_normalize prec emax a 0 false)
            (binary_normalize prec emax b 0 false)
  = Some (a ?= b).
Proof.
  unfold safe. intros Ha Hb.
  destruct (Z.eq_dec a 0) as [->|Ha0].
  { destruct (Z.eq_dec b 0) as [->|Hb0]; [done|].
    destruct (binary_normalize_safe b ltac:(lia) Hb0) as (q & t & _ & ->).
    cbn. by destruct b. }
  destruct (binary_normalize_safe a ltac:(lia) Ha0) as (qa & ta & Hra & ->).
  destruct (Z.eq_dec b 0) as [->|Hb0].
  { cbn. by destruct a. }
  destruct (binary_normalize_safe b ltac:(lia) Hb0) as (qb & tb & Hrb & ->).
  pose proof (represents_exponent _ _ _ Hra Ha).
  pose proof (represents_exponent _ _ _ Hrb Hb).
  rewrite SFcompare_aligned by eauto using represents_valid.
  rewrite !aligned_safe by (done || lia).
  f_equal. assert (0 < 2 ^ (- Z.min ta tb)) by (apply Z.pow_pos_nonneg; lia).
  destruct (Z.compare_spec a b) as [E|E|E];
    [apply Z.compare_eq_iff | apply Z.compare_lt_iff | apply Z.compare_gt_iff]; nia.
Qed.

Lemma float_of_Z_add a b :
  safe a -> safe b -> Z.abs (a + b) <= 2 ^ 53 ->
  (float_of_Z a + float_of_Z b)%float = float_of_Z (a + b).
Proof.
  intros Ha Hb Hab. apply Prim2SF_inj.
  rewrite add_spec, !Prim2SF_float_of_Z by (unfold safe in *; lia).
  by apply SFadd_safe.
Qed.

Lemma float_of_Z_sub a b :
  safe a -> safe b -> Z.abs (a - b) <= 2 ^ 53 ->
  (float_of_Z a - float_of_Z b)%float = float_of_Z (a - b).
Proof.
  intros Ha Hb Hab. apply Prim2SF_inj.
  rewrite sub_spec, !Prim2SF_float_of_Z by (unfold safe in *; lia).
  by apply SFsub_safe.
Qed.

Lemma float_of_Z_ltb a b :
  safe a -> safe b -> (float_of_Z a <? float_of_Z b)%float = (a <? b).
Proof.
  intros Ha Hb.
  rewrite FloatAxioms.ltb_spec, !Prim2SF_float_of_Z by (unfold safe in *; lia).
  unfold SFltb. rewrite SFcompare_safe by done. unfold Z.ltb.
  by destruct (a ?= b).
Qed.

Lemma float_of_Z_eqb a b :
  safe a -> safe b -> (float_of_Z a =? float_of_Z b)%float = (a =? b).
Proof.
  intros Ha Hb.
  rewrite FloatAxioms.eqb_spec, !Prim2SF_float_of_Z by (unfold safe in *; lia).
  unfold SFeqb. rewrite SFcompare_safe by done.
  destruct (Z.compare_spec a b) as [E|E|E]; symmetry;
    [apply Z.eqb_eq | apply Z.eqb_neq | apply Z.eqb_neq]; lia.
Qed.

Lemma float_of_Z_not_nan a : safe a -> is_nan (float_of_Z a) = false.
Proof.
  intros Ha. unfold is_nan. by rewrite float_of_Z_eqb, Z.eqb_refl.
Qed.

(** ** Rounding in general *)

Lemma Zdigits2_bounds M :
  0 < M -> 2 ^ (Zdigits2 M - 1) <= M < 2 ^ Zdigits2 M.
Proof. intros HM. destruct M as [|p|p]; try lia. apply digits_bounds. Qed.

Lemma Zdigits2_unique M k :
  0 < M -> 2 ^ (k - 1) <= M < 2 ^ k -> Zdigits2 M = k.
Proof. intros HM. destruct M as [|p|p]; try lia. apply digits_unique. Qed.

Lemma Zdigits2_mono M N : 0 < M <= N -> Zdigits2 M <= Zdigits2 N.
Proof.
  intros [HM HN].
  pose proof (Zdigits2_bounds M HM) as [Hl _].
  pose proof (Zdigits2_bounds N ltac:(lia)) as [_ Hu].
  destruct (Z.le_gt_cases (Zdigits2 M) (Zdigits2 N)) as [|H]; [done|].
  assert (2 ^ Zdigits2 N <= 2 ^ (Zdigits2 M - 1)); [|lia].
  apply Z.pow_le_mono_r; [lia|]. lia.
Qed.

Lemma shr_fexp_spec M E l :
  shr_fexp prec emax M E l
  = if 0 <? fexp prec emax (Zdigits2 M + E) - E
    then (Nat.iter (Z.to_nat (fexp prec emax (Zdigits2 M + E) - E)) shr_1
            (shr_record_of_loc M l),
          E + (fexp prec emax (Zdigits2 M + E) - E))
    else (shr_record_of_loc M l, E).
Proof.
  unfold shr_fexp, shr.
  destruct (fexp prec emax (Zdigits2 M + E) - E) as [|n|n]; [done| |done].
  by rewrite iter_pos_nat.
Qed.

Lemma round_nearest_even_bounds q l :
  q <= round_nearest_even q l <= q + 1.
Proof. destruct l as [|[]]; cbn; try destruct (Z.even q); lia. Qed.

(** What the first of the two shifts of [binary_round_aux] gives: the
    mantissa [M] cut to the exponent [t] that the format asks for, and
    rounded; an exact cut is not rounded. *)
Lemma first_shift M E :
  0 < M ->
  0 <= fexp prec emax (Zdigits2 M + E) - E ->
  let t := fexp prec emax (Zdigits2 M + E) in
  let q := M / 2 ^ (t - E) in
  exists mrs',
    shr_fexp prec emax M E loc_Exact = (mrs', t)
    /\ q <= round_nearest_even (shr_m mrs') (loc_of_shr_record mrs') <= q + 1
    /\ (M mod 2 ^ (t - E) = 0 ->
        round_nearest_even (shr_m mrs') (loc_of_shr_record mrs') = q).
Proof.
  intros HM Hn t q. rewrite shr_fexp_spec. fold t.
  destruct (Z.ltb_spec 0 (t - E)) as [Hlt|Hge].
  - eexists. split; [f_equal; lia|].
    assert (shr_m (Nat.iter (Z.to_nat (t - E)) shr_1 (shr_record_of_loc M loc_Exact)) = q) as Hq.
    { rewrite shr_iter_m by (cbn; lia). cbn [shr_m shr_record_of_loc].
      by rewrite Z2Nat.id by lia. }
    split.
    + rewrite Hq. apply round_nearest_even_bounds.
    + intros Hex. cbn [shr_record_of_loc].
      rewrite shr_iter_exact; rewrite ?Z2Nat.id; try lia. done.
  - assert (t - E = 0) as Ht by (subst t; lia).
    exists (shr_record_of_loc M loc_Exact). split; [f_equal; lia|].
    subst q. rewrite Ht, Z.pow_0_r, Z.div_1_r. cbn. split; [lia|done].
Qed.

(** What the second shift gives. *)
Lemma second_shift s q t :
  0 < q -> -1074 <= t ->
  let n := fexp prec emax (Zdigits2 q + t) - t in
  (let '(mrs'', e'') := shr_fexp prec emax q t loc_Exact in
   match shr_m mrs'' with
   | 0 => S754_zero s
   | Z.pos m => if e'' <=? emax - prec then S754_finite s m e'' else S754_infinity s
   | Z.neg _ => S754_nan
   end)
  = if 0 <? n
    then (if t + n <=? 971 then S754_finite s (Z.to_pos (q / 2 ^ n)) (t + n)
          else S754_infinity s)
    else (if t <=? 971 then S754_finite s (Z.to_pos q) t else S754_infinity s).
Proof.
  intros Hq Ht n.
  pose proof (shr_fexp_pos q t loc_Exact Hq Ht) as [Hpos _].
  rewrite shr_fexp_spec in Hpos |- *. fold n in Hpos |- *.
  destruct (Z.ltb_spec 0 n) as [Hn|Hn]; cbn [fst] in Hpos.
  - rewrite shr_iter_m in Hpos |- * by (cbn; lia).
    cbn [shr_m shr_record_of_loc] in *. rewrite Z2Nat.id in * by lia.
    destruct (q / 2 ^ n) as [|m|m]; try lia. done.
  - cbn [shr_m shr_record_of_loc] in *. destruct q as [|m|m]; try lia. done.
Qed.

Lemma binary_round_aux_spec s M E :
  0 < M -> -1074 <= E ->
  0 <= fexp prec emax (Zdigits2 M + E) - E ->
  let t := fexp prec emax (Zdigits2 M + E) in
  let q := M / 2 ^ (t - E) in
  exists q',
    0 < q' /\ q <= q' <= q + 1
    /\ (M mod 2 ^ (t - E) = 0 -> q' = q)
    /\ binary_round_aux prec emax s M E loc_Exact
       = if 0 <? fexp prec emax (Zdigits2 q' + t) - t
         then (if t + (fexp prec emax (Zdigits2 q' + t) - t) <=? 971
               then S754_finite s
                      (Z.to_pos (q' / 2 ^ (fexp prec emax (Zdigits2 q' + t) - t)))
                      (t + (fexp prec emax (Zdigits2 q' + t) - t))
               else S754_infinity s)
         else (if t <=? 971 then S754_finite s (Z.to_pos q') t
               else S754_infinity s).
Proof.
  intros HM HE Hn t q.
  destruct (first_shift M E HM Hn) as (mrs' & Hshr & Hb & Hex).
  fold t in Hshr, Hb, Hex. fold q in Hb, Hex.
  pose proof (shr_fexp_pos M E loc_Exact HM HE) as [Hpos Ht].
  rewrite Hshr in Hpos, Ht. cbn [fst snd] in Hpos, Ht.
  pose proof (round_nearest_even_pos _ (loc_of_shr_record mrs') Hpos) as Hq'.
  exists (round_nearest_even (shr_m mrs') (loc_of_shr_record mrs')).
  split; [done|]. split; [done|]. split; [done|].
  unfold binary_round_aux. rewrite Hshr.
  apply (second_shift s _ t Hq' Ht).
Qed.

Lemma shl_align_spec m e tgt :
  Z.pos (shl_align m e tgt).1 = Z.pos m * 2 ^ (e - Z.min e tgt)
  /\ (shl_align m e tgt).2 = Z.min e tgt.
Proof.
  unfold shl_align. destruct (tgt - e) as [|d|d] eqn:E; cbn [fst snd].
  - replace (Z.min e tgt) with e by lia. rewrite Z.sub_diag. lia.
  - replace (Z.min e tgt) with e by lia. rewrite Z.sub_diag. lia.
  - replace (Z.min e tgt) with tgt by lia. split; [|done].
    rewrite shl_pos. apply f_equal, f_equal. lia.
Qed.

Lemma binary_round_spec s p ez :
  -1074 <= ez ->
  let t := fexp prec emax (Z.pos (digits2_pos p) + ez) in
  let M := Z.pos p * 2 ^ (ez - Z.min ez t) in
  let q := M / 2 ^ (t - Z.min ez t) in
  exists q',
    0 < q' /\ q <= q' <= q + 1
    /\ (M mod 2 ^ (t - Z.min ez t) = 0 -> q' = q)
    /\ binary_round prec emax s p ez
       = if 0 <? fexp prec emax (Zdigits2 q' + t) - t
         then (if t + (fexp prec emax (Zdigits2 q' + t) - t) <=? 971
               then S754_finite s
                      (Z.to_pos (q' / 2 ^ (fexp prec emax (Zdigits2 q' + t) - t)))
                      (t + (fexp prec emax (Zdigits2 q' + t) - t))
               else S754_infinity s)
         else (if t <=? 971 then S754_finite s (Z.to_pos q') t
               else S754_infinity s).
Proof.
  intros Hez t M q. unfold binary_round. fold t.
  destruct (shl_align_spec p ez t) as [Hv He].
  destruct (shl_align p ez t) as [mz E]. cbn [fst snd] in Hv, He. subst E.
  fold M in Hv.
  assert (Zdigits2 (Z.pos mz) + Z.min ez t = Z.pos (digits2_pos p) + ez) as Hd.
  { cbn [Zdigits2]. rewrite (digits_shift mz p (ez - Z.min ez t)); [lia|lia|done]. }
  assert (-1074 <= t) by (subst t; rewrite fexp_eq; lia).
  destruct (binary_round_aux_spec s (Z.pos mz) (Z.min ez t)) as (q' & Hq'); try lia.
  { rewrite Hd. fold t. lia. }
  rewrite Hd in Hq'. fold t in Hq'. rewrite Hv in Hq' |- *. exists q'. exact Hq'.
Qed.

Lemma digits_scaled_le m k P :
  0 <= k -> Z.pos m * 2 ^ k <= P ->
  Z.pos (digits2_pos m) + k <= Zdigits2 P.
Proof.
  intros Hk HP. assert (0 < 2 ^ k) by (apply Z.pow_pos_nonneg; lia).
  destruct (Z.pos m * 2 ^ k) as [|x|x] eqn:E; try lia.
  rewrite <- (digits_shift x m k Hk); [|lia].
  apply (Zdigits2_mono (Z.pos x) P). lia.
Qed.

Lemma digits_scaled_ge m k P :
  0 <= k -> 0 < P <= Z.pos m * 2 ^ k ->
  Zdigits2 P <= Z.pos (digits2_pos m) + k.
Proof.
  intros Hk HP. assert (0 < 2 ^ k) by (apply Z.pow_pos_nonneg; lia).
  destruct (Z.pos m * 2 ^ k) as [|x|x] eqn:E; try lia.
  rewrite <- (digits_shift x m k Hk); [|lia].
  apply (Zdigits2_mono P (Z.pos x)). lia.
Qed.

(** Rounding a value that is not below a representable one gives a
    number that is not below it. *)
Lemma binary_round_ge s p ez m e :
  fexp prec emax (Z.pos (digits2_pos m) + e) = e ->
  -1074 <= ez <= e -> Z.pos m * 2 ^ (e - ez) <= Z.pos p ->
  binary_round prec emax s p ez = S754_infinity s
  \/ exists m' e',
       binary_round prec emax s p ez = S754_finite s m' e'
       /\ (e < e' \/ (e' = e /\ Z.pos m <= Z.pos m')).
Proof.
  intros Hc Hez HP.
  destruct (binary_round_spec s p ez) as (q' & Hq' & [Hq _] & _ & ->); [lia|].
  pose proof (digits_scaled_le m (e - ez) (Z.pos p) ltac:(lia) HP) as Hd.
  cbn [Zdigits2] in Hd.
  set (t := fexp prec emax (Z.pos (digits2_pos p) + ez)) in *.
  assert (e <= t) as Ht by (subst t; rewrite fexp_eq in *; lia).
  replace (Z.min ez t) with ez in Hq by lia.
  rewrite Z.sub_diag, Z.pow_0_r, Z.mul_1_r in Hq.
  set (n := fexp prec emax (Zdigits2 q' + t) - t).
  destruct (Z.ltb_spec 0 n).
  - destruct (t + n <=? 971); [|by left].
    right. eexists _, _. split; [done|]. left. lia.
  - destruct (t <=? 971); [|by left].
    right. eexists _, _. split; [done|].
    destruct (Z.eq_dec t e) as [->|]; [|left; lia].
    right. split; [done|]. rewrite Z2Pos.id by done.
    assert (Z.pos m <= Z.pos p / 2 ^ (e - ez)); [|lia].
    apply Z.div_le_lower_bound; [apply Z.pow_pos_nonneg; lia | lia].
Qed.

(** Rounding a value that is not above a representable one gives a
    number that is not above it. *)
Lemma binary_round_le s p ez m e :
  fexp prec emax (Z.pos (digits2_pos m) + e) = e -> e <= 971 ->
  -1074 <= ez <= e -> Z.pos p <= Z.pos m * 2 ^ (e - ez) ->
  exists m' e',
    binary_round prec emax s p ez = S754_finite s m' e'
    /\ (e' < e \/ (e' = e /\ Z.pos m' <= Z.pos m)).
Proof.
  intros Hc He Hez HP.
  destruct (binary_round_spec s p ez) as (q' & Hq' & Hq & Hex & ->); [lia|].
  pose proof (digits_scaled_ge m (e - ez) (Z.pos p) ltac:(lia) ltac:(lia)) as Hd.
  cbn [Zdigits2] in Hd.
  pose proof (canonical_digits m e Hc) as (_ & Hm & Hnormal).
  pose proof (digits_bounds p) as [Hpl Hpu].
  set (dP := Z.pos (digits2_pos p)) in *.
  set (t := fexp prec emax (dP + ez)) in *.
  assert (t <= e) as Ht by (subst t; rewrite fexp_eq in *; lia).
  destruct (Z.le_gt_cases t ez) as [Htz|Htz].
  - (* the value is aligned to the left: nothing is cut off *)
    replace (Z.min ez t) with t in * by lia.
    rewrite Z.sub_diag, Z.pow_0_r, Z.div_1_r in *.
    rewrite (Hex (Z.mod_1_r _)) in *. clear Hex Hq.
    assert (0 < 2 ^ (ez - t)) by (apply Z.pow_pos_nonneg; lia).
    assert (Zdigits2 (Z.pos p * 2 ^ (ez - t)) = dP + (ez - t)) as Hdq.
    { destruct (Z.pos p * 2 ^ (ez - t)) as [|x|x] eqn:E; try lia.
      apply (digits_shift x p (ez - t)); lia. }
    rewrite Hdq. replace (dP + (ez - t) + t) with (dP + ez) by lia.
    fold t. rewrite Z.sub_diag. cbn [Z.ltb Z.compare].
    replace (t <=? 971) with true by (symmetry; apply Z.leb_le; lia).
    eexists _, _. split; [done|].
    destruct (Z.eq_dec t e) as [E|]; [|left; lia].
    right. split; [done|]. rewrite Z2Pos.id by lia.
    replace ez with e in * by lia. replace t with e in * by lia.
    rewrite Z.sub_diag, Z.pow_0_r in *. lia.
  - (* the value is cut to 53 digits *)
    replace (Z.min ez t) with ez in * by lia.
    rewrite Z.sub_diag, Z.pow_0_r, Z.mul_1_r in *.
    assert (t = dP + ez - 53) as Htd by (subst t; rewrite fexp_eq in *; lia).
    set (K := 2 ^ (t - ez)) in *.
    assert (0 < K) as HK by (apply Z.pow_pos_nonneg; lia).
    assert (2 ^ (dP - 1) = 2 ^ 52 * K) as E1.
    { unfold K. rewrite <- Z.pow_add_r by lia. f_equal. lia. }
    assert (2 ^ dP = 2 ^ 53 * K) as E2.
    { unfold K. rewrite <- Z.pow_add_r by lia. f_equal. lia. }
    assert (2 ^ 52 <= Z.pos p / K) as Hql
      by (apply Z.div_le_lower_bound; lia).
    assert (Z.pos p / K < 2 ^ 53) as Hqu
      by (apply Z.div_lt_upper_bound; lia).
    assert (t = e -> q' <= Z.pos m) as Hbound.
    { intros E. rewrite <- E in HP. fold K in HP.
      destruct (Z.eq_dec (Z.pos p mod K) 0) as [Hz|Hz].
      - rewrite (Hex Hz). apply Z.div_le_upper_bound; lia.
      - assert (Z.pos p / K < Z.pos m); [|lia].
        apply Z.div_lt_upper_bound; [done|].
        destruct (Z.eq_dec (Z.pos p) (K * Z.pos m)) as [E'|]; [|lia].
        rewrite E', Z.mul_comm, Z.mod_mul in Hz by lia. done. }
    destruct (Z.eq_dec q' (2 ^ 53)) as [Hq53|Hq53].
    + assert (Zdigits2 q' = 54) as -> by (apply Zdigits2_unique; rewrite Hq53; lia).
      assert (t < e) by (destruct (Z.eq_dec t e) as [E|]; [specialize (Hbound E)|]; lia).
      replace (fexp prec emax (54 + t) - t) with 1 by (rewrite fexp_eq; lia).
      cbn [Z.ltb Z.compare].
      replace (t + 1 <=? 971) with true by (symmetry; apply Z.leb_le; lia).
      eexists _, _. split; [done|].
      destruct (Z.eq_dec (t + 1) e) as [E|]; [|left; lia].
      right. split; [done|]. rewrite Hq53. specialize (Hnormal ltac:(lia)).
      exact Hnormal.
    + assert (Zdigits2 q' = 53) as -> by (apply Zdigits2_unique; lia).
      replace (fexp prec emax (53 + t) - t) with 0 by (rewrite fexp_eq; lia).
      cbn [Z.ltb Z.compare].
      replace (t <=? 971) with true by (symmetry; apply Z.leb_le; lia).
      eexists _, _. split; [done|].
      destruct (Z.eq_dec t e) as [E|]; [|left; lia].
      right. split; [done|]. rewrite Z2Pos.id by done. auto.
Qed.

End Binary64.

Section Binary64Order.
Local Open Scope Z_scope.

(** ** Adding one *)

(** Adding 1 never gives a smaller number, and gives NaN for NaN only. *)
Lemma SFadd_one X :
  valid_binary X = true -> X <> S754_nan ->
  SF64add X (S754_finite false 4503599627370496 (-52)) <> S754_nan
  /\ SFltb (SF64add X (S754_finite false 4503599627370496 (-52))) X = false.
Proof.
  intros HX Hn. destruct X as [sx|sx| |s m e]; try done;
    try (by destruct sx).
  destruct (valid_finite s m e HX) as [Hc He].
  pose proof (canonical_digits m e Hc) as (Hmin & _ & _).
  unfold SF64add, SFadd.
  fold (aligned s m e (Z.min e (-52))).
  fold (aligned false 4503599627370496 (-52) (Z.min e (-52))).
  rewrite !aligned_value by lia.
  set (ez := Z.min e (-52)).
  assert (0 < 2 ^ (e - ez)) by (apply Z.pow_pos_nonneg; lia).
  assert (0 < 2 ^ (-52 - ez)) by (apply Z.pow_pos_nonneg; lia).
  cbn [cond_Zopp].
  set (O := 4503599627370496 * 2 ^ (-52 - ez)).
  assert (0 < O) by (unfold O; lia).
  destruct (cond_Zopp s (Z.pos m * 2 ^ (e - ez)) + O) as [|p|p] eqn:EZ;
    cbn [binary_normalize].
  - split; [done|]. destruct s; [done|]. cbn [cond_Zopp] in EZ. lia.
  - destruct s.
    + destruct (binary_round_pos false p ez ltac:(lia)) as [(m' & e' & ->)| ->];
        by split.
    + cbn [cond_Zopp] in EZ.
      destruct (binary_round_ge false p ez m e Hc ltac:(lia) ltac:(lia))
        as [->|(m' & e' & -> & Hb)]; [by split|].
      split; [done|]. apply not_true_iff_false. intros Hlt.
      apply SFltb_rank in Hlt as (_ & _ & Hlt).
      unfold rank_lt in Hlt. cbn in Hlt. lia.
  - destruct s; [|cbn [cond_Zopp] in EZ; lia].
    cbn [cond_Zopp] in EZ.
    destruct (binary_round_le true p ez m e Hc He ltac:(lia) ltac:(lia))
      as (m' & e' & -> & Hb).
    split; [done|]. apply not_true_iff_false. intros Hlt.
    apply SFltb_rank in Hlt as (_ & _ & Hlt).
    unfold rank_lt in Hlt. cbn in Hlt. lia.
Qed.

Lemma float_add_1_not_nan (v : float) :
  is_nan v = false -> is_nan (v + 1)%float = false.
Proof.
  intros Hv. unfold is_nan. apply negb_false_iff, float_eqb_rank.
  assert (Prim2SF (v + 1)%float <> S754_nan) as Hn.
  { rewrite add_spec, Prim2SF_one.
    apply SFadd_one; [apply Prim2SF_valid | by apply not_nan]. }
  assert (is_nan (v + 1)%float = false) as Hnan.
  { unfold is_nan. apply negb_false_iff.
    rewrite FloatAxioms.eqb_spec. apply SFeqb_rank. done. }
  done.
Qed.

Lemma float_add_1_ge (v : float) : ((v + 1) <? v)%float = false.
Proof.
  destruct (is_nan v) eqn:Hv.
  - apply not_true_iff_false. intros H%float_ltb_rank. destruct H as (_ & H & _).
    congruence.
  - rewrite FloatAxioms.ltb_spec, add_spec, Prim2SF_one.
    apply SFadd_one; [apply Prim2SF_valid | by apply not_nan].
Qed.

(** ** The order of the view counter *)

Lemma not_below_refl v : not_below v v.
Proof.
  unfold not_below. apply not_true_iff_false. intros H%float_ltb_rank.
  destruct H as (_ & _ & H). unfold rank_lt in H. lia.
Qed.

Lemma grown_refl v : grown v v.
Proof. split; [apply not_below_refl | done]. Qed.

Lemma grown_add_1 v : grown v (v + 1)%float.
Proof. split; [apply float_add_1_ge | apply float_add_1_not_nan]. Qed.

Lemma grown_trans a b c : grown a b -> grown b c -> grown a c.
Proof.
  unfold grown, not_below. intros [Hab Hnab] [Hbc Hnbc].
  split; [|auto].
  apply not_true_iff_false. intros H.
  apply float_ltb_rank in H as (Hc & Ha & H).
  specialize (Hnab Ha).
  apply not_true_iff_false in Hab, Hbc.
  rewrite float_ltb_rank in Hab, Hbc.
  assert (~ rank_lt (rank (Prim2SF b)) (rank (Prim2SF a))) as H1 by tauto.
  assert (~ rank_lt (rank (Prim2SF c)) (rank (Prim2SF b))) as H2 by tauto.
  unfold rank_lt in *. lia.
Qed.
End Binary64Order.

Section Binary64NaN.
Local Open Scope Z_scope.

(** ** Where NaN cannot arise *)

Lemma is_nan_Prim2SF (x : float) : is_nan x = false <-> Prim2SF x <> S754_nan.
Proof.
  split; [apply not_nan|]. intros Hn. unfold is_nan.
  apply negb_false_iff. rewrite FloatAxioms.eqb_spec. by apply SFeqb_rank.
Qed.

Lemma binary_normalize_not_nan z e :
  -1074 <= e -> binary_normalize prec emax z e false <> S754_nan.
Proof.
  intros He. destruct z as [|p|p]; cbn [binary_normalize]; [done| |].
  - by destruct (binary_round_pos false p e He) as [(m' & e' & ->)| ->].
  - by destruct (binary_round_pos true p e He) as [(m' & e' & ->)| ->].
Qed.

(** A difference is NaN only if an operand is NaN or both are infinite. *)
Lemma SFsub_not_nan X sy my ey :
  valid_binary X = true -> valid_binary (S754_finite sy my ey) = true ->
  X <> S754_nan -> SF64sub X (S754_finite sy my ey) <> S754_nan.
Proof.
  intros HX HY Hn. destruct X as [sx|sx| |sx mx ex]; try done.
  unfold SF64sub, SFsub. apply binary_normalize_not_nan.
  apply valid_finite in HX as [HX _]. apply valid_finite in HY as [HY _].
  rewrite fexp_eq in HX, HY. lia.
Qed.

Lemma shr_fexp_nonneg m e l :
  0 <= m -> 0 <= shr_m (shr_fexp prec emax m e l).1.
Proof.
  intros Hm. rewrite shr_fexp_spec.
  assert (shr_m (shr_record_of_loc m l) = m) as Hrec by (by destruct l as [|[]]).
  destruct (0 <? _); cbn [fst].
  - rewrite shr_iter_m, Hrec by (rewrite Hrec; lia).
    apply Z.div_pos; [done|]. apply Z.pow_pos_nonneg; lia.
  - by rewrite Hrec.
Qed.

Lemma binary_round_aux_not_nan s m e l :
  0 <= m -> binary_round_aux prec emax s m e l <> S754_nan.
Proof.
  intros Hm. unfold binary_round_aux.
  pose proof (shr_fexp_nonneg m e l Hm) as H1.
  destruct (shr_fexp prec emax m e l) as [mrs' e']. cbn [fst] in H1.
  pose proof (round_nearest_even_bounds (shr_m mrs') (loc_of_shr_record mrs')) as [H2 _].
  pose proof (shr_fexp_nonneg _ e' loc_Exact (Z.le_trans _ _ _ H1 H2)) as H3.
  destruct (shr_fexp prec emax _ e' loc_Exact) as [mrs'' e'']. cbn [fst] in H3.
  destruct (shr_m mrs'') as [|q|q]; [done| |lia].
  by destruct (e'' <=? emax - prec).
Qed.

(** A quotient by a finite number other than zero is NaN only for NaN. *)
Lemma SFdiv_not_nan X sy my ey :
  X <> S754_nan -> SF64div X (S754_finite sy my ey) <> S754_nan.
Proof.
  intros Hn. destruct X as [sx|sx| |sx mx ex]; try done.
  unfold SF64div, SFdiv, SFdiv_core_binary.
  set (e' := Z.min _ _). set (m' := match _ with 0 => _ | _ => _ end).
  assert (0 <= m') as Hm'.
  { unfold m'. destruct (ex - ey - e') as [|k|k]; try lia.
    apply Z.shiftl_nonneg. lia. }
  pose proof (Z.div_pos m' (Z.pos my) Hm' ltac:(lia)) as Hq.
  unfold Z.div in Hq. destruct (Z.div_eucl m' (Z.pos my)) as [q r].
  by apply binary_round_aux_not_nan.
Qed.

Lemma float_of_Z_finite n :
  safe n ->
  Prim2SF (float_of_Z n) = S754_zero false
  \/ exists s m e, Prim2SF (float_of_Z n) = S754_finite s m e.
Proof.
  intros Hn. unfold safe in Hn. rewrite Prim2SF_float_of_Z by lia.
  destruct (Z.eq_dec n 0) as [->|H0]; [by left|].
  destruct (binary_normalize_safe n ltac:(lia) H0) as (q & t & _ & ->). eauto.
Qed.

(** The hours since a post was created are a number. *)
Lemma hours_not_nan now created :
  safe now -> safe created ->
  is_nan ((float_of_Z now - float_of_Z created) / (1000 * 60 * 60))%float = false.
Proof.
  intros Hnow Hc. apply is_nan_Prim2SF.
  rewrite div_spec, sub_spec.
  change (Prim2SF (1000 * 60 * 60)%float)
    with (S754_finite false 7730941132800000 (-31)).
  apply SFdiv_not_nan.
  destruct (float_of_Z_finite created Hc) as [E|(s & m & e & E)].
  - rewrite E. pose proof (not_nan _ (float_of_Z_not_nan now Hnow)) as Hn.
    by destruct (Prim2SF (float_of_Z now)) as [[]|[]| |].
  - pose proof (Prim2SF_valid (float_of_Z created)) as Hv. rewrite E in Hv |- *.
    apply SFsub_not_nan; [apply Prim2SF_valid | done |].
    apply not_nan, float_of_Z_not_nan, Hnow.
Qed.

(** ** The age penalty *)

Lemma float_sub_24_not_nan (h : float) :
  is_nan h = false -> is_nan (h - 24)%float = false.
Proof.
  intros Hh. apply is_nan_Prim2SF. rewrite sub_spec.
  change (Prim2SF 24) with (S754_finite false 6755399441055744 (-48)).
  apply SFsub_not_nan; [apply Prim2SF_valid | done | by apply not_nan].
Qed.

(** The conditional of line 174 is [Math.max(0, hours - 24) * 0.1]. *)
Lemma agePenalty_spec (h : float) :
  is_nan h = false ->
  (if (24 <? h)%float then ((h - 24) * 0x1.999999999999ap-4)%float else 0%float)
  = spec_agePenalty h.
Proof.
  intros Hh. unfold spec_agePenalty, Math_max.
  pose proof (float_sub_24_not_nan h Hh) as Hx.
  assert (is_nan 24 = false) as H24 by reflexivity.
  rewrite <- (float_sub_sign 24 h H24 Hh).
  change (is_nan 0) with false. rewrite Hx. cbn [orb].
  destruct (0 <? h - 24)%float; [done|].
  change (get_sign 0) with false.
  by destruct (h - 24 <? 0)%float.
Qed.
End Binary64NaN.

Section Binary64Round.
Local Open Scope Z_scope.

(** ** Rounding to hundredths *)











End Binary64Round.

(* ================================================================== *)
(** * Slugs *)
(* ================================================================== *)

Lemma runs_maximal s :
  join_runs (runs s) = s
  /\ alternating (runs s)
  /\ Forall uniform_run (runs s).
Proof.
  induction s as [|c s (Hj & Ha & Hu)]; [by repeat split|].
  cbn [runs]. destruct (runs s) as [|[k r] rest] eqn:E.
  - cbn in Hj. subst s. split; [done|]. split; [done|].
    constructor; [|done]. split; [done|]. cbn [all_chars fst snd].
    rewrite andb_true_r. apply eqb_reflx.
  - destruct (Bool.eqb (is_alnum c) k) eqn:Hk.
    + apply eqb_prop in Hk. subst k. split; [|split].
      * by subst s.
      * destruct rest as [|[k2 r2] rest]; [done|]. exact Ha.
      * inversion_clear Hu as [|? ? [Hne Hall] Hrest]. constructor; [|done].
        split; [done|]. cbn [all_chars fst snd] in Hall |- *.
        rewrite Hall, andb_true_r. apply eqb_reflx.
    + split; [|split].
      * by subst s.
      * split; [|done]. intros Heq. by rewrite Heq, eqb_reflx in Hk.
      * constructor; [|done]. split; [done|]. cbn [all_chars fst snd].
    rewrite andb_true_r. apply eqb_reflx.
Qed.

(** The scan of the first regular expression, against the runs. *)
Lemma replaceNonAlnum_runs s :
  replaceNonAlnum false s = render (runs s)
  /\ replaceNonAlnum true s =
       match runs s with
       | (false, _) :: rest => render rest
       | rs => render rs
       end.
Proof.
  induction s as [|c s [IHf IHt]]; [done|].
  cbn [replaceNonAlnum runs]. destruct (is_alnum c) eqn:Hc.
  - rewrite IHf. destruct (runs s) as [|[[] r] rest]; cbn; done.
  - rewrite IHt. destruct (runs s) as [|[[] r] rest]; cbn; done.
Qed.

Lemma replaceNonAlnum_collapse s : replaceNonAlnum false s = spec_collapse s.
Proof. apply replaceNonAlnum_runs. Qed.

Lemma alnum_not_hyphen c : is_alnum c = true -> is_hyphen c = false.
Proof.
  unfold is_hyphen. intros H. apply N.eqb_neq. intros ->. by vm_compute in H.
Qed.

Lemma replaceNonAlnum_hyphens s b :
  no_double_hyphen (replaceNonAlnum b s)
  /\ (b = true -> starts_with_hyphen (replaceNonAlnum b s) = false).
Proof.
  revert b. induction s as [|c s IH]; intros b; [done|].
  cbn [replaceNonAlnum]. destruct (is_alnum c) eqn:Hc.
  - destruct (IH false) as [IHn _]. split.
    + cbn [no_double_hyphen]. destruct (replaceNonAlnum false s) eqn:E; [done|].
      split; [|done]. by rewrite (alnum_not_hyphen c Hc).
    + intros _. cbn. by apply alnum_not_hyphen.
  - destruct (IH true) as [IHn IHs]. destruct b; [by split|].
    split; [|done].
    cbn [no_double_hyphen]. destruct (replaceNonAlnum true s) eqn:E; [done|].
    split; [|done]. specialize (IHs eq_refl). cbn in IHs. rewrite IHs.
    apply andb_false_r.
Qed.

Lemma no_double_hyphen_tail c s : no_double_hyphen (c :: s) -> no_double_hyphen s.
Proof. destruct s; cbn; tauto. Qed.

Lemma dropLeadingHyphen_spec s :
  no_double_hyphen s -> dropLeadingHyphen s = spec_trimLeading s.
Proof.
  destruct s as [|c s]; [done|].
  cbn [dropLeadingHyphen spec_trimLeading]. destruct (is_hyphen c) eqn:Hc; [|done].
  destruct s as [|d s]; [done|].
  cbn [no_double_hyphen spec_trimLeading]. rewrite Hc. intros [Hd _].
  cbn [andb] in Hd. by rewrite Hd.
Qed.

Lemma spec_trimTrailing_empty c s :
  spec_trimTrailing (c :: s) = [] -> is_hyphen c = true.
Proof.
  cbn [spec_trimTrailing]. destruct (spec_trimTrailing s); [|done].
  by destruct (is_hyphen c).
Qed.

Lemma dropTrailingHyphen_spec s :
  no_double_hyphen s -> dropTrailingHyphen s = spec_trimTrailing s.
Proof.
  induction s as [|c s IH]; [done|]. intros Hs.
  specialize (IH (no_double_hyphen_tail _ _ Hs)).
  destruct s as [|d s]; [done|].
  change (dropTrailingHyphen (c :: d :: s))
    with (c :: dropTrailingHyphen (d :: s)).
  change (spec_trimTrailing (c :: d :: s))
    with (match spec_trimTrailing (d :: s) with
          | [] => if is_hyphen c then [] else [c]
          | r => c :: r
          end).
  rewrite IH. destruct (spec_trimTrailing (d :: s)) eqn:E; [|done].
  apply spec_trimTrailing_empty in E. destruct Hs as [Hcd _].
  rewrite E, andb_true_r in Hcd. by rewrite Hcd.
Qed.

Lemma stripEdgeHyphens_spec s :
  no_double_hyphen s ->
  stripEdgeHyphens s = spec_trimTrailing (spec_trimLeading s).
Proof.
  intros Hs. unfold stripEdgeHyphens.
  rewrite <- (dropLeadingHyphen_spec s Hs). apply dropTrailingHyphen_spec.
  destruct s as [|c s]; [done|]. cbn [dropLeadingHyphen].
  destruct (is_hyphen c); [|done]. by eapply no_double_hyphen_tail.
Qed.

Lemma slugify_spec {rt : Runtime} title : slugify title = spec_slug title.
Proof.
  unfold slugify, spec_slug. rewrite <- replaceNonAlnum_collapse.
  apply stripEdgeHyphens_spec, replaceNonAlnum_hyphens.
Qed.

(* ================================================================== *)
(** * The trending score and the ranking *)
(* ================================================================== *)

Lemma time_value_safe t : time_value t -> safe t.
Proof.
  unfold time_value, safe. change (2 ^ 53)%Z with 9007199254740992%Z. lia.
Qed.

(** The score of line 177 is the formula of the specification, in
    binary64. *)
Lemma scorePost_score now id post author :
  is_nan (hoursSincePosted (scorePost now (id, post, author))) = false ->
  trendingScore (scorePost now (id, post, author))
  = spec_trendingScore (Post.views post) (length (Post.likes post))
      (hoursSincePosted (scorePost now (id, post, author))).
Proof.
  intros Hh. cbn [scorePost trendingScore hoursSincePosted] in Hh |- *.
  unfold spec_trendingScore.
  by rewrite float_mul_1, (float_mul_comm _ 3), (agePenalty_spec _ Hh).
Qed.

Lemma scorePost_hours now id post author :
  safe now -> safe (Post.created_at post) ->
  (Z.abs (now - Post.created_at post) <= 2 ^ 53)%Z ->
  hoursSincePosted (scorePost now (id, post, author))
  = spec_hoursSincePosted now (Post.created_at post).
Proof.
  intros Hn Hc Hd. cbn [scorePost hoursSincePosted]. unfold spec_hoursSincePosted.
  by rewrite float_of_Z_sub.
Qed.

Lemma scorePost_hours_not_nan now id post author :
  time_value now -> time_value (Post.created_at post) ->
  is_nan (hoursSincePosted (scorePost now (id, post, author))) = false.
Proof.
  intros Hn Hc. cbn [scorePost hoursSincePosted].
  apply hours_not_nan; by apply time_value_safe.
Qed.

Lemma sample_score_now now author (a b : positive) title slug :
  time_value now ->
  trendingScore (scorePost now
    (1%positive, sample_post title slug author 10 [a; b] now, None)) = 16%float.
Proof.
  intros Hn%time_value_safe.
  cbn [scorePost trendingScore sample_post Post.views Post.likes Post.created_at length].
  rewrite float_of_Z_sub, Z.sub_diag by (done || (rewrite Z.sub_diag; done)).
  reflexivity.
Qed.

Lemma sample_score_48h now author (a b : positive) title slug :
  time_value now -> time_value (now + 48 * 3600000) ->
  trendingScore (scorePost (now + 48 * 3600000)
    (1%positive, sample_post title slug author 10 [a; b] now, None))
  = 0x1.b333333333333p+3%float.
Proof.
  intros Hn%time_value_safe Hn'%time_value_safe.
  cbn [scorePost trendingScore sample_post Post.views Post.likes Post.created_at length].
  assert (now + 48 * 3600000 - now = 172800000)%Z as E by lia.
  rewrite float_of_Z_sub, E by (done || (rewrite E; done)).
  reflexivity.
Qed.
(** ** The store's [find] *)

Lemma find_spec {D} (keep : D -> bool) (coll : gmap positive D) id d :
  In (id, d) (find keep coll) <-> coll !! id = Some d /\ keep d = true.
Proof.
  unfold find. rewrite filter_In, <- list_elem_of_In, elem_of_map_to_list.
  reflexivity.
Qed.

Lemma allPosts_spec db id p a :
  In (id, p, a) (allPosts db) <->
  Posts db !! id = Some p /\ Post.is_published p = true
  /\ a = Users db !! Post.author p.
Proof.
  unfold allPosts. rewrite in_map_iff. split.
  - intros ([id' p'] & E & Hin). cbn in E. injection E as -> -> <-.
    apply find_spec in Hin. tauto.
  - intros (Hp & Hpub & ->). exists (id, p). split; [done|].
    by apply find_spec.
Qed.

Lemma postsWithScores_lookup clock db i sp :
  postsWithScores clock db !! i = Some sp <->
  exists doc, allPosts db !! i = Some doc /\ sp = scorePost (clock i) doc.
Proof.
  unfold postsWithScores. rewrite list_lookup_imap.
  destruct (allPosts db !! i) as [doc|]; cbn.
  - split; [intros [= <-]; eauto | intros (? & [= <-] & ->); done].
  - split; [done | intros (? & ? & _); done].
Qed.

Lemma postsWithScores_elem clock db sp :
  In sp (postsWithScores clock db) ->
  Posts db !! sc_id sp = Some (sc_post sp)
  /\ Post.is_published (sc_post sp) = true
  /\ sc_author sp = Users db !! Post.author (sc_post sp).
Proof.
  intros Hin. apply list_elem_of_In, list_elem_of_lookup in Hin as [i Hi].
  apply postsWithScores_lookup in Hi as ([[id p] a] & Hdoc & ->).
  apply list_elem_of_lookup_2, list_elem_of_In, allPosts_spec in Hdoc.
  exact Hdoc.
Qed.

Lemma published_scored clock db id p :
  Posts db !! id = Some p -> Post.is_published p = true ->
  exists i, postsWithScores clock db !! i
            = Some (scorePost (clock i) (id, p, Users db !! Post.author p)).
Proof.
  intros Hp Hpub.
  assert (In (id, p, Users db !! Post.author p) (allPosts db)) as Hin
    by (by apply allPosts_spec).
  apply list_elem_of_In, list_elem_of_lookup in Hin as [i Hi].
  exists i. apply postsWithScores_lookup. eauto.
Qed.

(** ** Sorting *)

Section SortFacts.
Context {A : Type} (cmp : A -> A -> float).

Lemma sort_insert_perm x l : Permutation (sort_insert cmp x l) (x :: l).
Proof.
  induction l as [|y l IH]; cbn [sort_insert]; [done|].
  destruct (0 <? cmp x y)%float; [|done].
  rewrite IH. apply perm_swap.
Qed.

Lemma js_sort_perm l : Permutation (js_sort cmp l) l.
Proof.
  induction l as [|x l IH]; cbn [js_sort]; [done|].
  rewrite sort_insert_perm. by constructor.
Qed.
End SortFacts.

Lemma compareTrending_gt (a b : Scored) :
  rankable a -> rankable b ->
  (0 <? compareTrending a b)%float = true -> trending_before b a.
Proof.
  intros [Ha Hta%time_value_safe] [Hb Htb%time_value_safe].
  unfold compareTrending, trending_before.
  destruct (trendingScore b =? trendingScore a)%float eqn:E; cbn [negb].
  - rewrite float_sub_sign by by apply float_of_Z_not_nan.
    rewrite float_of_Z_ltb by done. intros Hlt%Z.ltb_lt.
    right. split; [done | lia].
  - rewrite float_sub_sign by done. by left.
Qed.

Lemma compareTrending_le (a b : Scored) :
  rankable a -> rankable b ->
  (0 <? compareTrending a b)%float = false -> trending_before a b.
Proof.
  intros [Ha Hta%time_value_safe] [Hb Htb%time_value_safe].
  unfold compareTrending, trending_before.
  destruct (trendingScore b =? trendingScore a)%float eqn:E; cbn [negb].
  - rewrite float_sub_sign by by apply float_of_Z_not_nan.
    rewrite float_of_Z_ltb by done. intros Hge%Z.ltb_ge.
    right. split; [by rewrite float_eqb_sym | lia].
  - rewrite float_sub_sign by done. intros Hlt.
    left. apply float_trichotomy; try done. by rewrite float_eqb_sym.
Qed.

Lemma trending_before_trans a b c :
  trending_before a b -> trending_before b c -> trending_before a c.
Proof.
  unfold trending_before. intros [H1|[H1 H1']] [H2|[H2 H2']].
  - left. eauto using float_ltb_trans.
  - left. rewrite float_eqb_sym in H2. eauto using float_eqb_ltb.
  - left. rewrite float_eqb_sym in H1. eauto using float_ltb_eqb.
  - right. split; [eauto using float_eqb_trans | lia].
Qed.

Lemma sort_insert_sorted x l :
  rankable x -> Forall rankable l ->
  StronglySorted trending_before l ->
  StronglySorted trending_before (sort_insert compareTrending x l).
Proof.
  intros Hx Hl Hs. induction Hs as [|y l Hs IH Hy]; cbn [sort_insert];
    [repeat constructor|].
  apply Forall_cons in Hl as [Hry Hl].
  destruct (0 <? compareTrending x y)%float eqn:E.
  - apply compareTrending_gt in E; [|done|done]. constructor; [by apply IH|].
    rewrite Forall_forall in *. intros z Hz.
    apply list_elem_of_In in Hz.
    apply (Permutation_in _ (sort_insert_perm compareTrending x l)) in Hz.
    destruct Hz as [<-|Hz]; [done|]. apply Hy. by apply list_elem_of_In.
  - apply compareTrending_le in E; [|done|done]. constructor; [by constructor|].
    constructor; [done|].
    rewrite Forall_forall in *. intros z Hz.
    eapply trending_before_trans; [exact E|]. by apply Hy.
Qed.

Lemma js_sort_sorted l :
  Forall rankable l -> StronglySorted trending_before (js_sort compareTrending l).
Proof.
  induction l as [|x l IH]; cbn [js_sort]; [constructor|].
  intros [Hx Hl]%Forall_cons. apply sort_insert_sorted; [done| |by apply IH].
  rewrite Forall_forall in *. intros y Hy. apply Hl.
  apply list_elem_of_In in Hy.
  by apply list_elem_of_In, (Permutation_in _ (js_sort_perm compareTrending l)).
Qed.

Lemma slice0_nonneg {A} (n : Z) (l : list A) :
  (0 <= n)%Z -> slice0 n l = take (Z.to_nat n) l.
Proof. intros Hn. unfold slice0. by rewrite (proj2 (Z.ltb_ge n 0) Hn). Qed.

(** The projection of lines 196-210 succeeds where every author was
    found, and each entry shows the post at its place, with its rank. *)
Lemma mapM_index_trendingItem (l : list Scored) i :
  Forall (fun sp => is_Some (sc_author sp)) l ->
  exists items,
    mapM_index trendingItem i l = inr items
    /\ Forall2 shows l items
    /\ List.map ti_rank items = seq (i + 1) (length items).
Proof.
  intros Hl. revert i. induction Hl as [|sp l [u Hu] Hl IH]; intros i.
  - exists []. repeat split; constructor.
  - destruct (IH (S i)) as (items & Hitems & Hshow & Hrank).
    eexists (_ :: items). cbn [mapM_index]. unfold trendingItem at 1.
    rewrite Hu. cbn [bind ret]. rewrite Hitems. cbn [bind ret].
    split; [reflexivity|]. split.
    + constructor; [|done]. by repeat split.
    + cbn [List.map ti_rank length seq]. f_equal. exact Hrank.
Qed.

Lemma trendingLimit_absent : trendingLimit None = 4%Z.
Proof. reflexivity. Qed.

Lemma trendingLimit_positive s n :
  parseInt s = Some n -> (0 < n)%Z -> trendingLimit (Some s) = n.
Proof.
  intros Hs Hn. unfold trendingLimit. cbn. rewrite Hs.
  destruct (Z.eqb_spec n 0); [lia|done].
Qed.

Lemma trendingLimit_falsy s :
  parseInt s = None \/ parseInt s = Some 0%Z -> trendingLimit (Some s) = 4%Z.
Proof. unfold trendingLimit. cbn. by intros [-> | ->]. Qed.

Lemma postsWithScores_rankable clock db :
  scores_are_numbers (postsWithScores clock db) -> dates_valid db ->
  Forall rankable (postsWithScores clock db).
Proof.
  unfold scores_are_numbers. rewrite !Forall_forall. intros Hnum Hdates sp Hsp.
  split; [by apply Hnum|].
  apply list_elem_of_In, postsWithScores_elem in Hsp as (Hp & Hpub & _).
  by eapply Hdates.
Qed.

Lemma getTrendingPosts_ranked clock limit db :
  scores_are_numbers (postsWithScores clock db) -> dates_valid db ->
  (0 <= trendingLimit limit)%Z ->
  exists ranked,
    Permutation ranked (postsWithScores clock db)
    /\ StronglySorted trending_before ranked
    /\ sortedPosts clock (trendingLimit limit) db
       = take (Z.to_nat (trendingLimit limit)) ranked
    /\ (authors_exist db ->
        exists items,
          getTrendingPosts clock limit db = Ok 200 items
          /\ Forall2 shows (take (Z.to_nat (trendingLimit limit)) ranked) items
          /\ List.map ti_rank items = seq 1 (length items)).
Proof.
  intros Hnum Hdates Hlim.
  set (ranked := js_sort compareTrending (postsWithScores clock db)).
  assert (Permutation ranked (postsWithScores clock db)) as Hperm
    by apply js_sort_perm.
  assert (sortedPosts clock (trendingLimit limit) db
          = take (Z.to_nat (trendingLimit limit)) ranked) as Hkept
    by (unfold sortedPosts; by rewrite slice0_nonneg).
  exists ranked. split; [done|].
  split; [by apply js_sort_sorted, postsWithScores_rankable|].
  split; [done|]. intros Hauth.
  destruct (mapM_index_trendingItem
              (take (Z.to_nat (trendingLimit limit)) ranked) 0)
    as (items & Hitems & Hshow & Hrank).
  { rewrite Forall_forall. intros sp Hsp.
    apply (subseteq_take _ ranked), list_elem_of_In in Hsp.
    apply (Permutation_in _ Hperm), postsWithScores_elem in Hsp
      as (Hp & Hpub & ->).
    by eapply Hauth. }
  exists items. split; [|done].
  unfold getTrendingPosts. by rewrite Hkept, Hitems.
Qed.

(* ================================================================== *)
(** * Handlers that write *)
(* ================================================================== *)

(** ** Views *)

Lemma getPostById_found clock id user db post :
  Posts db !! id = Some post ->
  exists view post',
    getPostById clock id user db
    = (Ok 200 view,
       with_Posts (<[id := post']> (Posts db)) db)
    /\ pv_views view = (Post.views post + 1)%float
    /\ Post.views post' = (Post.views post + 1)%float
    /\ Post.likes post' = Post.likes post
    /\ same_content post post'.
Proof.
  intros Hp. unfold getPostById. rewrite Hp.
  eexists _, _. split; [reflexivity|]. by repeat split.
Qed.

Lemma getPostById_missing clock id user db :
  Posts db !! id = None ->
  getPostById clock id user db = (Fail 404 "Post not found", db).
Proof. intros Hp. unfold getPostById. by rewrite Hp. Qed.

(** [n] reads add 1 to the counter [n] times. *)
Lemma reads_views {rt : Runtime} id (reads : list (Clock * option positive)) : forall db post,
  Posts db !! id = Some post ->
  exists post',
    Posts (run (List.map (fun cu => (cu.1, GetPostById id cu.2)) reads) db) !! id
    = Some post'
    /\ Post.views post'
       = Nat.iter (length reads) (fun v => (v + 1)%float) (Post.views post).
Proof.
  induction reads as [|[clock user] reads IH]; intros db post Hp.
  - exists post. by split.
  - destruct (getPostById_found clock id user db post Hp)
      as (view & post1 & Hget & _ & Hv & _).
    cbn [List.map run handle fst snd]. rewrite Hget. cbn [snd].
    destruct (IH (with_Posts (<[id:=post1]> (Posts db)) db) post1)
      as (post' & Hp' & Hv'); [apply lookup_insert_eq|].
    exists post'. split; [done|]. rewrite Hv', Hv. cbn [length].
    by rewrite Nat.iter_succ_r.
Qed.

(** As long as the counter is a whole number below [2^53] in magnitude,
    adding 1 is exact. *)
Lemma iter_add_1 (k : nat) : forall n : Z,
  (- 2 ^ 53 < n)%Z -> (n + Z.of_nat k <= 2 ^ 53)%Z ->
  Nat.iter k (fun v => (v + 1)%float) (float_of_Z n) = float_of_Z (n + Z.of_nat k).
Proof.
  induction k as [|k IH]; intros n Hl Hu.
  - cbn. by rewrite Z.add_0_r.
  - rewrite Nat.iter_succ_r.
    change 1%float with (float_of_Z 1).
    rewrite float_of_Z_add; [|unfold safe; lia|unfold safe; cbn; lia|lia].
    rewrite IH by lia. f_equal. lia.
Qed.

(** ** Likes *)

Lemma includes_In l x : includes l x = true <-> In x l.
Proof.
  unfold includes. rewrite existsb_exists. split.
  - intros (y & Hy & E). apply Pos.eqb_eq in E. by subst.
  - intros Hx. exists x. split; [done|]. apply Pos.eqb_refl.
Qed.

Lemma toggle_like_In u l v :
  In v (toggle_like u l) <-> (v = u /\ ~ In u l) \/ (v <> u /\ In v l).
Proof.
  unfold toggle_like. destruct (includes l u) eqn:E.
  - apply includes_In in E. rewrite filter_In, negb_true_iff, Pos.eqb_neq.
    split; [intros [? ?]; by right | intros [[_ ?]|[? ?]]; done].
  - assert (~ In u l) as Hu by (rewrite <- includes_In; congruence).
    rewrite in_app_iff. cbn. split.
    + intros [Hv|[<-|[]]]; [|by left].
      right. split; [|done]. by intros ->.
    + intros [[-> _]|[_ ?]]; [right; by left | by left].
Qed.

Lemma toggle_like_flips u l : In u (toggle_like u l) <-> ~ In u l.
Proof. rewrite toggle_like_In. tauto. Qed.

Lemma toggle_like_others u l v : v <> u -> In v (toggle_like u l) <-> In v l.
Proof. rewrite toggle_like_In. tauto. Qed.

Lemma toggle_like_twice u l v :
  In v (toggle_like u (toggle_like u l)) <-> In v l.
Proof.
  rewrite toggle_like_In, toggle_like_flips, !toggle_like_In.
  destruct (decide (v = u)) as [->|Hne]; [|tauto].
  destruct (In_dec Pos.eq_dec u l); tauto.
Qed.

Lemma toggle_like_twice_absent u l :
  ~ In u l -> toggle_like u (toggle_like u l) = l.
Proof.
  intros Hu. assert (includes l u = false) as E
    by (apply not_true_iff_false; by rewrite includes_In).
  unfold toggle_like at 2. rewrite E. unfold toggle_like.
  assert (includes (l ++ [u]) u = true) as ->
    by (apply includes_In, in_app_iff; right; by left).
  rewrite List.filter_app. cbn. rewrite Pos.eqb_refl. cbn. rewrite app_nil_r.
  apply forallb_filter_id, forallb_forall. intros x Hx.
  apply negb_true_iff, Pos.eqb_neq. by intros ->.
Qed.

Lemma toggle_like_NoDup u l : NoDup l -> NoDup (toggle_like u l).
Proof.
  intros Hl. unfold toggle_like. destruct (includes l u) eqn:E.
  - apply NoDup_ListNoDup, List.NoDup_filter. by apply NoDup_ListNoDup.
  - apply NoDup_app. split; [done|]. split; [|apply NoDup_singleton].
    intros x Hx [->|[]]%list_elem_of_In. apply list_elem_of_In in Hx.
    apply includes_In in Hx. congruence.
Qed.

Lemma likePost_found clock id u db post :
  Posts db !! id = Some post ->
  exists res post',
    likePost clock id u db
    = (Ok 200 res, with_Posts (<[id := post']> (Posts db)) db)
    /\ Post.likes post' = toggle_like u (Post.likes post)
    /\ Post.views post' = Post.views post
    /\ same_content post post'
    /\ liked res = negb (includes (Post.likes post) u)
    /\ likesCount res = length (toggle_like u (Post.likes post)).
Proof.
  intros Hp. unfold likePost. rewrite Hp.
  eexists _, _. split; [reflexivity|]. by repeat split.
Qed.

(** ** Deleting *)

Lemma deleteMany_lookup id (coll : gmap positive Comment.t) k :
  Comment_deleteMany_id_or_parent id coll !! k =
  match coll !! k with
  | Some c => if decide (k = id \/ Comment.parent c = Some id) then None else Some c
  | None => None
  end.
Proof.
  unfold Comment_deleteMany_id_or_parent.
  destruct (coll !! k) as [c|] eqn:Hk.
  - destruct (decide _) as [Hd|Hd].
    + apply map_lookup_filter_None. right. intros c' Hc'.
      rewrite Hk in Hc'. injection Hc' as <-. cbn. tauto.
    + apply map_lookup_filter_Some. by split.
  - apply map_lookup_filter_None. by left.
Qed.

Lemma deleteComment_by_author id u db c :
  Comments db !! id = Some c -> Comment.user c = u ->
  deleteComment id u db
  = (Ok 200 "Comment removed"%string,
     with_Comments (Comment_deleteMany_id_or_parent id (Comments db)) db).
Proof.
  intros Hc <-. unfold deleteComment. by rewrite Hc, Pos.eqb_refl.
Qed.

Lemma deleteComment_not_author id u db c :
  Comments db !! id = Some c -> Comment.user c <> u ->
  deleteComment id u db = (Fail 401 "Not authorized to delete this comment", db).
Proof.
  intros Hc Hu. unfold deleteComment. rewrite Hc.
  by rewrite (proj2 (Pos.eqb_neq _ _) Hu).
Qed.

Lemma deletePost_not_author id u db p :
  Posts db !! id = Some p -> Post.author p <> u ->
  deletePost id u db = (Fail 401 "Not authorized to delete this post", db).
Proof.
  intros Hp Hu. unfold deletePost. rewrite Hp.
  by rewrite (proj2 (Pos.eqb_neq _ _) Hu).
Qed.

Lemma sample_delete :
  Comments (deleteComment 1 7 sample_db).2
  = <[4%positive := sample_comment 1 7 (Some 2%positive)]>
      (<[5%positive := sample_comment 1 7 None]> ∅)
  /\ size (Comments sample_db) = 5%nat
  /\ size (Comments (deleteComment 1 7 sample_db).2) = 2%nat.
Proof. repeat split; vm_compute; reflexivity. Qed.

(** ** Creating *)

Lemma slug_taken_spec s db :
  slug_taken s db = true <-> exists id p, Posts db !! id = Some p /\ Post.slug p = s.
Proof.
  unfold slug_taken. rewrite existsb_exists. split.
  - intros ([id p] & Hin & E). exists id, p. split.
    + by apply elem_of_map_to_list, list_elem_of_In.
    + by apply bool_decide_eq_true in E.
  - intros (id & p & Hp & E). exists (id, p). split.
    + by apply list_elem_of_In, elem_of_map_to_list.
    + by apply bool_decide_eq_true.
Qed.

Lemma space_not_alnum c : is_space c = true -> is_alnum (lower_ascii c) = false.
Proof.
  unfold is_space, is_alnum, lower_ascii, in_range.
  rewrite !orb_true_iff, !andb_true_iff, !N.leb_le, !N.eqb_eq. intros Hc.
  assert ((65 <=? c)%N && (c <=? 90)%N = false) as ->
    by (apply andb_false_iff; rewrite !N.leb_gt; lia).
  apply orb_false_iff; split; apply andb_false_iff; rewrite !N.leb_gt; lia.
Qed.

Lemma blank_replace s :
  Forall (fun c => is_space c = true) s ->
  replaceNonAlnum true (List.map lower_ascii s) = []
  /\ (replaceNonAlnum false (List.map lower_ascii s) = []
      \/ replaceNonAlnum false (List.map lower_ascii s) = [45%N]).
Proof.
  induction 1 as [|c s Hc Hs [IH _]]; [by split; [|left]|].
  cbn [List.map replaceNonAlnum]. rewrite (space_not_alnum c Hc), IH.
  split; [done | by right].
Qed.

Lemma trimEnd_blank s : trimEnd s = [] -> Forall (fun c => is_space c = true) s.
Proof.
  induction s as [|c s IH]; [constructor|].
  cbn [trimEnd]. destruct (trimEnd s) eqn:E; [|done].
  destruct (is_space c) eqn:Hc; [|done]. intros _. constructor; auto.
Qed.

Lemma trim_blank s : trim s = [] -> trimEnd s = [].
Proof.
  unfold trim. induction s as [|c s IH]; [done|].
  cbn [trimStart]. destruct (is_space c) eqn:Hc; [|done].
  intros H. cbn [trimEnd]. by rewrite (IH H), Hc.
Qed.

(** A title of white space only has the empty slug. *)
Lemma blank_slug {rt : Runtime} title : trim title = [] -> slugify title = [].
Proof.
  intros Hb%trim_blank%trimEnd_blank. unfold slugify.
  rewrite toLowerCase_ascii by (eapply Forall_impl; [exact Hb | by right]).
  by destruct (blank_replace title Hb) as [_ [-> | ->]].
Qed.

Lemma is_empty_false s : is_empty s = false <-> s <> [].
Proof. by destruct s. Qed.

Lemma createPost_duplicate {rt : Runtime} clock user body db title content :
  body_title body = Some title ->
  body_content body = Some content -> content <> [] ->
  slugify title <> [] ->
  slug_taken (slugify title) db = true ->
  createPost clock user body db
  = (Fail 400 "A post with this title already exists", db).
Proof.
  intros Ht Hc Hne Hslug Htaken. unfold createPost, Post_create.
  rewrite Ht, Hc. cbn [bind ret].
  assert (is_empty (trim title) = false) as ->.
  { apply is_empty_false. intros E. by apply Hslug, blank_slug. }
  rewrite (proj2 (is_empty_false _) Hslug), (proj2 (is_empty_false _) Hne).
  cbn [orb]. by rewrite Htaken.
Qed.

Lemma createPost_invalid {rt : Runtime} clock user body db title :
  body_title body = Some title ->
  body_content body = None \/ body_content body = Some []
  \/ slugify title = [] ->
  createPost clock user body db = (ServerError ValidationError, db).
Proof.
  intros Ht H. unfold createPost, Post_create. rewrite Ht. cbn [bind ret].
  destruct (body_content body) as [c|]; [|done].
  destruct H as [H|[H|H]]; [done| |].
  - injection H as ->. cbn [is_empty]. rewrite !orb_true_r. done.
  - rewrite H. cbn [is_empty]. rewrite orb_true_r. done.
Qed.

(** A request that does not answer 201 leaves the store as it was. *)
Lemma createPost_store {rt : Runtime} clock user body db :
  (exists c, (createPost clock user body db).1 = Ok 201 c)
  \/ (createPost clock user body db).2 = db.
Proof.
  unfold createPost. destruct (body_title body) as [title|]; [|by right].
  cbn [bind ret]. destruct (Post_create _ _ _ _ _ _ _ _ _) as [e|[[id p] db']].
  - right. by destruct e.
  - left. eauto.
Qed.

Lemma createPost_created {rt : Runtime} clock user body db c db' :
  createPost clock user body db = (Ok 201 c, db') ->
  exists title p,
    body_title body = Some title
    /\ created_slug c = slugify title
    /\ Post.slug p = slugify title
    /\ Post.likes p = []
    /\ Posts db !! created_id c = None
    /\ slug_taken (slugify title) db = false
    /\ db' = with_Posts (<[created_id c := p]> (Posts db)) db.
Proof.
  unfold createPost, Post_create.
  destruct (body_title body) as [title|]; [|done]. cbn [bind ret].
  destruct (body_content body) as [content|]; [|done].
  destruct (_ || _ || _); [done|].
  destruct (slug_taken _ _) eqn:Htaken; [done|]. cbn [bind ret].
  intros [= <- <-]. eexists title, _. cbn.
  repeat split; try reflexivity.
  - apply not_elem_of_dom, is_fresh.
  - exact Htaken.
Qed.

(** ** The likes invariant *)

Lemma likes_NoDup_insert db id p :
  likes_NoDup db -> NoDup (Post.likes p) ->
  likes_NoDup (with_Posts (<[id := p]> (Posts db)) db).
Proof.
  intros Hdb Hp k q. cbn. rewrite lookup_insert.
  case_decide; [intros [= <-]; done | apply Hdb].
Qed.

Lemma handle_likes_NoDup {rt : Runtime} clock r db :
  likes_NoDup db -> likes_NoDup (handle clock r db).
Proof.
  intros Hdb. destruct r as [id u|u body|u body|lim|id u|id u|pid u body|id u];
    cbn [handle]; try done.
  - destruct (Posts db !! id) as [p|] eqn:Hp.
    + destruct (getPostById_found clock id u db p Hp)
        as (v & p' & -> & _ & _ & Hl & _).
      apply likes_NoDup_insert; [done|]. rewrite Hl. by eapply Hdb.
    + by rewrite getPostById_missing.
  - destruct (createPost_store clock u body db) as [[c Hc]|Hs]; [|by rewrite Hs].
    destruct (createPost clock u body db) as [res db'] eqn:E. cbn in Hc. subst res.
    apply createPost_created in E as (t & p & _ & _ & _ & Hl & _ & _ & ->).
    apply likes_NoDup_insert; [done|]. rewrite Hl. constructor.
  - unfold updateUserProfile. by destruct (Users db !! u).
  - destruct (Posts db !! id) as [p|] eqn:Hp.
    + destruct (likePost_found clock id u db p Hp) as (v & p' & -> & Hl & _).
      apply likes_NoDup_insert; [done|]. rewrite Hl.
      apply toggle_like_NoDup. by eapply Hdb.
    + unfold likePost. by rewrite Hp.
  - unfold deletePost. destruct (Posts db !! id) as [p|]; [|done].
    destruct (negb _); [done|]. intros k q. cbn.
    rewrite lookup_delete_Some. intros [_ Hq]. by eapply Hdb.
  - unfold createComment. destruct (truthy _); [|done].
    destruct (is_empty _); [done|]. by destruct (Posts db !! pid).
  - unfold deleteComment. destruct (Comments db !! id); [|done].
    by destruct (negb _).
Qed.

Lemma run_likes_NoDup {rt : Runtime} rs : forall db, likes_NoDup db -> likes_NoDup (run rs db).
Proof.
  induction rs as [|[clock r] rs IH]; intros db Hdb; [done|].
  cbn [run]. by apply IH, handle_likes_NoDup.
Qed.

(** ** Profiles *)

Lemma truthy_None v :
  truthy v = None <-> v = JUndefined \/ v = JNull \/ v = JStr [].
Proof.
  destruct v as [| |s]; cbn; [tauto|tauto|].
  destruct s as [|c s]; cbn; [tauto|].
  split; [done|]. intros [|[|[= ]]]; done.
Qed.

Lemma truthy_Some v s : truthy v = Some s -> s <> [].
Proof.
  destruct v as [| |s']; cbn; try done.
  destruct s' as [|c s']; cbn; [done|]. by intros [= <-].
Qed.

Lemma sample_authors_exist : authors_exist sample_db.
Proof.
  intros id p Hp _. unfold sample_db in Hp. cbn [Posts] in Hp.
  repeat (rewrite lookup_insert in Hp; case_decide;
          [injection Hp as <-; eexists; vm_compute; reflexivity|]).
  by rewrite lookup_empty in Hp.
Qed.
(** ** The sample stores *)

Lemma sample_likes_NoDup : likes_NoDup sample_db.
Proof.
  intros id p Hp. unfold sample_db in Hp. cbn [Posts] in Hp.
  repeat (rewrite lookup_insert in Hp; case_decide;
          [injection Hp as <-; cbn [sample_post Post.likes];
           apply NoDup_ListNoDup; repeat constructor; cbn; intuition discriminate|]).
  by rewrite lookup_empty in Hp.
Qed.

Lemma trending_authors_exist : authors_exist trending_db.
Proof.
  intros id p Hp _. unfold trending_db in Hp. cbn [Posts] in Hp.
  repeat (rewrite lookup_insert in Hp; case_decide;
          [injection Hp as <-; eexists; vm_compute; reflexivity|]).
  by rewrite lookup_empty in Hp.
Qed.

Lemma trending_dates_valid : dates_valid trending_db.
Proof.
  intros id p Hp _. unfold trending_db in Hp. cbn [Posts] in Hp.
  repeat (rewrite lookup_insert in Hp; case_decide;
          [injection Hp as <-; unfold time_value;
           cbn [sample_post Post.created_at]; lia|]).
  by rewrite lookup_empty in Hp.
Qed.

(* ================================================================== *)
(** * The claims *)
(* ================================================================== *)

(** C1.  For every published post the score that [getTrendingPosts]
    computes is views + 3 x likes - agePenalty, where agePenalty is
    max(0, hoursSincePosted - 24) x 0.1, evaluated like the code
    evaluates it: in binary64 arithmetic, for a creation time and a
    current time that are dates; the hours are the milliseconds between
    the two divided by 3600000.  A post with 10 views and 2 likes scores
    16 when posted now and 13.6 when 48 hours old, whatever the time is
    ([0x1.b333333333333p+3] is the number that the literal 13.6
    denotes). *)
Theorem trendingScore_formula :
  (forall clock db id p,
     Posts db !! id = Some p -> Post.is_published p = true ->
     (forall i, time_value (clock i)) -> time_value (Post.created_at p) ->
     exists i sp,
       postsWithScores clock db !! i = Some sp
       /\ sc_id sp = id /\ sc_post sp = p
       /\ trendingScore sp
          = spec_trendingScore (Post.views p) (length (Post.likes p))
              (hoursSincePosted sp)
       /\ ((Z.abs (clock i - Post.created_at p) <= 2 ^ 53)%Z ->
           hoursSincePosted sp
           = spec_hoursSincePosted (clock i) (Post.created_at p)))
  /\ (forall now author a b title slug,
        time_value now ->
        trendingScore (scorePost now
          (1%positive, sample_post title slug author 10 [a; b] now, None))
        = 16%float)
  /\ (forall now author a b title slug,
        time_value now -> time_value (now + 48 * 3600000) ->
        trendingScore (scorePost (now + 48 * 3600000)
          (1%positive, sample_post title slug author 10 [a; b] now, None))
        = 0x1.b333333333333p+3%float).
Proof.
  split; [|split].
  - intros clock db id p Hp Hpub Hclock Hcreated.
    destruct (published_scored clock db id p Hp Hpub) as [i Hi].
    exists i, (scorePost (clock i) (id, p, Users db !! Post.author p)).
    split; [done|]. split; [done|]. split; [done|]. split.
    + apply scorePost_score. by apply scorePost_hours_not_nan.
    + intros Hd. apply scorePost_hours; auto using time_value_safe.
  - apply sample_score_now.
  - apply sample_score_48h.
Qed.

Lemma trendingScore_formula_witness :
  (exists i sp,
     postsWithScores sample_clock trending_db !! i = Some sp
     /\ sc_id sp = 4%positive
     /\ sc_post sp = sample_post "Old" "old" 7 13 [] (-359999000)
     /\ trendingScore sp = spec_trendingScore 13 0 (hoursSincePosted sp)
     /\ ((Z.abs (sample_clock i - -359999000) <= 2 ^ 53)%Z ->
         hoursSincePosted sp = spec_hoursSincePosted (sample_clock i) (-359999000)))
  /\ trendingScore (scorePost 1700000000000
       (1%positive, sample_post "Hello" "hello" 7 10 [8; 9]%positive 1700000000000,
        None)) = 16%float
  /\ trendingScore (scorePost (1700000000000 + 48 * 3600000)
       (1%positive, sample_post "Hello" "hello" 7 10 [8; 9]%positive 1700000000000,
        None)) = 0x1.b333333333333p+3%float.
Proof.
  split; [|split].
  - apply (proj1 trendingScore_formula sample_clock trending_db 4%positive
             (sample_post "Old" "old" 7 13 [] (-359999000)));
      [vm_compute; reflexivity | reflexivity | intros i | ];
      unfold time_value, sample_clock; cbn [sample_post Post.created_at]; lia.
  - apply (proj1 (proj2 trendingScore_formula)). unfold time_value. lia.
  - apply (proj2 (proj2 trendingScore_formula)); unfold time_value; lia.
Defined.

(** C2, with the limit made precise.  [getTrendingPosts] ranks the
    published posts by descending score, posts of equal score by newer
    creation time first, and keeps the first N of the ranking, where N is
    the requested limit when it parses to a positive integer and 4 when
    no limit is given or the given one parses to 0 or to no number.  The
    scores are compared as the binary64 numbers they are; the ranking is
    in this order when every score is a number (not NaN) and every
    creation time is a date.  The answer lists the kept posts in that
    order, with ranks 1, 2, ..., when the author of every published post
    exists. *)
Theorem getTrendingPosts_ranking :
  trendingLimit None = 4%Z
  /\ (forall s n, parseInt s = Some n -> (0 < n)%Z -> trendingLimit (Some s) = n)
  /\ (forall s, parseInt s = None \/ parseInt s = Some 0%Z ->
        trendingLimit (Some s) = 4%Z)
  /\ (forall clock limit db,
        scores_are_numbers (postsWithScores clock db) -> dates_valid db ->
        (0 <= trendingLimit limit)%Z ->
        exists ranked,
          Permutation ranked (postsWithScores clock db)
          /\ (forall id p,
                (exists sp, In sp ranked /\ sc_id sp = id /\ sc_post sp = p)
                <-> Posts db !! id = Some p /\ Post.is_published p = true)
          /\ StronglySorted trending_before ranked
          /\ sortedPosts clock (trendingLimit limit) db
             = take (Z.to_nat (trendingLimit limit)) ranked
          /\ (authors_exist db ->
              exists items,
                getTrendingPosts clock limit db = Ok 200 items
                /\ Forall2 shows (take (Z.to_nat (trendingLimit limit)) ranked)
                             items
                /\ List.map ti_rank items = seq 1 (length items))).
Proof.
  split; [exact trendingLimit_absent|].
  split; [exact trendingLimit_positive|].
  split; [exact trendingLimit_falsy|].
  intros clock limit db Hnum Hdates Hlim.
  destruct (getTrendingPosts_ranked clock limit db Hnum Hdates Hlim)
    as (ranked & Hperm & Hsorted & Hkept & Hres).
  exists ranked. split; [done|]. split; [|done].
  intros id p. split.
  - intros (sp & Hin & <- & <-).
    apply (Permutation_in _ Hperm), postsWithScores_elem in Hin. tauto.
  - intros [Hp Hpub].
    destruct (published_scored clock db id p Hp Hpub) as [i Hi].
    exists (scorePost (clock i) (id, p, Users db !! Post.author p)).
    split; [|done].
    apply (Permutation_in _ (Permutation_sym Hperm)), list_elem_of_In.
    by eapply list_elem_of_lookup_2.
Qed.

(** On the store with five posts, which score 5, 43, 12, 5.3999999999999995
    and 12, the limit 3 keeps the post that scores 43 and then the two
    that score 12, the newer one first. *)
Lemma getTrendingPosts_ranking_witness :
  trendingLimit (Some (str "3")) = 3%Z
  /\ trendingLimit (Some (str "many")) = 4%Z
  /\ exists ranked items,
       Permutation ranked (postsWithScores sample_clock trending_db)
       /\ StronglySorted trending_before ranked
       /\ getTrendingPosts sample_clock (Some (str "3")) trending_db = Ok 200 items
       /\ Forall2 shows (take (Z.to_nat (trendingLimit (Some (str "3")))) ranked)
                    items
       /\ List.map ti_id items = [2; 5; 3]%positive
       /\ List.map ti_trendingScore items = [43; 12; 12]%float
       /\ List.map ti_createdAt items = [200; 400; 300]%Z
       /\ List.map ti_rank items = [1; 2; 3]%nat.
Proof.
  split; [|split].
  - apply (proj1 (proj2 getTrendingPosts_ranking) (str "3") 3%Z);
      [reflexivity | lia].
  - apply (proj1 (proj2 (proj2 getTrendingPosts_ranking)) (str "many")).
    left. reflexivity.
  - destruct (proj2 (proj2 (proj2 getTrendingPosts_ranking))
                sample_clock (Some (str "3")) trending_db)
      as (ranked & Hperm & _ & Hsorted & _ & Hres).
    + unfold scores_are_numbers. vm_compute. repeat constructor.
    + exact trending_dates_valid.
    + vm_compute. discriminate.
    + destruct (Hres trending_authors_exist) as (items & Hok & Hshow & _).
      exists ranked, items. split; [done|]. split; [done|].
      split; [done|]. split; [done|].
      vm_compute in Hok. injection Hok as <-. by repeat split.
Defined.

(** C2, as stated, fails for the limit 0: three posts are published, the
    request asks for the first 0, and the answer lists all three. *)
Lemma trending_limit_zero :
  parseInt (str "0") = Some 0%Z
  /\ size (Posts sample_db) = 3%nat
  /\ exists items,
       getTrendingPosts sample_clock (Some (str "0")) sample_db
       = Ok 200 items
       /\ length items = 3%nat
       /\ length items <> length (take (Z.to_nat 0) items).
Proof.
  split; [reflexivity|]. split; [reflexivity|].
  eexists. split; [vm_compute; reflexivity|]. split; [reflexivity|].
  vm_compute. discriminate.
Qed.

(** C3, with the range made precise.  A read of an existing post
    through [getPostById] adds 1 to its stored view counter in binary64
    arithmetic, and N reads, whoever reads and whenever, add 1 N times.
    As long as the counter is a whole number that stays within [2^53],
    this is exact: after N reads the counter is its initial value plus
    N. *)
Theorem getPostById_counts_views {rt : Runtime} :
  (forall clock id user db post,
     Posts db !! id = Some post ->
     exists view db' post',
       getPostById clock id user db = (Ok 200 view, db')
       /\ Posts db' !! id = Some post'
       /\ Post.views post' = (Post.views post + 1)%float
       /\ pv_views view = (Post.views post + 1)%float)
  /\ (forall id (reads : list (Clock * option positive)) db post,
        Posts db !! id = Some post ->
        exists post',
          Posts (run (List.map (fun cu => (cu.1, GetPostById id cu.2)) reads) db)
            !! id = Some post'
          /\ Post.views post'
             = Nat.iter (length reads) (fun v => (v + 1)%float) (Post.views post)
          /\ forall n : Z,
               Post.views post = float_of_Z n ->
               (- 2 ^ 53 < n)%Z -> (n + Z.of_nat (length reads) <= 2 ^ 53)%Z ->
               Post.views post' = float_of_Z (n + Z.of_nat (length reads))).
Proof.
  split.
  - intros clock id user db post Hp.
    destruct (getPostById_found clock id user db post Hp)
      as (view & post' & Hget & Hv & Hv' & _).
    exists view, (with_Posts (<[id:=post']> (Posts db)) db), post'.
    repeat split; try done. apply lookup_insert_eq.
  - intros id reads db post Hp.
    destruct (reads_views id reads db post Hp) as (post' & Hp' & Hv).
    exists post'. split; [done|]. split; [done|].
    intros n Hn Hl Hu. rewrite Hv, Hn. by apply iter_add_1.
Qed.

Lemma getPostById_counts_views_witness :
  (exists view db' post',
     getPostById sample_clock 1 None sample_db = (Ok 200 view, db')
     /\ Posts db' !! 1%positive = Some post'
     /\ Post.views post' = (10 + 1)%float
     /\ pv_views view = (10 + 1)%float)
  /\ exists post',
       Posts (run (List.map (fun cu => (cu.1, GetPostById 1 cu.2))
                     [(sample_clock, None); (sample_clock, Some 8%positive);
                      (sample_clock, None)]) sample_db) !! 1%positive
       = Some post'
       /\ Post.views post' = float_of_Z (10 + 3).
Proof.
  split.
  - apply (proj1 getPostById_counts_views sample_clock 1%positive None
             sample_db (sample_post "Hello" "hello" 7 10 [8; 9]%positive 100)).
    vm_compute. reflexivity.
  - destruct (proj2 getPostById_counts_views 1%positive
                [(sample_clock, None); (sample_clock, Some 8%positive);
                 (sample_clock, None)] sample_db
                (sample_post "Hello" "hello" 7 10 [8; 9]%positive 100))
      as (post' & Hp & _ & Hv); [vm_compute; reflexivity|].
    exists post'. split; [exact Hp|].
    apply (Hv 10%Z); [vm_compute; reflexivity | lia | cbn; lia].
Defined.

(** C3, as stated, fails at [2^53]: the read is answered, and the stored
    counter is [2^53] as before, not [2^53 + 1]. *)
Lemma getPostById_at_2_53 :
  exists post view db' post',
    Posts worn_db !! 1%positive = Some post
    /\ getPostById sample_clock 1 None worn_db = (Ok 200 view, db')
    /\ Posts db' !! 1%positive = Some post'
    /\ exact (Post.views post) = Some (inject_Z (2 ^ 53))
    /\ exact (Post.views post') = Some (inject_Z (2 ^ 53))
    /\ ~ (inject_Z (2 ^ 53) == inject_Z (2 ^ 53) + 1)%Q.
Proof.
  eexists _, _, _, _. split; [vm_compute; reflexivity|].
  split; [vm_compute; reflexivity|]. split; [vm_compute; reflexivity|].
  split; [vm_compute; reflexivity|]. split; [vm_compute; reflexivity|].
  intros E. vm_compute in E. discriminate.
Qed.

(** C4. For an existing post, one [likePost] flips the membership of the
    requester in the likes and leaves that of everybody else; a second
    [likePost] by the same user brings back the original set of likes
    (and the very same array when the user was not in it at first). *)
Theorem likePost_toggles :
  forall clock1 clock2 id u db post,
    Posts db !! id = Some post ->
    exists r1 db1 post1 r2 db2 post2,
      likePost clock1 id u db = (Ok 200 r1, db1)
      /\ Posts db1 !! id = Some post1
      /\ (In u (Post.likes post1) <-> ~ In u (Post.likes post))
      /\ (forall v, v <> u -> In v (Post.likes post1) <-> In v (Post.likes post))
      /\ liked r1 = negb (includes (Post.likes post) u)
      /\ likePost clock2 id u db1 = (Ok 200 r2, db2)
      /\ Posts db2 !! id = Some post2
      /\ (forall v, In v (Post.likes post2) <-> In v (Post.likes post))
      /\ (~ In u (Post.likes post) -> Post.likes post2 = Post.likes post)
      /\ liked r2 = includes (Post.likes post) u.
Proof.
  intros clock1 clock2 id u db post Hp.
  destruct (likePost_found clock1 id u db post Hp)
    as (r1 & post1 & H1 & Hl1 & _ & _ & Hr1 & _).
  set (db1 := with_Posts (<[id:=post1]> (Posts db)) db) in *.
  assert (Posts db1 !! id = Some post1) as Hp1 by apply lookup_insert_eq.
  destruct (likePost_found clock2 id u db1 post1 Hp1)
    as (r2 & post2 & H2 & Hl2 & _ & _ & Hr2 & _).
  exists r1, db1, post1, r2, (with_Posts (<[id:=post2]> (Posts db1)) db1), post2.
  split; [done|]. split; [done|].
  split; [rewrite Hl1; apply toggle_like_flips|].
  split; [intros v Hv; rewrite Hl1; by apply toggle_like_others|].
  split; [done|]. split; [exact H2|].
  split; [apply lookup_insert_eq|].
  split; [intros v; rewrite Hl2, Hl1; apply toggle_like_twice|].
  split; [intros Hu; rewrite Hl2, Hl1; by apply toggle_like_twice_absent|].
  rewrite Hr2, Hl1. destruct (includes (Post.likes post) u) eqn:E.
  - apply negb_true_iff, not_true_iff_false.
    rewrite includes_In, toggle_like_flips. apply includes_In in E. tauto.
  - apply negb_false_iff, includes_In, toggle_like_flips.
    rewrite <- includes_In. congruence.
Qed.

Lemma likePost_toggles_witness :
  exists r1 db1 post1 r2 db2 post2,
    likePost sample_clock 1 8 sample_db = (Ok 200 r1, db1)
    /\ Posts db1 !! 1%positive = Some post1
    /\ (In 8%positive (Post.likes post1) <-> ~ In 8%positive [8; 9]%positive)
    /\ (forall v, v <> 8%positive ->
          In v (Post.likes post1) <-> In v [8; 9]%positive)
    /\ liked r1 = negb (includes [8; 9]%positive 8)
    /\ likePost sample_clock 1 8 db1 = (Ok 200 r2, db2)
    /\ Posts db2 !! 1%positive = Some post2
    /\ (forall v, In v (Post.likes post2) <-> In v [8; 9]%positive)
    /\ (~ In 8%positive [8; 9]%positive -> Post.likes post2 = [8; 9]%positive)
    /\ liked r2 = includes [8; 9]%positive 8.
Proof.
  apply (likePost_toggles sample_clock sample_clock 1%positive 8%positive
           sample_db (sample_post "Hello" "hello" 7 10 [8; 9]%positive 100)).
  vm_compute. reflexivity.
Defined.

(** C5. When its author deletes a comment, [deleteComment] removes the
    comment and the comments whose parent it is, and nothing else: every
    other comment, every post and every user stays.  On the sample store
    the comment 1 with the replies 2 and 3 goes, three documents in all,
    and the reply 4 to the reply 2 stays. *)
Theorem deleteComment_cascade :
  (forall id u db c,
     Comments db !! id = Some c -> Comment.user c = u ->
     exists db',
       deleteComment id u db = (Ok 200 "Comment removed"%string, db')
       /\ Posts db' = Posts db /\ Users db' = Users db
       /\ forall k,
            Comments db' !! k =
            match Comments db !! k with
            | Some ck =>
                if decide (k = id \/ Comment.parent ck = Some id)
                then None else Some ck
            | None => None
            end)
  /\ Comments (deleteComment 1 7 sample_db).2
     = <[4%positive := sample_comment 1 7 (Some 2%positive)]>
         (<[5%positive := sample_comment 1 7 None]> ∅)
  /\ size (Comments sample_db) = 5%nat
  /\ size (Comments (deleteComment 1 7 sample_db).2) = 2%nat.
Proof.
  split; [|exact sample_delete].
  intros id u db c Hc Hu. eexists. split; [by eapply deleteComment_by_author|].
  split; [done|]. split; [done|]. intros k. apply deleteMany_lookup.
Qed.

Lemma deleteComment_cascade_witness :
  exists db',
    deleteComment 1 7 sample_db = (Ok 200 "Comment removed"%string, db')
    /\ Posts db' = Posts sample_db /\ Users db' = Users sample_db
    /\ forall k,
         Comments db' !! k =
         match Comments sample_db !! k with
         | Some ck =>
             if decide (k = 1%positive \/ Comment.parent ck = Some 1%positive)
             then None else Some ck
         | None => None
         end.
Proof.
  apply (proj1 deleteComment_cascade 1%positive 7%positive sample_db
           (sample_comment 1 7 None)); vm_compute; reflexivity.
Defined.

(** C6. The slug that [createPost] derives is the lower-cased title with
    every maximal run of code units outside a-z and 0-9 replaced by one
    hyphen and the leading and trailing hyphens trimmed ([runs] being the
    maximal runs), whatever the title is and however the runtime
    lower-cases it; a created post is stored and answered with that
    slug; the slug of "Hello, World!" is "hello-world". *)
Theorem createPost_slug {rt : Runtime} :
  (forall title, slugify title = spec_slug title)
  /\ (forall s, join_runs (runs s) = s /\ alternating (runs s)
                /\ Forall uniform_run (runs s))
  /\ (forall clock user body db c db',
        createPost clock user body db = (Ok 201 c, db') ->
        exists title p,
          body_title body = Some title
          /\ created_slug c = spec_slug title
          /\ Posts db' !! created_id c = Some p
          /\ Post.slug p = spec_slug title)
  /\ slugify (str "Hello, World!") = str "hello-world".
Proof.
  split; [exact slugify_spec|]. split; [exact runs_maximal|].
  split.
  - intros clock user body db c db' Hc.
    apply createPost_created in Hc
      as (title & p & Ht & Hs & Hp & _ & _ & _ & ->).
    exists title, p. rewrite <- slugify_spec.
    repeat split; try done. apply lookup_insert_eq.
  - unfold slugify. rewrite toLowerCase_ascii; [reflexivity|].
    repeat constructor; left; reflexivity.
Qed.

(** On the sample store; and, in a runtime that lower-cases the Kelvin
    sign to k and U+0130 to i and U+0307, the slug of "300K Istanbul"
    written with these two is "300k-i-stanbul". *)
Lemma createPost_slug_witness :
  (exists title p,
     body_title (hello_body "Hello, World!" (Some "text"%string)) = Some title
     /\ created_slug hello_created = spec_slug title
     /\ Posts hello_db !! created_id hello_created = Some p
     /\ Post.slug p = spec_slug title)
  /\ @slugify unicode_runtime kelvin_title
     = @spec_slug unicode_runtime kelvin_title
  /\ @spec_slug unicode_runtime kelvin_title = str "300k-i-stanbul".
Proof.
  split; [|split].
  - apply (proj1 (proj2 (proj2 createPost_slug)) sample_clock 7%positive
             (hello_body "Hello, World!" (Some "text"%string))
             sample_db hello_created hello_db).
    vm_compute. reflexivity.
  - apply (proj1 (@createPost_slug unicode_runtime)).
  - rewrite <- (proj1 (@createPost_slug unicode_runtime)).
    vm_compute. reflexivity.
Defined.

(** C7 (amended). When [createPost] is called with a title whose derived
    slug is the slug of a stored post, no post is created.  If the slug
    is not empty and the body has non-empty content, the answer is the
    duplicate-slug conflict (400, "A post with this title already
    exists"); if the content is missing or empty, or the slug is empty,
    schema validation fails first and the answer is a server error. *)
Theorem createPost_duplicate_slug {rt : Runtime} :
  forall clock user body db title id p,
    body_title body = Some title ->
    Posts db !! id = Some p -> Post.slug p = slugify title ->
    (createPost clock user body db).2 = db
    /\ ((exists content,
           body_content body = Some content /\ content <> []) ->
        slugify title <> [] ->
        (createPost clock user body db).1
        = Fail 400 "A post with this title already exists")
    /\ (body_content body = None \/ body_content body = Some []
        \/ slugify title = [] ->
        (createPost clock user body db).1 = ServerError ValidationError).
Proof.
  intros clock user body db title id p Ht Hp Hs.
  assert (slug_taken (slugify title) db = true) as Htaken
    by (apply slug_taken_spec; eauto).
  split; [|split].
  - destruct (createPost_store clock user body db) as [[c Hc]|]; [|done].
    destruct (createPost clock user body db) as [res db'] eqn:E.
    cbn in Hc. subst res.
    apply createPost_created in E as (t & _ & Ht' & _ & _ & _ & _ & Hfree & _).
    congruence.
  - intros (content & Hc & Hne) Hslug.
    by rewrite (createPost_duplicate clock user body db title content).
  - intros H. by rewrite (createPost_invalid clock user body db title).
Qed.

Lemma createPost_duplicate_slug_witness :
  ((createPost sample_clock 7
      (hello_body "Hello!" (Some "text"%string)) sample_db).2 = sample_db
   /\ (createPost sample_clock 7
         (hello_body "Hello!" (Some "text"%string)) sample_db).1
      = Fail 400 "A post with this title already exists")
  /\ (createPost sample_clock 7 (hello_body "Hello!" None) sample_db).1
     = ServerError ValidationError.
Proof.
  split.
  - destruct (createPost_duplicate_slug sample_clock 7%positive
                (hello_body "Hello!" (Some "text"%string))
                sample_db (str "Hello!") 1%positive
                (sample_post "Hello" "hello" 7 10 [8; 9]%positive 100))
      as (Hdb & Hdup & _); [reflexivity | reflexivity | vm_compute; reflexivity|].
    split; [exact Hdb|]. apply Hdup.
    + exists (str "text"). split; [reflexivity | discriminate].
    + vm_compute. discriminate.
  - destruct (createPost_duplicate_slug sample_clock 7%positive
                (hello_body "Hello!" None)
                sample_db (str "Hello!") 1%positive
                (sample_post "Hello" "hello" 7 10 [8; 9]%positive 100))
      as (_ & _ & Hinvalid); [reflexivity | reflexivity | vm_compute; reflexivity|].
    apply Hinvalid. left. reflexivity.
Defined.

(** C7, as stated, fails when the body has no content: the slug of
    "Hello!" is that of a stored post, and the answer is the server
    error of a failed validation, not the conflict. *)
Lemma createPost_duplicate_without_content :
  slug_taken (slugify (str "Hello!")) sample_db = true
  /\ createPost sample_clock 7 (hello_body "Hello!" None) sample_db
     = (ServerError ValidationError, sample_db)
  /\ ServerError ValidationError
     <> (Fail 400 "A post with this title already exists" : Response Created).
Proof. split; [|split]; [vm_compute; reflexivity | reflexivity | discriminate]. Qed.

(** C8. A [deletePost] or [deleteComment] by a requester who is not the
    author of the document answers 401 and leaves the store as it was. *)
Theorem delete_requires_author :
  (forall id u db p,
     Posts db !! id = Some p -> Post.author p <> u ->
     deletePost id u db
     = (Fail 401 "Not authorized to delete this post", db))
  /\ (forall id u db c,
        Comments db !! id = Some c -> Comment.user c <> u ->
        deleteComment id u db
        = (Fail 401 "Not authorized to delete this comment", db)).
Proof. split; [exact deletePost_not_author | exact deleteComment_not_author]. Qed.

Lemma delete_requires_author_witness :
  deletePost 1 8 sample_db
  = (Fail 401 "Not authorized to delete this post", sample_db)
  /\ deleteComment 1 8 sample_db
     = (Fail 401 "Not authorized to delete this comment", sample_db).
Proof.
  split.
  - apply (proj1 delete_requires_author 1%positive 8%positive sample_db
             (sample_post "Hello" "hello" 7 10 [8; 9]%positive 100));
      [vm_compute; reflexivity | discriminate].
  - apply (proj2 delete_requires_author 1%positive 8%positive sample_db
             (sample_comment 1 7 None));
      [vm_compute; reflexivity | discriminate].
Defined.

(** C9. That no post lists a user twice among its likes is an invariant:
    it holds of a store without posts, every request preserves it, and so
    does every run of requests; [likePost] takes a user who is present
    out of the likes and never adds them a second time. *)
Theorem likes_without_duplicates {rt : Runtime} :
  (forall db, Posts db = ∅ -> likes_NoDup db)
  /\ (forall clock r db, likes_NoDup db -> likes_NoDup (handle clock r db))
  /\ (forall rs db, likes_NoDup db -> likes_NoDup (run rs db))
  /\ (forall u l, NoDup l -> NoDup (toggle_like u l))
  /\ (forall u l, In u l -> ~ In u (toggle_like u l)).
Proof.
  split; [|split; [|split; [|split]]].
  - intros db E id p. by rewrite E, lookup_empty.
  - exact handle_likes_NoDup.
  - exact run_likes_NoDup.
  - exact toggle_like_NoDup.
  - intros u l Hu Hin. by apply toggle_like_flips in Hin.
Qed.

(** On the sample store, where the post 1 is liked by the users 8 and 9:
    after likes and unlikes by old and new users, and after a single
    like, no post lists a user twice. *)
Lemma likes_without_duplicates_witness :
  likes_NoDup {| Posts := ∅; Comments := ∅; Users := ∅ |}
  /\ likes_NoDup
       (run [(sample_clock, LikePost 1 8); (sample_clock, LikePost 1 7);
             (sample_clock, LikePost 1 8); (sample_clock, LikePost 2 8);
             (sample_clock, LikePost 1 7); (sample_clock, LikePost 1 9)]
          sample_db)
  /\ likes_NoDup (handle sample_clock (LikePost 1 7) sample_db)
  /\ Posts (handle sample_clock (LikePost 1 7) sample_db) !! 1%positive
     = Some (Post.with_updated_at 1000
               (sample_post "Hello" "hello" 7 10 [8; 9; 7]%positive 100))
  /\ NoDup (toggle_like 7 [8; 9]%positive)
  /\ NoDup (toggle_like 9 [8; 9]%positive)
  /\ ~ In 8%positive (toggle_like 8 [8; 9]%positive).
Proof.
  assert (NoDup [8; 9]%positive) as H89.
  { apply NoDup_cons. split; [|apply NoDup_singleton].
    intros H%list_elem_of_In. by destruct H as [H|[]]. }
  split; [|split; [|split; [|split; [|split; [|split]]]]].
  - apply (proj1 likes_without_duplicates). reflexivity.
  - apply (proj1 (proj2 (proj2 likes_without_duplicates))), sample_likes_NoDup.
  - apply (proj1 (proj2 likes_without_duplicates)), sample_likes_NoDup.
  - vm_compute. reflexivity.
  - apply (proj1 (proj2 (proj2 (proj2 likes_without_duplicates)))), H89.
  - apply (proj1 (proj2 (proj2 (proj2 likes_without_duplicates)))), H89.
  - apply (proj2 (proj2 (proj2 (proj2 likes_without_duplicates)))).
    left. reflexivity.
Defined.

(** C10. [updateUserProfile] treats a name, bio or avatar that is an
    empty string, [null] or otherwise falsy like an absent one (the
    outcome depends on what [||] and [if] see of each field only) and
    keeps the stored value, so it cannot turn a name or a bio into the
    empty string; it never changes the email or the role, and it touches
    no other document. *)
Theorem updateUserProfile_frame :
  (forall v, falsy v <-> truthy v = truthy JUndefined)
  /\ (forall uid b b' db,
        truthy (body_name b) = truthy (body_name b') ->
        truthy (body_bio b) = truthy (body_bio b') ->
        truthy (body_avatar b) = truthy (body_avatar b') ->
        updateUserProfile uid b db = updateUserProfile uid b' db)
  /\ (forall uid body db user,
        Users db !! uid = Some user ->
        exists view user',
          updateUserProfile uid body db
          = (Ok 200 view, with_Users (<[uid := user']> (Users db)) db)
          /\ (falsy (body_name body) -> User.name user' = User.name user)
          /\ (falsy (body_bio body) -> User.bio user' = User.bio user)
          /\ (falsy (body_avatar body) ->
              User.avatar_url user' = User.avatar_url user)
          /\ (User.name user' = [] -> User.name user = [])
          /\ (User.bio user' = Some [] ->
              User.bio user = Some [])
          /\ User.email user' = User.email user
          /\ User.role user' = User.role user
          /\ prof_email view = User.email user
          /\ prof_role view = User.role user).
Proof.
  split; [|split].
  - intros v. symmetry. apply truthy_None.
  - intros uid b b' db Hn Hb Ha. unfold updateUserProfile.
    by rewrite Hn, Hb, Ha.
  - intros uid body db user Hu. unfold updateUserProfile. rewrite Hu.
    eexists _, _. split; [reflexivity|]. cbn.
    split; [intros H%truthy_None; by rewrite H|].
    split; [intros H%truthy_None; by rewrite H|].
    split; [intros H%truthy_None; by rewrite H|].
    split; [|split; [|done]].
    + destruct (truthy (body_name body)) eqn:E; [|done].
      intros ->. by apply truthy_Some in E.
    + destruct (truthy (body_bio body)) eqn:E; [|done].
      intros [= ->]. by apply truthy_Some in E.
Qed.

Lemma updateUserProfile_frame_witness :
  (exists view user',
     updateUserProfile 7
       {| body_name := JStr []; body_bio := JNull;
          body_avatar := JStr (str "a.png") |} sample_db
     = (Ok 200 view,
        with_Users (<[7%positive := user']> (Users sample_db)) sample_db)
     /\ User.name user' = str "Ada"
     /\ User.bio user' = Some (str "Writes.")
     /\ User.email user' = str "ada@example.org"
     /\ User.role user' = str "user")
  /\ (exists view user',
        updateUserProfile 9
          {| body_name := JUndefined; body_bio := JStr [];
             body_avatar := JUndefined |} blank_db
        = (Ok 200 view,
           with_Users (<[9%positive := user']> (Users blank_db)) blank_db)
        /\ User.name user' = []
        /\ User.bio user' = Some []
        /\ User.avatar_url user' = None
        /\ User.name blank_user = []
        /\ User.bio blank_user = Some [])
  /\ updateUserProfile 7
       {| body_name := JStr []; body_bio := JNull;
          body_avatar := JStr (str "a.png") |} sample_db
     = updateUserProfile 7
         {| body_name := JUndefined; body_bio := JUndefined;
            body_avatar := JStr (str "a.png") |} sample_db.
Proof.
  split; [|split];
    [| | apply (proj1 (proj2 updateUserProfile_frame)); reflexivity].
  - destruct (proj2 (proj2 updateUserProfile_frame) 7%positive
                {| body_name := JStr []; body_bio := JNull;
                   body_avatar := JStr (str "a.png") |} sample_db sample_user eq_refl)
      as (view & user' & Hres & Hname & Hbio & _ & _ & _ & Hemail & Hrole & _).
    exists view, user'. split; [exact Hres|].
    split; [apply Hname; right; right; reflexivity|].
    split; [apply Hbio; right; left; reflexivity|].
    split; [exact Hemail | exact Hrole].
  - destruct (proj2 (proj2 updateUserProfile_frame) 9%positive
                {| body_name := JUndefined; body_bio := JStr [];
                   body_avatar := JUndefined |} blank_db blank_user eq_refl)
      as (view & user' & Hres & Hname & Hbio & Havatar & Hn & Hb & _).
    exists view, user'. split; [exact Hres|].
    assert (User.name user' = []) as En
      by (apply Hname; left; reflexivity).
    assert (User.bio user' = Some []) as Eb
      by (apply Hbio; right; right; reflexivity).
    split; [exact En|]. split; [exact Eb|].
    split; [apply Havatar; left; reflexivity|].
    split; [exact (Hn En) | exact (Hb Eb)].
Defined.

(* ================================================================== *)
(** * Further properties of the handlers *)
(* ================================================================== *)

Lemma replaceNonAlnum_chars s b :
  all_chars is_slug_char (replaceNonAlnum b s) = true.
Proof.
  revert b. induction s as [|c s IH]; intros b; [done|].
  cbn [replaceNonAlnum]. destruct (is_alnum c) eqn:Hc.
  - cbn [all_chars]. unfold is_slug_char at 1. by rewrite Hc, IH.
  - destruct b; [apply IH|]. cbn [all_chars]. by rewrite IH.
Qed.

Lemma dropTrailingHyphen_chars p s :
  all_chars p s = true -> all_chars p (dropTrailingHyphen s) = true.
Proof.
  induction s as [|c s IH]; [done|]. intros [Hc Hs]%andb_true_iff.
  destruct s as [|d s].
  { cbn [dropTrailingHyphen]. destruct (is_hyphen c); [done|].
    cbn [all_chars]. by rewrite Hc. }
  change (dropTrailingHyphen (c :: d :: s))
    with (c :: dropTrailingHyphen (d :: s)).
  cbn [all_chars]. by rewrite Hc, IH.
Qed.

Lemma dropTrailingHyphen_no_double s :
  no_double_hyphen s -> no_double_hyphen (dropTrailingHyphen s).
Proof.
  induction s as [|c s IH]; [done|]. intros Hs.
  destruct s as [|d s];
    [cbn [dropTrailingHyphen]; by destruct (is_hyphen c)|].
  change (dropTrailingHyphen (c :: d :: s))
    with (c :: dropTrailingHyphen (d :: s)).
  specialize (IH (no_double_hyphen_tail _ _ Hs)).
  destruct Hs as [Hcd _].
  destruct s as [|e s].
  - cbn [dropTrailingHyphen]. destruct (is_hyphen d) eqn:Hd; [done|].
    split; [|done]. by rewrite Hd, andb_false_r.
  - change (dropTrailingHyphen (d :: e :: s))
      with (d :: dropTrailingHyphen (e :: s)) in *.
    by split.
Qed.

Lemma dropTrailingHyphen_start s :
  starts_with_hyphen s = false ->
  starts_with_hyphen (dropTrailingHyphen s) = false.
Proof.
  destruct s as [|c [|d s]]; [done| |done].
  cbn [starts_with_hyphen dropTrailingHyphen]. intros H. by rewrite H.
Qed.

Lemma spec_trimTrailing_end s : ends_with_hyphen (spec_trimTrailing s) = false.
Proof.
  induction s as [|c s IH]; [done|]. cbn [spec_trimTrailing].
  destruct (spec_trimTrailing s) as [|d r] eqn:E.
  - destruct (is_hyphen c) eqn:Hc; [done|]. cbn [ends_with_hyphen]. exact Hc.
  - exact IH.
Qed.

Lemma slugify_url_safe {rt : Runtime} title : url_safe (slugify title).
Proof.
  unfold slugify, stripEdgeHyphens.
  set (t := replaceNonAlnum false (toLowerCase title)).
  assert (no_double_hyphen t) as Hnd by apply replaceNonAlnum_hyphens.
  assert (all_chars is_slug_char t = true) as Hch by apply replaceNonAlnum_chars.
  assert (no_double_hyphen (dropLeadingHyphen t)
          /\ all_chars is_slug_char (dropLeadingHyphen t) = true
          /\ starts_with_hyphen (dropLeadingHyphen t) = false)
    as (Hnd' & Hch' & Hst').
  { destruct t as [|c t]; [done|]. cbn [dropLeadingHyphen].
    destruct (is_hyphen c) eqn:Hc.
    - split; [by eapply no_double_hyphen_tail|]. split.
      + cbn [all_chars] in Hch. by apply andb_true_iff in Hch as [_ ?].
      + destruct t as [|d t]; [done|]. destruct Hnd as [Hd _].
        rewrite Hc in Hd. exact Hd.
    - by repeat split. }
  repeat split.
  - by apply dropTrailingHyphen_chars.
  - by apply dropTrailingHyphen_no_double.
  - by apply dropTrailingHyphen_start.
  - rewrite dropTrailingHyphen_spec by done. apply spec_trimTrailing_end.
Qed.

Lemma slug_char_lower c :
  is_slug_char c = true -> lower_ascii c = c /\ (c < 128)%N.
Proof.
  unfold is_slug_char, is_alnum, is_hyphen, lower_ascii, in_range.
  rewrite !orb_true_iff, !andb_true_iff, !N.leb_le, N.eqb_eq. intros Hc.
  assert ((65 <=? c)%N && (c <=? 90)%N = false) as ->
    by (apply andb_false_iff; rewrite !N.leb_gt; lia).
  split; [done | lia].
Qed.

Lemma toLowerCase_slug {rt : Runtime} s :
  all_chars is_slug_char s = true -> toLowerCase s = s.
Proof.
  intros Hs.
  assert (Forall (fun c => lower_ascii c = c /\ (c < 128)%N) s) as Hall.
  { induction s as [|c s IH]; [constructor|].
    cbn [all_chars] in Hs. apply andb_true_iff in Hs as [Hc Hs].
    constructor; [by apply slug_char_lower | by apply IH]. }
  rewrite toLowerCase_ascii
    by (eapply Forall_impl; [exact Hall | intros c [_ Hc]; by left]).
  clear Hs. induction Hall as [|c s [Hc _] _ IH]; [done|].
  cbn [List.map]. by rewrite Hc, IH.
Qed.

Lemma slug_char_cases c :
  is_slug_char c = true -> is_alnum c = false -> is_hyphen c = true.
Proof. unfold is_slug_char. intros H Ha. by rewrite Ha in H. Qed.

Lemma replaceNonAlnum_slug s :
  all_chars is_slug_char s = true -> no_double_hyphen s ->
  replaceNonAlnum false s = s
  /\ (starts_with_hyphen s = false -> replaceNonAlnum true s = s).
Proof.
  induction s as [|c s IH]; [done|]. intros [Hc Hs]%andb_true_iff Hnd.
  destruct (IH Hs (no_double_hyphen_tail _ _ Hnd)) as [IHf IHt].
  cbn [replaceNonAlnum starts_with_hyphen]. destruct (is_alnum c) eqn:Ha.
  - rewrite IHf. by split.
  - pose proof (slug_char_cases c Hc Ha) as Hh.
    assert (starts_with_hyphen s = false) as Hstart.
    { destruct s as [|d s]; [done|]. destruct Hnd as [Hd _].
      rewrite Hh in Hd. exact Hd. }
    rewrite (IHt Hstart). split; [|by rewrite Hh].
    f_equal. unfold is_hyphen in Hh. by apply N.eqb_eq in Hh.
Qed.

Lemma dropTrailingHyphen_id s :
  ends_with_hyphen s = false -> dropTrailingHyphen s = s.
Proof.
  induction s as [|c s IH]; [done|]. destruct s as [|d s].
  - cbn [ends_with_hyphen dropTrailingHyphen]. by intros ->.
  - intros H.
    change (dropTrailingHyphen (c :: d :: s))
      with (c :: dropTrailingHyphen (d :: s)).
    by rewrite IH.
Qed.

Lemma slugify_fixed {rt : Runtime} s : url_safe s -> slugify s = s.
Proof.
  intros (Hch & Hnd & Hst & Hend). unfold slugify, stripEdgeHyphens.
  rewrite toLowerCase_slug by done.
  rewrite (proj1 (replaceNonAlnum_slug s Hch Hnd)).
  assert (dropLeadingHyphen s = s) as ->.
  { destruct s as [|c s]; [done|].
    cbn [starts_with_hyphen dropLeadingHyphen] in Hst |- *. by rewrite Hst. }
  by apply dropTrailingHyphen_id.
Qed.

Lemma slugify_idempotent {rt : Runtime} title : slugify (slugify title) = slugify title.
Proof. apply slugify_fixed, slugify_url_safe. Qed.

(** ** Frames of the handlers that write a post *)

Lemma same_content_refl p : same_content p p.
Proof. by repeat split. Qed.

Lemma same_content_trans p q r :
  same_content p q -> same_content q r -> same_content p r.
Proof. unfold same_content. intros H1 H2. intuition congruence. Qed.

Lemma only_post_differs_insert id p db :
  only_post_differs id db (with_Posts (<[id := p]> (Posts db)) db).
Proof.
  split; [done|]. split; [done|]. intros k Hk. cbn. by rewrite lookup_insert_ne.
Qed.

Lemma getPostById_frame_found clock id user db post :
  Posts db !! id = Some post ->
  exists view post',
    getPostById clock id user db
    = (Ok 200 view, with_Posts (<[id := post']> (Posts db)) db)
    /\ same_content post post'
    /\ Post.likes post' = Post.likes post
    /\ Post.views post' = (Post.views post + 1)%float
    /\ Post.updated_at post' = clock 0%nat
    /\ pv_id view = id
    /\ pv_likes view = length (Post.likes post)
    /\ pv_userHasLiked view
       = match user with
         | Some u => includes (Post.likes post) u
         | None => false
         end.
Proof.
  intros Hp. unfold getPostById. rewrite Hp.
  eexists _, _. split; [reflexivity|]. by repeat split.
Qed.

Lemma likePost_missing clock id u db :
  Posts db !! id = None ->
  likePost clock id u db = (Fail 404 "Post not found", db).
Proof. intros Hp. unfold likePost. by rewrite Hp. Qed.

Lemma filter_ne_length u l :
  NoDup l -> In u l ->
  S (length (List.filter (fun id => negb (Pos.eqb id u)) l)) = length l.
Proof.
  induction 1 as [|x l Hx Hl IH]; [done|]. cbn [List.filter length].
  intros [->|Hu].
  - rewrite Pos.eqb_refl. cbn [negb]. f_equal.
    f_equal. apply forallb_filter_id, forallb_forall. intros y Hy.
    apply negb_true_iff, Pos.eqb_neq. intros ->. by apply Hx, list_elem_of_In.
  - destruct (Pos.eqb_spec x u) as [->|Hne].
    + exfalso. by apply Hx, list_elem_of_In.
    + cbn [negb length]. f_equal. by apply IH.
Qed.

Lemma toggle_like_length u l :
  (includes l u = false -> length (toggle_like u l) = S (length l))
  /\ (includes l u = true -> NoDup l -> S (length (toggle_like u l)) = length l).
Proof.
  unfold toggle_like. split; intros E.
  - rewrite E, length_app. cbn. lia.
  - rewrite E. intros Hl. apply filter_ne_length; [done|]. by apply includes_In.
Qed.

Lemma deletePost_missing id u db :
  Posts db !! id = None -> deletePost id u db = (Fail 404 "Post not found", db).
Proof. intros Hp. unfold deletePost. by rewrite Hp. Qed.

Lemma deletePost_by_author id u db p :
  Posts db !! id = Some p -> Post.author p = u ->
  deletePost id u db
  = (Ok 200 "Post removed"%string, with_Posts (delete id (Posts db)) db).
Proof. intros Hp <-. unfold deletePost. by rewrite Hp, Pos.eqb_refl. Qed.

Lemma deleteComment_missing id u db :
  Comments db !! id = None ->
  deleteComment id u db = (Fail 404 "Comment not found", db).
Proof. intros Hc. unfold deleteComment. by rewrite Hc. Qed.

(** ** Creating a post *)

Lemma slug_taken_false s db :
  slug_taken s db = false <->
  forall id p, Posts db !! id = Some p -> Post.slug p <> s.
Proof.
  rewrite <- not_true_iff_false, slug_taken_spec. split.
  - intros Hn id p Hp E. apply Hn. eauto.
  - intros Hn (id & p & Hp & E). by eapply Hn.
Qed.

Lemma createPost_success {rt : Runtime} clock user body db title content :
  body_title body = Some title ->
  body_content body = Some content -> content <> [] ->
  slugify title <> [] ->
  slug_taken (slugify title) db = false ->
  exists c p,
    createPost clock user body db
    = (Ok 201 c, with_Posts (<[created_id c := p]> (Posts db)) db)
    /\ Posts db !! created_id c = None
    /\ created_title c = trim title
    /\ created_slug c = slugify title
    /\ created_createdAt c = clock 0%nat
    /\ Post.title p = trim title /\ Post.slug p = slugify title
    /\ Post.content_html p = content
    /\ Post.author p = user
    /\ Post.status p = Post.published
    /\ Post.views p = 0%float /\ Post.likes p = []
    /\ Post.tags p = default [] (body_tags body)
    /\ Post.excerpt p = body_excerpt body
    /\ Post.cover_image p = body_coverImage body.
Proof.
  intros Ht Hc Hne Hslug Hfree. unfold createPost, Post_create.
  rewrite Ht, Hc. cbn [bind ret].
  assert (is_empty (trim title) = false) as ->.
  { apply is_empty_false. intros E. by apply Hslug, blank_slug. }
  rewrite (proj2 (is_empty_false _) Hslug), (proj2 (is_empty_false _) Hne).
  cbn [orb]. rewrite Hfree. cbn [bind ret].
  set (id := fresh (dom (Posts db))).
  assert (Posts db !! id = None) as Hid by apply not_elem_of_dom, is_fresh.
  clearbody id.
  eexists (Build_Created _ _ _ _), _. split; [reflexivity|]. by repeat split.
Qed.

Lemma createPost_no_title {rt : Runtime} clock user body db :
  body_title body = None ->
  createPost clock user body db = (ServerError TypeError, db).
Proof. intros Ht. unfold createPost. by rewrite Ht. Qed.

Lemma createPost_201_iff {rt : Runtime} clock user body db :
  (exists c db', createPost clock user body db = (Ok 201 c, db'))
  <-> exists title content,
        body_title body = Some title
        /\ body_content body = Some content /\ content <> []
        /\ slugify title <> []
        /\ forall id p, Posts db !! id = Some p -> Post.slug p <> slugify title.
Proof.
  split.
  - intros (c & db' & Hc). unfold createPost, Post_create in Hc.
    destruct (body_title body) as [title|]; [|done]. cbn [bind ret] in Hc.
    destruct (body_content body) as [content|]; [|done].
    destruct (is_empty (trim title)) eqn:E1; [done|].
    destruct (is_empty (slugify title)) eqn:E2; [done|].
    destruct (is_empty content) eqn:E3; [done|].
    cbn [orb] in Hc.
    destruct (slug_taken (slugify title) db) eqn:E4; [done|].
    exists title, content. repeat split; try done.
    + by apply is_empty_false.
    + by apply is_empty_false.
    + by apply slug_taken_false.
  - intros (title & content & Ht & Hc & Hne & Hslug & Hfree).
    apply slug_taken_false in Hfree.
    destruct (createPost_success clock user body db title content
                Ht Hc Hne Hslug Hfree) as (c & p & H & _).
    eauto.
Qed.

(** ** What every request keeps *)

(** The possible effects of a request on the posts. *)
Lemma handle_posts {rt : Runtime} clock r db :
  Posts (handle clock r db) = Posts db
  \/ (exists id p p',
        Posts db !! id = Some p
        /\ Posts (handle clock r db) = <[id := p']> (Posts db)
        /\ same_content p p'
        /\ grown (Post.views p) (Post.views p'))
  \/ (exists id p,
        Posts db !! id = None
        /\ Posts (handle clock r db) = <[id := p]> (Posts db)
        /\ forall k q, Posts db !! k = Some q -> Post.slug q <> Post.slug p)
  \/ (exists id, deletes id r
        /\ Posts (handle clock r db) = delete id (Posts db)).
Proof.
  destruct r as [id u|u body|u body|lim|id u|id u|pid u body|id u];
    cbn [handle].
  - destruct (Posts db !! id) as [p|] eqn:Hp.
    + destruct (getPostById_found clock id u db p Hp)
        as (v & p' & -> & _ & Hv & _ & Hsame).
      right; left. exists id, p, p'. split; [done|]. split; [done|].
      split; [done|]. rewrite Hv. apply grown_add_1.
    + left. by rewrite getPostById_missing.
  - destruct (createPost_store clock u body db) as [[c Hc]|Hs];
      [|left; by rewrite Hs].
    destruct (createPost clock u body db) as [res db'] eqn:E.
    cbn in Hc. subst res.
    apply createPost_created in E
      as (t & p & _ & _ & Hslug & _ & Hnone & Hfree & ->).
    right; right; left. exists (created_id c), p. split; [done|].
    split; [done|]. rewrite Hslug. by apply slug_taken_false.
  - left. unfold updateUserProfile. by destruct (Users db !! u).
  - by left.
  - destruct (Posts db !! id) as [p|] eqn:Hp.
    + destruct (likePost_found clock id u db p Hp)
        as (v & p' & -> & _ & Hv & Hsame & _).
      right; left. exists id, p, p'. split; [done|]. split; [done|].
      split; [done|]. rewrite Hv. apply grown_refl.
    + left. by rewrite likePost_missing.
  - unfold deletePost. destruct (Posts db !! id) as [p|]; [|by left].
    destruct (negb _); [by left|]. right; right; right. by exists id.
  - left. unfold createComment. destruct (truthy _); [|done].
    destruct (is_empty _); [done|]. by destruct (Posts db !! pid).
  - left. unfold deleteComment. destruct (Comments db !! id); [|done].
    by destruct (negb _).
Qed.



Lemma handle_post_persists {rt : Runtime} clock r db id p :
  Posts db !! id = Some p -> ~ deletes id r ->
  exists p',
    Posts (handle clock r db) !! id = Some p'
    /\ same_content p p'
    /\ grown (Post.views p) (Post.views p').
Proof.
  intros Hp Hdel.
  destruct (handle_posts clock r db)
    as [E|[(i & q & q' & Hq & E & Hsame & Hv)
          |[(i & q & Hnone & E & _)|(i & Hi & E)]]]; rewrite E.
  - exists p. split; [done|]. split; [apply same_content_refl | apply grown_refl].
  - rewrite lookup_insert. case_decide as Hi.
    + subst i. rewrite Hp in Hq. injection Hq as <-. by exists q'.
    + exists p. split; [done|]. split; [apply same_content_refl | apply grown_refl].
  - rewrite lookup_insert. case_decide as Hi; [congruence|].
    exists p. split; [done|]. split; [apply same_content_refl | apply grown_refl].
  - rewrite lookup_delete_ne by (intros ->; by apply Hdel).
    exists p. split; [done|]. split; [apply same_content_refl | apply grown_refl].
Qed.

Lemma run_post_persists {rt : Runtime} id rs : forall db p,
  Posts db !! id = Some p ->
  Forall (fun cr : Clock * Request => ~ deletes id cr.2) rs ->
  exists p',
    Posts (run rs db) !! id = Some p'
    /\ same_content p p'
    /\ grown (Post.views p) (Post.views p').
Proof.
  induction rs as [|[clock r] rs IH]; intros db p Hp Hrs.
  - exists p. split; [done|]. split; [apply same_content_refl | apply grown_refl].
  - inversion_clear Hrs as [|? ? Hr Hrs'].
    destruct (handle_post_persists clock r db id p Hp Hr) as (p1 & Hp1 & Hs1 & Hv1).
    destruct (IH _ p1 Hp1 Hrs') as (p' & Hp' & Hs' & Hv').
    exists p'. split; [done|].
    split; [by eapply same_content_trans | by eapply grown_trans].
Qed.

(** ** Round trips *)

Lemma createPost_deletePost {rt : Runtime} clock user body db c db' :
  createPost clock user body db = (Ok 201 c, db') ->
  deletePost (created_id c) user db' = (Ok 200 "Post removed"%string, db).
Proof.
  unfold createPost, Post_create.
  destruct (body_title body) as [title|]; [|done]. cbn [bind ret].
  destruct (body_content body) as [content|]; [|done].
  destruct (_ || _ || _); [done|].
  destruct (slug_taken _ _); [done|]. cbn [bind ret].
  set (id := fresh (dom (Posts db))).
  assert (Posts db !! id = None) as Hid by apply not_elem_of_dom, is_fresh.
  clearbody id. intros [= <- <-]. cbn [created_id].
  erewrite deletePost_by_author; [|apply lookup_insert_eq|reflexivity].
  f_equal. destruct db as [ps cs us]. unfold with_Posts. cbn in *.
  f_equal. by apply delete_insert_id.
Qed.

(** ** Posts stay valid *)

Lemma createPost_result {rt : Runtime} clock user body db c db' :
  createPost clock user body db = (Ok 201 c, db') ->
  exists title content p,
    body_title body = Some title
    /\ body_content body = Some content /\ content <> []
    /\ slugify title <> []
    /\ Posts db !! created_id c = None
    /\ db' = with_Posts (<[created_id c := p]> (Posts db)) db
    /\ created_title c = trim title
    /\ created_slug c = slugify title
    /\ created_createdAt c = clock 0%nat
    /\ Post.title p = trim title /\ Post.slug p = slugify title
    /\ Post.content_html p = content
    /\ Post.author p = user
    /\ Post.status p = Post.published
    /\ Post.views p = 0%float /\ Post.likes p = [].
Proof.
  intros Hc.
  destruct (proj1 (createPost_201_iff clock user body db))
    as (title & content & Ht & Hcont & Hne & Hslug & Hfree); [eauto|].
  apply slug_taken_false in Hfree.
  destruct (createPost_success clock user body db title content
              Ht Hcont Hne Hslug Hfree)
    as (c1 & p & E & Hnone & H1 & H2 & H3 & H4 & H5 & H6 & H7 & H8 & H9 & H10 & _).
  rewrite E in Hc. injection Hc as -> <-.
  exists title, content, p. by repeat split.
Qed.

Lemma handle_posts_valid {rt : Runtime} clock r db :
  posts_valid db -> posts_valid (handle clock r db).
Proof.
  intros Hv.
  assert (forall id p p', Posts db !! id = Some p -> same_content p p' ->
            posts_valid (with_Posts (<[id := p']> (Posts db)) db)) as Hsame.
  { intros id p p' Hp Hs k q. cbn. rewrite lookup_insert.
    case_decide; [|apply Hv]. intros [= <-].
    destruct (Hv id p Hp) as (H1 & H2 & H3 & H4).
    destruct Hs as (_ & Hslug & Hcont & _ & _ & _ & _ & _ & Hstat & _).
    unfold valid_post. by rewrite Hslug, Hcont, Hstat. }
  destruct r as [id u|u body|u body|lim|id u|id u|pid u body|id u];
    cbn [handle]; try done.
  - destruct (Posts db !! id) as [p|] eqn:Hp.
    + destruct (getPostById_found clock id u db p Hp)
        as (v & p' & -> & _ & _ & _ & Hs).
      by eapply Hsame.
    + by rewrite getPostById_missing.
  - destruct (createPost_store clock u body db) as [[c Hc]|Hs]; [|by rewrite Hs].
    destruct (createPost clock u body db) as [res db'] eqn:E.
    cbn in Hc. subst res.
    apply createPost_result in E
      as (t & content & p & _ & _ & Hne & Hslug & _ & -> & _ & _ & _ & _
          & Hps & Hpc & _ & Hst & _).
    intros k q. cbn. rewrite lookup_insert. case_decide; [|apply Hv].
    intros [= <-]. unfold valid_post. rewrite Hps, Hpc.
    split; [apply slugify_url_safe | done].
  - unfold updateUserProfile. by destruct (Users db !! u).
  - destruct (Posts db !! id) as [p|] eqn:Hp.
    + destruct (likePost_found clock id u db p Hp)
        as (v & p' & -> & _ & _ & Hs & _).
      by eapply Hsame.
    + by rewrite likePost_missing.
  - unfold deletePost. destruct (Posts db !! id) as [p|]; [|done].
    destruct (negb _); [done|]. intros k q. cbn.
    rewrite lookup_delete_Some. intros [_ Hq]. by eapply Hv.
  - unfold createComment. destruct (truthy _); [|done].
    destruct (is_empty _); [done|]. by destruct (Posts db !! pid).
  - unfold deleteComment. destruct (Comments db !! id); [|done].
    by destruct (negb _).
Qed.

Lemma run_posts_valid {rt : Runtime} rs : forall db, posts_valid db -> posts_valid (run rs db).
Proof.
  induction rs as [|[clock r] rs IH]; intros db Hdb; [done|].
  cbn [run]. by apply IH, handle_posts_valid.
Qed.

(** ** Comments: creating and deleting *)

Lemma createComment_blank clock postId user body db :
  falsy (body_comment body)
  \/ (exists s, body_comment body = JStr s /\ trim s = []) ->
  createComment clock postId user body db
  = (Fail 400 "Comment content is required", db).
Proof.
  unfold createComment. intros [H|(s & -> & Hs)].
  - apply truthy_None in H. by rewrite H.
  - cbn [truthy]. destruct (is_empty s); [done|]. by rewrite Hs.
Qed.

Lemma createComment_no_post clock postId user body db s :
  body_comment body = JStr s -> trim s <> [] ->
  Posts db !! postId = None ->
  createComment clock postId user body db = (Fail 404 "Post not found", db).
Proof.
  intros Hb Hs Hp. unfold createComment. rewrite Hb. cbn [truthy].
  destruct s as [|c s]; [done|]. cbn [is_empty].
  by rewrite (proj2 (is_empty_false _) Hs), Hp.
Qed.

Lemma createComment_created clock postId user body db s p :
  body_comment body = JStr s -> trim s <> [] ->
  Posts db !! postId = Some p ->
  exists id c,
    createComment clock postId user body db
    = (Ok 201 (id, c, Users db !! user),
       with_Comments (<[id := c]> (Comments db)) db)
    /\ Comments db !! id = None
    /\ Comment.post c = postId /\ Comment.user c = user
    /\ Comment.content c = trim s
    /\ Comment.parent c = body_parentId body
    /\ Comment.replies c = []
    /\ Comment.created_at c = clock 0%nat.
Proof.
  intros Hb Hs Hp. unfold createComment. rewrite Hb. cbn [truthy].
  destruct s as [|c s]; [done|]. cbn [is_empty].
  rewrite (proj2 (is_empty_false _) Hs), Hp.
  set (id := fresh (dom (Comments db))).
  assert (Comments db !! id = None) as Hid by apply not_elem_of_dom, is_fresh.
  clearbody id. eexists id, _. split; [reflexivity|]. by repeat split.
Qed.

Lemma deleteMany_gone id coll : Comment_deleteMany_id_or_parent id coll !! id = None.
Proof.
  rewrite deleteMany_lookup. destruct (coll !! id); [|done].
  rewrite decide_True; [done | by left].
Qed.

Lemma deleteComment_twice id u db c :
  Comments db !! id = Some c -> Comment.user c = u ->
  forall u',
    deleteComment id u' (deleteComment id u db).2
    = (Fail 404 "Comment not found", (deleteComment id u db).2).
Proof.
  intros Hc Hu u'. rewrite (deleteComment_by_author id u db c Hc Hu).
  cbn [snd]. apply deleteComment_missing. cbn. apply deleteMany_gone.
Qed.

Lemma removed_is_comment_and_replies id (coll : gmap positive Comment.t) c :
  coll !! id = Some c ->
  filter (fun kv : positive * Comment.t =>
            kv.1 = id \/ Comment.parent kv.2 = Some id) coll
  = <[id := c]> (direct_replies id coll).
Proof.
  intros Hc. apply map_eq. intros k. unfold direct_replies.
  destruct (decide (k = id)) as [->|Hk].
  - rewrite lookup_insert_eq. apply map_lookup_filter_Some. split; [done|].
    by left.
  - rewrite lookup_insert_ne by done.
    destruct (coll !! k) as [ck|] eqn:Hck.
    + destruct (decide (Comment.parent ck = Some id)) as [Hpar|Hpar].
      * transitivity (Some ck); [|symmetry];
          apply map_lookup_filter_Some; split; try done; cbn; tauto.
      * transitivity (@None Comment.t); [|symmetry];
          apply map_lookup_filter_None; right; intros x Hx;
          rewrite Hck in Hx; injection Hx as <-; cbn; tauto.
    + transitivity (@None Comment.t); [|symmetry];
        apply map_lookup_filter_None; by left.
Qed.

Lemma deleteComment_size id u db c :
  Comments db !! id = Some c -> Comment.user c = u ->
  size (Comments db)
  = size (Comments (deleteComment id u db).2)
    + 1 + size (direct_replies id (Comments db)).
Proof.
  intros Hc Hu. rewrite (deleteComment_by_author id u db c Hc Hu).
  cbn [snd Comments with_Comments]. unfold Comment_deleteMany_id_or_parent.
  set (P := fun kv : positive * Comment.t =>
              kv.1 = id \/ Comment.parent kv.2 = Some id).
  rewrite <- (map_filter_union_complement P (Comments db)) at 1.
  rewrite map_size_disj_union by apply map_disjoint_filter_complement.
  unfold P at 1. rewrite (removed_is_comment_and_replies id _ c Hc).
  rewrite map_size_insert_None; [subst P; cbv beta; lia|].
  unfold direct_replies. apply map_lookup_filter_None. right.
  intros x _ [Hne _]. by apply Hne.
Qed.

Lemma createComment_deleteComment clock postId user body db id c u db' :
  createComment clock postId user body db = (Ok 201 (id, c, u), db') ->
  (forall k ck, Comments db !! k = Some ck -> Comment.parent ck <> Some id) ->
  deleteComment id user db' = (Ok 200 "Comment removed"%string, db).
Proof.
  unfold createComment. destruct (truthy _) as [s|]; [|done].
  destruct (is_empty _); [done|].
  destruct (Posts db !! postId); [|done].
  set (i := fresh (dom (Comments db))).
  assert (Comments db !! i = None) as Hi by apply not_elem_of_dom, is_fresh.
  clearbody i. intros [= <- <- <- <-] Hpar.
  erewrite deleteComment_by_author; [|apply lookup_insert_eq|reflexivity].
  f_equal. destruct db as [ps cs us]. unfold with_Comments. cbn in *.
  f_equal. apply map_eq. intros k. rewrite deleteMany_lookup.
  rewrite lookup_insert. case_decide as Hk.
  - subst k. rewrite decide_True; [by rewrite Hi | by left].
  - destruct (cs !! k) as [ck|] eqn:Hck; [|done].
    rewrite decide_False; [done|]. intros [?|?]; [done|]. by eapply Hpar.
Qed.

(** ** Sorted queries *)

Section QuerySortFacts.
Context {D : Type} (key : D -> Z).

Lemma Query_insert_perm d x l : Permutation (Query_insert key d x l) (x :: l).
Proof.
  induction l as [|y l IH]; cbn [Query_insert]; [done|].
  destruct (sorts_after key d x y); [|done].
  rewrite IH. apply perm_swap.
Qed.

Lemma Query_sort_perm d l : Permutation (Query_sort key d l) l.
Proof.
  induction l as [|x l IH]; cbn [Query_sort]; [done|].
  rewrite Query_insert_perm. by constructor.
Qed.

Lemma Query_sort_In d l x : In x (Query_sort key d l) <-> In x l.
Proof.
  split; apply Permutation_in;
    [apply Query_sort_perm | apply Permutation_sym, Query_sort_perm].
Qed.

Lemma Query_insert_sorted (R : positive * D -> positive * D -> Prop) d x l :
  (forall a b, sorts_after key d a b = false -> R a b) ->
  (forall a b, sorts_after key d a b = true -> R b a) ->
  (forall a b c, R a b -> R b c -> R a c) ->
  StronglySorted R l -> StronglySorted R (Query_insert key d x l).
Proof.
  intros Hle Hgt Htrans.
  induction 1 as [|y l Hs IH Hy]; cbn [Query_insert]; [repeat constructor|].
  destruct (sorts_after key d x y) eqn:E.
  - constructor; [done|]. rewrite Forall_forall in *. intros z Hz.
    apply list_elem_of_In in Hz.
    apply (Permutation_in _ (Query_insert_perm d x l)) in Hz.
    destruct Hz as [<-|Hz]; [by apply Hgt|]. by apply Hy, list_elem_of_In.
  - constructor; [by constructor|]. constructor; [by apply Hle|].
    rewrite Forall_forall in *. intros z Hz.
    eapply Htrans; [by apply Hle|]. by apply Hy.
Qed.

Lemma Query_sort_newest_first l :
  StronglySorted (newest_first key) (Query_sort key true l).
Proof.
  induction l as [|x l IH]; cbn [Query_sort]; [constructor|].
  apply Query_insert_sorted; try done; unfold newest_first, sorts_after.
  - intros a b. rewrite Z.ltb_ge. lia.
  - intros a b. rewrite Z.ltb_lt. lia.
  - intros a b c. lia.
Qed.

Lemma Query_sort_oldest_first l :
  StronglySorted (oldest_first key) (Query_sort key false l).
Proof.
  induction l as [|x l IH]; cbn [Query_sort]; [constructor|].
  apply Query_insert_sorted; try done; unfold oldest_first, sorts_after.
  - intros a b. rewrite Z.ltb_ge. lia.
  - intros a b. rewrite Z.ltb_lt. lia.
  - intros a b c. lia.
Qed.
End QuerySortFacts.

Lemma find_NoDup {D} (keep : D -> bool) (coll : gmap positive D) :
  NoDup (find keep coll).*1.
Proof.
  unfold find. generalize (NoDup_fst_map_to_list coll).
  induction (map_to_list coll) as [|[k d] l IH]; [done|].
  cbn [fmap list_fmap List.filter]. intros [Hk Hl]%NoDup_cons.
  destruct (keep _); [|by apply IH]. cbn [fmap list_fmap fst].
  apply NoDup_cons. split; [|by apply IH].
  intros Hin. apply Hk. apply list_elem_of_fmap in Hin as ([k' d'] & -> & Hin).
  apply list_elem_of_fmap. exists (k', d'). split; [done|].
  apply list_elem_of_In. apply list_elem_of_In, filter_In in Hin. tauto.
Qed.

Lemma Query_sort_NoDup {D} (key : D -> Z) d (l : list (positive * D)) :
  NoDup l.*1 -> NoDup (Query_sort key d l).*1.
Proof.
  intros Hl. by rewrite (Query_sort_perm key d l).
Qed.

(** ** Mapping a callback that may throw *)

Lemma mapM_index_ok {A B} (f : A -> Result B) (g : A -> B) (l : list A) i :
  (forall x, In x l -> f x = inr (g x)) ->
  mapM_index (fun _ => f) i l = inr (List.map g l).
Proof.
  revert i. induction l as [|x l IH]; intros i Hf; [done|].
  cbn [mapM_index List.map]. rewrite (Hf x) by (by left). cbn [bind ret].
  rewrite IH by (intros y Hy; apply Hf; by right). done.
Qed.

Lemma mapM_index_throw {A B} (f : A -> Result B) e (l : list A) i :
  l <> [] -> (forall x, In x l -> f x = inl e) ->
  mapM_index (fun _ => f) i l = inl e.
Proof.
  destruct l as [|x l]; [done|]. intros _ Hf.
  cbn [mapM_index]. by rewrite (Hf x) by (by left).
Qed.

(** ** The posts of a user *)

Lemma userPosts_spec userId db id p :
  In (id, p) (userPosts userId db)
  <-> Posts db !! id = Some p /\ Post.author p = userId
      /\ Post.is_published p = true.
Proof.
  unfold userPosts. rewrite Query_sort_In, find_spec, andb_true_iff, Pos.eqb_eq.
  tauto.
Qed.

Lemma getUserPosts_known userId db u :
  Users db !! userId = Some u ->
  getUserPosts userId db
  = Ok 200 (List.map (userPostView u) (userPosts userId db)).
Proof.
  intros Hu. unfold getUserPosts.
  rewrite (mapM_index_ok _ (userPostView u)); [reflexivity|].
  intros [id p] Hin. apply userPosts_spec in Hin as (_ & Ha & _).
  unfold userPostItem. cbn [snd].
  assert (Users db !! Post.author p = Some u) as -> by (by rewrite Ha).
  reflexivity.
Qed.

Lemma getUserPosts_unknown userId db :
  Users db !! userId = None ->
  getUserPosts userId db
  = if decide (userPosts userId db = []) then Ok 200 [] else ServerError TypeError.
Proof.
  intros Hu. unfold getUserPosts. case_decide as E; [by rewrite E|].
  rewrite (mapM_index_throw _ TypeError); [reflexivity|done|].
  intros [id p] Hin. apply userPosts_spec in Hin as (_ & Ha & _).
  unfold userPostItem. cbn [snd].
  assert (Users db !! Post.author p = None) as -> by (by rewrite Ha).
  reflexivity.
Qed.

(** ** Featured posts *)

Lemma featuredLimit_absent : featuredLimit None = 3%Z.
Proof. reflexivity. Qed.

Lemma featuredLimit_positive s n :
  parseInt s = Some n -> (0 < n)%Z -> featuredLimit (Some s) = n.
Proof.
  intros Hs Hn. unfold featuredLimit. cbn. rewrite Hs.
  destruct (Z.eqb_spec n 0); [lia|done].
Qed.

Lemma featuredLimit_falsy s :
  parseInt s = None \/ parseInt s = Some 0%Z -> featuredLimit (Some s) = 3%Z.
Proof. unfold featuredLimit. cbn. by intros [-> | ->]. Qed.

Lemma recentPosts_spec db id p :
  In (id, p) (recentPosts db)
  <-> Posts db !! id = Some p /\ Post.is_published p = true.
Proof. unfold recentPosts. by rewrite Query_sort_In, find_spec. Qed.

Lemma featuredPosts_positive n db :
  (0 < n)%Z -> featuredPosts n db = take (Z.to_nat n) (recentPosts db).
Proof.
  intros Hn. unfold featuredPosts, Query_limit.
  destruct (Z.eqb_spec n 0); [lia|]. by rewrite Z.abs_eq by lia.
Qed.

Lemma sorted_take_drop {A} (R : A -> A -> Prop) n l a b :
  StronglySorted R l -> In a (take n l) -> In b (drop n l) -> R a b.
Proof.
  intros Hl. revert n. induction Hl as [|x l Hl IH Hx]; intros n.
  - by rewrite take_nil.
  - destruct n as [|n]; [done|]. cbn [take drop]. intros [<-|Ha] Hb.
    + rewrite Forall_forall in Hx. apply Hx.
      apply list_elem_of_In in Hb. revert Hb. apply (subseteq_drop n l).
    + by eapply IH.
Qed.

Lemma featuredItem_ok db kv u :
  Users db !! Post.author kv.2 = Some u ->
  featuredItem db kv = inr (featuredView u kv).
Proof. intros Hu. unfold featuredItem. by rewrite Hu. Qed.

Lemma mapM_index_Forall2 {A B} (f : A -> Result B) (R : A -> B -> Prop)
    (l : list A) i :
  (forall x, In x l -> exists y, f x = inr y /\ R x y) ->
  exists ys, mapM_index (fun _ => f) i l = inr ys /\ Forall2 R l ys.
Proof.
  revert i. induction l as [|x l IH]; intros i Hf.
  - exists []. by split.
  - destruct (Hf x) as (y & Hy & Hr); [by left|].
    destruct (IH (S i)) as (ys & Hys & Hrs); [intros z Hz; apply Hf; by right|].
    exists (y :: ys). cbn [mapM_index]. rewrite Hy. cbn [bind ret].
    rewrite Hys. by split; [|constructor].
Qed.

(** ** Threads of comments *)

Lemma topLevelComments_spec postId db id c :
  In (id, c) (topLevelComments postId db)
  <-> Comments db !! id = Some c /\ Comment.post c = postId
      /\ Comment.parent c = None.
Proof.
  unfold topLevelComments.
  rewrite Query_sort_In, find_spec, andb_true_iff, Pos.eqb_eq, bool_decide_eq_true.
  tauto.
Qed.

Lemma repliesOf_spec pid db id c :
  In (id, c) (repliesOf pid db)
  <-> Comments db !! id = Some c /\ Comment.parent c = Some pid.
Proof.
  unfold repliesOf. by rewrite Query_sort_In, find_spec, bool_decide_eq_true.
Qed.

Lemma getPostComments_listed postId db threads id :
  getPostComments postId db = Ok 200 threads ->
  listed id threads
  <-> exists c,
        Comments db !! id = Some c
        /\ ((Comment.post c = postId /\ Comment.parent c = None)
            \/ exists pid pc,
                 Comment.parent c = Some pid
                 /\ Comments db !! pid = Some pc
                 /\ Comment.post pc = postId /\ Comment.parent pc = None).
Proof.
  unfold getPostComments. intros [= <-]. unfold listed. split.
  - intros (t & Ht & Hid). apply in_map_iff in Ht as ([k c] & <- & Hk).
    apply topLevelComments_spec in Hk as (Hc & Hpost & Hpar).
    cbn [th_comment th_replies commentView cv_id fst snd] in Hid.
    destruct Hid as [<-|(v & Hv & <-)].
    + exists c. split; [done|]. by left.
    + apply in_map_iff in Hv as ([k' c'] & <- & Hk').
      apply repliesOf_spec in Hk' as (Hc' & Hpar').
      exists c'. split; [done|]. right. by exists k, c.
  - intros (c & Hc & [[Hpost Hpar]|(pid & pc & Hpar & Hpc & Hpost & Hppar)]).
    + eexists. split.
      * apply in_map_iff. exists (id, c). split; [reflexivity|].
        by apply topLevelComments_spec.
      * by left.
    + eexists. split.
      * apply in_map_iff. exists (pid, pc). split; [reflexivity|].
        by apply topLevelComments_spec.
      * right. exists (commentView db (id, c)). split; [|done].
        apply in_map_iff. exists (id, c). split; [done|].
        by apply repliesOf_spec.
Qed.

(** ** Trending posts: the remaining cases *)

Lemma js_sort_length {A} (cmp : A -> A -> float) l :
  length (js_sort cmp l) = length l.
Proof. apply Permutation_length, js_sort_perm. Qed.

Lemma sortedPosts_negative clock n db :
  (n < 0)%Z ->
  sortedPosts clock n db
  = take (length (postsWithScores clock db) - Z.to_nat (- n))
         (js_sort compareTrending (postsWithScores clock db)).
Proof.
  intros Hn. unfold sortedPosts, slice0.
  rewrite (proj2 (Z.ltb_lt n 0) Hn), js_sort_length. f_equal. lia.
Qed.

Lemma trendingItem_cases i (sp : Scored) :
  (exists it, trendingItem i sp = inr it /\ is_Some (sc_author sp))
  \/ (trendingItem i sp = inl TypeError /\ sc_author sp = None).
Proof.
  unfold trendingItem. destruct (sc_author sp) as [u|].
  - left. eexists. by split; [reflexivity|].
  - by right.
Qed.

Lemma mapM_index_trendingItem_cases (l : list Scored) i :
  (exists items,
     mapM_index trendingItem i l = inr items
     /\ length items = length l
     /\ Forall (fun sp => is_Some (sc_author sp)) l)
  \/ (mapM_index trendingItem i l = inl TypeError
      /\ Exists (fun sp => sc_author sp = None) l).
Proof.
  revert i. induction l as [|sp l IH]; intros i.
  - left. exists []. by repeat split.
  - cbn [mapM_index].
    destruct (trendingItem_cases i sp) as [(it & -> & Hsome)|[-> Hnone]].
    + cbn [bind ret].
      destruct (IH (S i)) as [(items & -> & Hlen & Hall)|[-> Hex]].
      * left. exists (it :: items). cbn [bind ret length].
        repeat split; [by rewrite Hlen | by constructor].
      * right. split; [done | by apply Exists_cons_tl].
    + right. split; [done | by apply Exists_cons_hd].
Qed.

(** ** Profiles *)

Lemma updateUserProfile_missing uid body db :
  Users db !! uid = None ->
  updateUserProfile uid body db = (Fail 404 "User not found", db).
Proof. intros Hu. unfold updateUserProfile. by rewrite Hu. Qed.

Lemma updateUserProfile_idempotent uid body db :
  updateUserProfile uid body (updateUserProfile uid body db).2
  = updateUserProfile uid body db.
Proof.
  unfold updateUserProfile at 2 3.
  destruct (Users db !! uid) as [user|] eqn:Hu.
  - cbn [snd]. unfold updateUserProfile. cbn [Users with_Users].
    rewrite lookup_insert_eq. cbn [User.name User.email User.bio User.avatar_url User.role].
    destruct (truthy (body_name body)), (truthy (body_bio body)),
      (truthy (body_avatar body));
      (f_equal; destruct db as [ps cs us]; unfold with_Users; cbn;
       f_equal; apply insert_insert_eq).
  - cbn [snd]. by apply updateUserProfile_missing.
Qed.

Lemma deep_reply_not_listed postId db threads id c pid pc :
  getPostComments postId db = Ok 200 threads ->
  Comments db !! id = Some c -> Comment.parent c = Some pid ->
  Comments db !! pid = Some pc -> Comment.parent pc <> None ->
  ~ listed id threads.
Proof.
  intros Hget Hc Hpar Hpc Hppar Hl.
  apply (getPostComments_listed postId db threads id Hget) in Hl
    as (c' & Hc' & [[_ Hnone]|(pid' & pc' & Hpar' & Hpc' & _ & Hnone)]).
  - congruence.
  - rewrite Hc in Hc'. injection Hc' as <-. rewrite Hpar in Hpar'.
    injection Hpar' as <-. congruence.
Qed.

Lemma getFeaturedPosts_positive limit db :
  (0 < featuredLimit limit)%Z -> authors_exist db ->
  exists items,
    getFeaturedPosts limit db = Ok 200 items
    /\ Forall2 (fun kv it =>
                  exists u, Users db !! Post.author kv.2 = Some u
                            /\ it = featuredView u kv)
               (take (Z.to_nat (featuredLimit limit)) (recentPosts db)) items.
Proof.
  intros Hn Hauth. unfold getFeaturedPosts. rewrite featuredPosts_positive by done.
  destruct (mapM_index_Forall2 (featuredItem db)
              (fun kv it => exists u, Users db !! Post.author kv.2 = Some u
                                      /\ it = featuredView u kv)
              (take (Z.to_nat (featuredLimit limit)) (recentPosts db)) 0)
    as (items & -> & Hall); [|by exists items].
  intros [id p] Hin. apply list_elem_of_In in Hin.
  apply (subseteq_take _ (recentPosts db)), list_elem_of_In, recentPosts_spec in Hin
    as [Hp Hpub].
  destruct (Hauth id p Hp Hpub) as [u Hu].
  exists (featuredView u (id, p)). split; [by apply featuredItem_ok | eauto].
Qed.


(* ================================================================== *)
(** * Further properties *)
(* ================================================================== *)

(** X1. Every slug that [createPost] derives is URL-safe: lower-case
    letters, digits and hyphens only, no hyphen at either end and no two
    hyphens in a row; the slug of a created post is such a string and is
    not empty. *)
Theorem slug_is_url_safe {rt : Runtime} :
  (forall title, url_safe (slugify title))
  /\ (forall clock user body db c db',
        createPost clock user body db = (Ok 201 c, db') ->
        url_safe (created_slug c) /\ created_slug c <> []).
Proof.
  split; [exact slugify_url_safe|].
  intros clock user body db c db' Hc.
  apply createPost_result in Hc
    as (t & content & p & _ & _ & _ & Hslug & _ & _ & _ & -> & _).
  split; [apply slugify_url_safe | done].
Qed.

Lemma slug_is_url_safe_witness :
  url_safe (created_slug hello_created) /\ created_slug hello_created <> [].
Proof.
  apply (proj2 slug_is_url_safe sample_clock 7%positive
           (hello_body "Hello, World!" (Some "text"%string))
           sample_db hello_created hello_db).
  vm_compute. reflexivity.
Defined.

(** X2. Deriving a slug is idempotent, and the strings that it leaves
    alone are exactly the URL-safe ones. *)
Theorem slugify_fixed_points {rt : Runtime} :
  (forall title, slugify (slugify title) = slugify title)
  /\ (forall s, slugify s = s <-> url_safe s).
Proof.
  split; [exact slugify_idempotent|]. intros s. split.
  - intros <-. apply slugify_url_safe.
  - apply slugify_fixed.
Qed.

Lemma slugify_fixed_points_witness :
  url_safe (str "hello-world")
  /\ slugify (str "hello-world") = str "hello-world".
Proof.
  assert (slugify (str "hello-world") = str "hello-world") as E by reflexivity.
  split; [|exact E].
  exact (proj1 (proj2 slugify_fixed_points (str "hello-world")) E).
Defined.

(** X3. [createPost] answers 201 exactly when the body has a title and a
    non-empty content, the derived slug is not empty and no stored post
    has it.  The new post then gets an id that no post had, belongs to
    the requester, is published, and starts with 0 views and no likes;
    nothing else in the store changes.  Without a title the answer is a
    server error, and every answer other than 201 leaves the store as it
    was. *)
Theorem createPost_outcomes {rt : Runtime} :
  (forall clock user body db,
     (exists c db', createPost clock user body db = (Ok 201 c, db'))
     <-> exists title content,
           body_title body = Some title
           /\ body_content body = Some content /\ content <> []
           /\ slugify title <> []
           /\ forall id p, Posts db !! id = Some p ->
                           Post.slug p <> slugify title)
  /\ (forall clock user body db c db',
        createPost clock user body db = (Ok 201 c, db') ->
        exists p,
          Posts db !! created_id c = None
          /\ db' = with_Posts (<[created_id c := p]> (Posts db)) db
          /\ only_post_differs (created_id c) db db'
          /\ Post.author p = user
          /\ Post.status p = Post.published
          /\ Post.views p = 0%float /\ Post.likes p = []
          /\ created_createdAt c = clock 0%nat)
  /\ (forall clock user body db,
        body_title body = None ->
        createPost clock user body db = (ServerError TypeError, db))
  /\ (forall clock user body db,
        (forall c, (createPost clock user body db).1 <> Ok 201 c) ->
        (createPost clock user body db).2 = db).
Proof.
  split; [exact createPost_201_iff|]. split; [|split].
  - intros clock user body db c db' Hc.
    apply createPost_result in Hc
      as (t & content & p & _ & _ & _ & _ & Hnone & -> & _ & _ & Hat
          & _ & _ & _ & Hau & Hst & Hv & Hl).
    exists p. repeat split; try done.
    intros k Hk. cbn. by rewrite lookup_insert_ne.
  - exact createPost_no_title.
  - intros clock user body db Hno.
    destruct (createPost_store clock user body db) as [[c Hc]|]; [|done].
    by destruct (Hno c).
Qed.

(** On the sample store; the last request, titled with the Kelvin sign
    alone, is answered 201 in a runtime that lower-cases that sign to
    k. *)
Lemma createPost_outcomes_witness :
  (exists c db',
     createPost sample_clock 7 (hello_body "Hello, World!" (Some "text"%string))
       sample_db = (Ok 201 c, db'))
  /\ (exists p,
        Posts sample_db !! created_id hello_created = None
        /\ hello_db
           = with_Posts (<[created_id hello_created := p]> (Posts sample_db))
               sample_db
        /\ only_post_differs (created_id hello_created) sample_db hello_db
        /\ Post.author p = 7%positive
        /\ Post.status p = Post.published
        /\ Post.views p = 0%float /\ Post.likes p = []
        /\ created_createdAt hello_created = sample_clock 0%nat)
  /\ createPost sample_clock 7
       {| body_title := None; body_content := Some (str "text");
          body_tags := None; body_excerpt := None; body_coverImage := None |}
       sample_db = (ServerError TypeError, sample_db)
  /\ (createPost sample_clock 7 (hello_body "Hello" (Some "text"%string))
        sample_db).2 = sample_db
  /\ (exists c db',
        @createPost unicode_runtime sample_clock 7 kelvin_body sample_db
        = (Ok 201 c, db')).
Proof.
  split; [|split; [|split; [|split]]].
  - apply (proj2 (proj1 createPost_outcomes sample_clock 7%positive
                    (hello_body "Hello, World!" (Some "text"%string)) sample_db)).
    exists (str "Hello, World!"), (str "text").
    split; [reflexivity|]. split; [reflexivity|]. split; [discriminate|].
    split; [vm_compute; discriminate|].
    apply slug_taken_false. vm_compute. reflexivity.
  - apply (proj1 (proj2 createPost_outcomes) sample_clock 7%positive
             (hello_body "Hello, World!" (Some "text"%string))).
    vm_compute. reflexivity.
  - apply (proj1 (proj2 (proj2 createPost_outcomes))). reflexivity.
  - apply (proj2 (proj2 (proj2 createPost_outcomes))).
    intros c. vm_compute. discriminate.
  - apply (proj2 (proj1 (@createPost_outcomes unicode_runtime) sample_clock
                    7%positive kelvin_body sample_db)).
    exists [8490%N], (str "text").
    split; [reflexivity|]. split; [reflexivity|]. split; [discriminate|].
    split; [vm_compute; discriminate|].
    apply slug_taken_false. vm_compute. reflexivity.
Defined.



(** X5. What the schema asks of a post (a URL-safe, non-empty slug, a
    non-empty content, here also the status published) holds of every
    post that the handlers store: every request and every run of requests
    keeps it. *)
Theorem posts_stay_valid {rt : Runtime} :
  (forall db, Posts db = ∅ -> posts_valid db)
  /\ (forall clock r db, posts_valid db -> posts_valid (handle clock r db))
  /\ (forall rs db, posts_valid db -> posts_valid (run rs db)).
Proof.
  split; [|split].
  - intros db E id p. by rewrite E, lookup_empty.
  - exact handle_posts_valid.
  - exact run_posts_valid.
Qed.

Lemma posts_stay_valid_witness :
  posts_valid
    (run sample_reads {| Posts := ∅; Comments := ∅; Users := ∅ |})
  /\ posts_valid
       (handle sample_clock
          (CreatePost 7 (hello_body "Hello, World!" (Some "text"%string)))
          {| Posts := ∅; Comments := ∅; Users := ∅ |}).
Proof.
  assert (posts_valid {| Posts := ∅; Comments := ∅; Users := ∅ |}) as H0
    by (apply (proj1 posts_stay_valid); reflexivity).
  split.
  - apply (proj2 (proj2 posts_stay_valid)), H0.
  - apply (proj1 (proj2 posts_stay_valid)), H0.
Defined.

(** X6. As long as no request deletes it, a post stays in the store with
    the title, slug, content, author, tags, status and creation time it
    had; its view counter never goes down, and it stays a number when it
    was one. *)
Theorem post_persists {rt : Runtime} :
  forall id rs db p,
    Posts db !! id = Some p ->
    Forall (fun cr : Clock * Request => ~ deletes id cr.2) rs ->
    exists p',
      Posts (run rs db) !! id = Some p'
      /\ same_content p p'
      /\ not_below (Post.views p) (Post.views p')
      /\ (is_nan (Post.views p) = false -> is_nan (Post.views p') = false).
Proof.
  intros id rs db p Hp Hrs.
  destruct (run_post_persists id rs db p Hp Hrs) as (p' & Hp' & Hs & Hv & Hn).
  by exists p'.
Qed.

Lemma post_persists_witness :
  exists p',
    Posts (run sample_reads sample_db) !! 1%positive = Some p'
    /\ same_content (sample_post "Hello" "hello" 7 10 [8; 9]%positive 100) p'
    /\ not_below 10 (Post.views p')
    /\ is_nan (Post.views p') = false.
Proof.
  destruct (post_persists 1%positive sample_reads sample_db
              (sample_post "Hello" "hello" 7 10 [8; 9]%positive 100))
    as (p' & Hp' & Hs & Hv & Hn).
  - vm_compute. reflexivity.
  - repeat constructor; cbn; try tauto; discriminate.
  - exists p'. split; [done|]. split; [done|]. split; [done|]. by apply Hn.
Defined.

(** X7. Creating a post and then deleting it as its creator gives back
    the store as it was before. *)
Theorem createPost_then_deletePost {rt : Runtime} :
  forall clock user body db c db',
    createPost clock user body db = (Ok 201 c, db') ->
    deletePost (created_id c) user db' = (Ok 200 "Post removed"%string, db).
Proof. exact createPost_deletePost. Qed.

Lemma createPost_then_deletePost_witness :
  deletePost (created_id hello_created) 7 hello_db
  = (Ok 200 "Post removed"%string, sample_db).
Proof.
  apply (createPost_then_deletePost sample_clock 7%positive
           (hello_body "Hello, World!" (Some "text"%string))).
  vm_compute. reflexivity.
Defined.

(** X8. [getPostById] answers 404 for an id that no post has and then
    changes nothing.  For a stored post it changes the view counter and
    the update time of that post and nothing else in the store; the
    answer carries the number of likes, and [userHasLiked] is true
    exactly when a requester is known and is among the likes. *)
Theorem getPostById_frame :
  (forall clock id user db,
     Posts db !! id = None ->
     getPostById clock id user db = (Fail 404 "Post not found", db))
  /\ (forall clock id user db post,
        Posts db !! id = Some post ->
        exists view db' post',
          getPostById clock id user db = (Ok 200 view, db')
          /\ only_post_differs id db db'
          /\ Posts db' !! id = Some post'
          /\ same_content post post'
          /\ Post.likes post' = Post.likes post
          /\ Post.updated_at post' = clock 0%nat
          /\ pv_id view = id
          /\ pv_likes view = length (Post.likes post)
          /\ (pv_userHasLiked view = true
              <-> exists u, user = Some u /\ In u (Post.likes post))).
Proof.
  split; [exact getPostById_missing|].
  intros clock id user db post Hp.
  destruct (getPostById_frame_found clock id user db post Hp)
    as (view & post' & Hget & Hs & Hl & _ & Hu & Hid & Hcount & Hliked).
  exists view, (with_Posts (<[id:=post']> (Posts db)) db), post'.
  split; [done|]. split; [apply only_post_differs_insert|].
  split; [apply lookup_insert_eq|].
  do 5 (split; [done|]). rewrite Hliked. split.
  - destruct user as [u|]; [|done]. intros Hin%includes_In. eauto.
  - intros (u & -> & Hin). by apply includes_In.
Qed.

Lemma getPostById_frame_witness :
  getPostById sample_clock 9 None sample_db = (Fail 404 "Post not found", sample_db)
  /\ exists view db' post',
       getPostById sample_clock 1 (Some 8%positive) sample_db = (Ok 200 view, db')
       /\ only_post_differs 1 sample_db db'
       /\ Posts db' !! 1%positive = Some post'
       /\ Post.likes post' = [8; 9]%positive
       /\ pv_likes view = 2%nat
       /\ pv_userHasLiked view = true.
Proof.
  split.
  - apply (proj1 getPostById_frame). vm_compute. reflexivity.
  - destruct (proj2 getPostById_frame sample_clock 1%positive (Some 8%positive)
                sample_db (sample_post "Hello" "hello" 7 10 [8; 9]%positive 100)
                eq_refl)
      as (view & db' & post' & Hget & Hfr & Hp & _ & Hl & _ & _ & Hn & Hliked).
    exists view, db', post'. repeat split; try done; try apply Hfr.
    apply Hliked. exists 8%positive. split; [reflexivity | by left].
Defined.

(** X9. [likePost] answers 404 for an id that no post has and then
    changes nothing.  For a stored post it changes the likes and the
    update time of that post and nothing else, the view counter
    included; [liked] tells whether the requester is among the likes
    afterwards, and [likesCount] is one more than before after a like
    and, when the likes held no duplicate, one less after an unlike. *)
Theorem likePost_frame :
  (forall clock id u db,
     Posts db !! id = None ->
     likePost clock id u db = (Fail 404 "Post not found", db))
  /\ (forall clock id u db post,
        Posts db !! id = Some post ->
        exists res db' post',
          likePost clock id u db = (Ok 200 res, db')
          /\ only_post_differs id db db'
          /\ Posts db' !! id = Some post'
          /\ same_content post post'
          /\ Post.views post' = Post.views post
          /\ likesCount res = length (Post.likes post')
          /\ (liked res = true <-> In u (Post.likes post'))
          /\ (~ In u (Post.likes post) ->
              likesCount res = S (length (Post.likes post)))
          /\ (In u (Post.likes post) -> NoDup (Post.likes post) ->
              S (likesCount res) = length (Post.likes post))).
Proof.
  split; [exact likePost_missing|].
  intros clock id u db post Hp.
  destruct (likePost_found clock id u db post Hp)
    as (res & post' & Hlike & Hl & Hv & Hs & Hliked & Hcount).
  exists res, (with_Posts (<[id:=post']> (Posts db)) db), post'.
  split; [done|]. split; [apply only_post_differs_insert|].
  split; [apply lookup_insert_eq|]. split; [done|]. split; [done|].
  split; [by rewrite Hcount, Hl|].
  split; [|split].
  - rewrite Hliked, Hl, negb_true_iff, toggle_like_flips, <- includes_In.
    by rewrite not_true_iff_false.
  - intros Hu. rewrite Hcount. apply toggle_like_length.
    apply not_true_iff_false. by rewrite includes_In.
  - intros Hu Hnd. rewrite Hcount. apply toggle_like_length; [|done].
    by apply includes_In.
Qed.

Lemma likePost_frame_witness :
  likePost sample_clock 9 8 sample_db = (Fail 404 "Post not found", sample_db)
  /\ (exists res db' post',
        likePost sample_clock 1 8 sample_db = (Ok 200 res, db')
        /\ only_post_differs 1 sample_db db'
        /\ Posts db' !! 1%positive = Some post'
        /\ Post.views post' = 10%float
        /\ S (likesCount res) = 2%nat)
  /\ (exists res db',
        likePost sample_clock 2 8 sample_db = (Ok 200 res, db')
        /\ likesCount res = 1%nat).
Proof.
  split; [|split].
  - apply (proj1 likePost_frame). vm_compute. reflexivity.
  - destruct (proj2 likePost_frame sample_clock 1%positive 8%positive
                sample_db (sample_post "Hello" "hello" 7 10 [8; 9]%positive 100)
                eq_refl)
      as (res & db' & post' & Hlike & Hfr & Hp & _ & Hv & _ & _ & _ & Hless).
    exists res, db', post'. repeat split; try done; try apply Hfr.
    apply Hless; [by left|]. cbn [sample_post Post.likes].
    apply NoDup_cons. split; [|apply NoDup_singleton].
    intros H%list_elem_of_In. by destruct H as [H|[]].
  - destruct (proj2 likePost_frame sample_clock 2%positive 8%positive
                sample_db (sample_post "Second" "second" 7 16 [] 200) eq_refl)
      as (res & db' & post' & Hlike & _ & _ & _ & _ & _ & _ & Hmore & _).
    exists res, db'. split; [done|]. apply Hmore. intros [].
Defined.

(** X10. What [likePost] answers and what a following [getPostById] by
    the same user reports agree: [userHasLiked] is the [liked] of the
    toggle, and the number of likes is its [likesCount]; the views that
    the read reports are the views before the toggle plus one, added as
    binary64 numbers. *)
Theorem likePost_then_getPostById :
  forall clock1 clock2 id u db post,
    Posts db !! id = Some post ->
    exists res db1 view db2,
      likePost clock1 id u db = (Ok 200 res, db1)
      /\ getPostById clock2 id (Some u) db1 = (Ok 200 view, db2)
      /\ pv_userHasLiked view = liked res
      /\ pv_likes view = likesCount res
      /\ pv_views view = (Post.views post + 1)%float.
Proof.
  intros clock1 clock2 id u db post Hp.
  destruct (likePost_found clock1 id u db post Hp)
    as (res & post1 & Hlike & Hl & Hv & _ & Hliked & Hcount).
  set (db1 := with_Posts (<[id:=post1]> (Posts db)) db) in *.
  assert (Posts db1 !! id = Some post1) as Hp1 by apply lookup_insert_eq.
  destruct (getPostById_frame_found clock2 id (Some u) db1 post1 Hp1)
    as (view & post2 & Hget & _ & _ & _ & _ & _ & Hn & Hflag).
  destruct (getPostById_found clock2 id (Some u) db1 post1 Hp1)
    as (view' & post2' & Hget' & Hviews & _).
  rewrite Hget in Hget'. injection Hget' as <- _.
  exists res, db1, view, (with_Posts (<[id:=post2]> (Posts db1)) db1).
  split; [done|]. split; [done|]. split; [|split].
  - rewrite Hflag, Hliked, Hl.
    destruct (includes (Post.likes post) u) eqn:E.
    + apply not_true_iff_false. rewrite includes_In, toggle_like_flips.
      apply includes_In in E. tauto.
    + apply includes_In, toggle_like_flips. rewrite <- includes_In. congruence.
  - by rewrite Hn, Hcount, Hl.
  - by rewrite Hviews, Hv.
Qed.

Lemma likePost_then_getPostById_witness :
  exists res db1 view db2,
    likePost sample_clock 2 8 sample_db = (Ok 200 res, db1)
    /\ getPostById sample_clock 2 (Some 8%positive) db1 = (Ok 200 view, db2)
    /\ pv_userHasLiked view = liked res
    /\ pv_likes view = likesCount res
    /\ pv_views view = (16 + 1)%float.
Proof.
  apply (likePost_then_getPostById sample_clock sample_clock 2%positive
           8%positive sample_db (sample_post "Second" "second" 7 16 [] 200)).
  vm_compute. reflexivity.
Defined.

(** X11. [deletePost] answers 404 for an id that no post has.  Called by
    the author it removes that post and nothing else: every other post,
    every user and every comment stays, the comments on the removed post
    included.  Afterwards the id answers 404 to a read, a like, a comment
    and a second delete. *)
Theorem deletePost_removes_one_post :
  (forall id u db,
     Posts db !! id = None ->
     deletePost id u db = (Fail 404 "Post not found", db))
  /\ (forall id u db p,
        Posts db !! id = Some p -> Post.author p = u ->
        exists db',
          deletePost id u db = (Ok 200 "Post removed"%string, db')
          /\ only_post_differs id db db'
          /\ Posts db' !! id = None
          /\ (forall clock user,
                getPostById clock id user db'
                = (Fail 404 "Post not found", db'))
          /\ (forall clock user,
                likePost clock id user db' = (Fail 404 "Post not found", db'))
          /\ (forall clock user text parent,
                trim text <> [] ->
                createComment clock id user (reply_body text parent) db'
                = (Fail 404 "Post not found", db'))
          /\ (forall user,
                deletePost id user db' = (Fail 404 "Post not found", db'))).
Proof.
  split; [exact deletePost_missing|].
  intros id u db p Hp Hu. eexists. split; [by eapply deletePost_by_author|].
  assert (Posts (with_Posts (delete id (Posts db)) db) !! id = None) as Hgone
    by apply lookup_delete_eq.
  split; [|split; [done|split; [|split; [|split]]]].
  - split; [done|]. split; [done|]. intros k Hk. cbn.
    by rewrite lookup_delete_ne.
  - intros clock user. by apply getPostById_missing.
  - intros clock user. by apply likePost_missing.
  - intros clock user text parent Ht.
    by apply (createComment_no_post _ _ _ _ _ text).
  - intros user. by apply deletePost_missing.
Qed.

Lemma deletePost_removes_one_post_witness :
  deletePost 9 7 sample_db = (Fail 404 "Post not found", sample_db)
  /\ exists db',
       deletePost 1 7 sample_db = (Ok 200 "Post removed"%string, db')
       /\ Comments db' = Comments sample_db
       /\ Posts db' !! 1%positive = None
       /\ createComment sample_clock 1 8 (reply_body (str "Hi") None) db'
          = (Fail 404 "Post not found", db').
Proof.
  split.
  - apply (proj1 deletePost_removes_one_post). vm_compute. reflexivity.
  - destruct (proj2 deletePost_removes_one_post 1%positive 7%positive sample_db
                (sample_post "Hello" "hello" 7 10 [8; 9]%positive 100)
                eq_refl eq_refl)
      as (db' & Hdel & Hfr & Hgone & _ & _ & Hcomment & _).
    exists db'. split; [done|]. split; [apply Hfr|]. split; [done|].
    apply Hcomment. vm_compute. discriminate.
Defined.

(** X12. [createComment] answers 400 when the content is absent, empty
    or white space only, and 404 when the content is fine and the post
    does not exist; in both cases the store stays as it was. *)
Theorem createComment_rejects :
  (forall clock postId user body db,
     falsy (body_comment body)
     \/ (exists s, body_comment body = JStr s /\ trim s = []) ->
     createComment clock postId user body db
     = (Fail 400 "Comment content is required", db))
  /\ (forall clock postId user body db s,
        body_comment body = JStr s -> trim s <> [] ->
        Posts db !! postId = None ->
        createComment clock postId user body db
        = (Fail 404 "Post not found", db)).
Proof. split; [exact createComment_blank | exact createComment_no_post]. Qed.

Lemma createComment_rejects_witness :
  createComment sample_clock 1 8 (reply_body (str "   ") None) sample_db
  = (Fail 400 "Comment content is required", sample_db)
  /\ createComment sample_clock 1 8 (reply_body [160; 8195; 10]%N None)
       sample_db
     = (Fail 400 "Comment content is required", sample_db)
  /\ createComment sample_clock 9 8 (reply_body (str "Hi") None) sample_db
     = (Fail 404 "Post not found", sample_db).
Proof.
  split; [|split].
  - apply (proj1 createComment_rejects). right. exists (str "   ").
    split; reflexivity.
  - apply (proj1 createComment_rejects). right. exists [160; 8195; 10]%N.
    split; reflexivity.
  - apply (proj2 createComment_rejects sample_clock 9%positive 8%positive
             (reply_body (str "Hi") None) sample_db (str "Hi"));
      [reflexivity | vm_compute; discriminate | vm_compute; reflexivity].
Defined.

(** X13. With a content that is not blank and an existing post,
    [createComment] answers 201 and stores one new comment under an id
    that no comment had: on that post, by the requester, with the trimmed
    content and with the parent as given, whether or not such a comment
    exists.  Nothing else in the store changes. *)
Theorem createComment_stores :
  forall clock postId user body db s p,
    body_comment body = JStr s -> trim s <> [] ->
    Posts db !! postId = Some p ->
    exists id c db',
      createComment clock postId user body db
      = (Ok 201 (id, c, Users db !! user), db')
      /\ Comments db !! id = None
      /\ Comments db' !! id = Some c
      /\ only_comment_differs id db db'
      /\ Comment.post c = postId /\ Comment.user c = user
      /\ Comment.content c = trim s
      /\ Comment.parent c = body_parentId body
      /\ Comment.created_at c = clock 0%nat.
Proof.
  intros clock postId user body db s p Hb Hs Hp.
  destruct (createComment_created clock postId user body db s p Hb Hs Hp)
    as (id & c & Hc & Hnone & H1 & H2 & H3 & H4 & _ & H6).
  exists id, c, (with_Comments (<[id:=c]> (Comments db)) db).
  split; [done|]. split; [done|]. split; [apply lookup_insert_eq|].
  split; [|done].
  split; [done|]. split; [done|]. intros k Hk. cbn. by rewrite lookup_insert_ne.
Qed.

Lemma createComment_stores_witness :
  exists id c db',
    createComment sample_clock 1 8
      (reply_body (160%N :: str " Hi" ++ [8195%N]) (Some 77%positive)) sample_db
    = (Ok 201 (id, c, Users sample_db !! 8%positive), db')
    /\ Comments sample_db !! id = None
    /\ Comments db' !! id = Some c
    /\ only_comment_differs id sample_db db'
    /\ Comment.post c = 1%positive /\ Comment.user c = 8%positive
    /\ Comment.content c = str "Hi"
    /\ Comment.parent c = Some 77%positive
    /\ Comment.created_at c = sample_clock 0%nat.
Proof.
  destruct (createComment_stores sample_clock 1%positive 8%positive
              (reply_body (160%N :: str " Hi" ++ [8195%N]) (Some 77%positive))
              sample_db (160%N :: str " Hi" ++ [8195%N])
              (sample_post "Hello" "hello" 7 10 [8; 9]%positive 100))
    as (id & c & db' & Hc & Hnone & Hsome & Hfr & Hpost & Huser & Hcontent
        & Hparent & Hat);
    [reflexivity | vm_compute; discriminate | vm_compute; reflexivity |].
  exists id, c, db'. repeat split; try done; try apply Hfr.
Defined.

(** X14. Creating a comment and then deleting it as its author gives
    back the store as it was before, provided no stored comment names the
    new id as its parent (the delete would take such a comment along). *)
Theorem createComment_then_deleteComment :
  forall clock postId user body db id c u db',
    createComment clock postId user body db = (Ok 201 (id, c, u), db') ->
    (forall k ck, Comments db !! k = Some ck -> Comment.parent ck <> Some id) ->
    deleteComment id user db' = (Ok 200 "Comment removed"%string, db).
Proof. exact createComment_deleteComment. Qed.

Lemma createComment_then_deleteComment_witness :
  deleteComment 6 8 hi_db = (Ok 200 "Comment removed"%string, sample_db).
Proof.
  apply (createComment_then_deleteComment sample_clock 1%positive 8%positive
           (reply_body (str "Hi") None) sample_db 6%positive hi_comment None hi_db).
  - vm_compute. reflexivity.
  - intros k ck Hk. unfold sample_db in Hk. cbn [Comments] in Hk.
    repeat (rewrite lookup_insert in Hk; case_decide;
            [injection Hk as <-; discriminate|]).
    by rewrite lookup_empty in Hk.
Defined.

(** X15. [deleteComment] answers 404 for an id that no comment has, and
    so it does, for any requester, once the author has deleted the
    comment. *)
Theorem deleteComment_once :
  (forall id u db,
     Comments db !! id = None ->
     deleteComment id u db = (Fail 404 "Comment not found", db))
  /\ (forall id u db c,
        Comments db !! id = Some c -> Comment.user c = u ->
        Comments (deleteComment id u db).2 !! id = None
        /\ forall u',
             deleteComment id u' (deleteComment id u db).2
             = (Fail 404 "Comment not found", (deleteComment id u db).2)).
Proof.
  split; [exact deleteComment_missing|].
  intros id u db c Hc Hu. split; [|by eapply deleteComment_twice].
  rewrite (deleteComment_by_author id u db c Hc Hu). apply deleteMany_gone.
Qed.

Lemma deleteComment_once_witness :
  deleteComment 9 7 sample_db = (Fail 404 "Comment not found", sample_db)
  /\ Comments (deleteComment 1 7 sample_db).2 !! 1%positive = None
  /\ deleteComment 1 8 (deleteComment 1 7 sample_db).2
     = (Fail 404 "Comment not found", (deleteComment 1 7 sample_db).2).
Proof.
  split.
  - apply (proj1 deleteComment_once). vm_compute. reflexivity.
  - destruct (proj2 deleteComment_once 1%positive 7%positive sample_db
                (sample_comment 1 7 None) eq_refl eq_refl) as [Hgone Htwice].
    split; [exact Hgone | exact (Htwice 8%positive)].
Defined.

(** X16. A delete by the author removes one document more than the
    comment has direct replies: the number of comments before is the
    number after, plus one, plus the number of other comments whose
    parent is the deleted one. *)
Theorem deleteComment_count :
  forall id u db c,
    Comments db !! id = Some c -> Comment.user c = u ->
    size (Comments db)
    = size (Comments (deleteComment id u db).2)
      + 1 + size (direct_replies id (Comments db)).
Proof. exact deleteComment_size. Qed.

Lemma deleteComment_count_witness :
  size (Comments sample_db)
  = size (Comments (deleteComment 1 7 sample_db).2)
    + 1 + size (direct_replies 1 (Comments sample_db)).
Proof.
  apply (deleteComment_count 1%positive 7%positive sample_db
           (sample_comment 1 7 None)); reflexivity.
Defined.

(** X17. [getPostComments] answers with one thread for each top-level
    comment of the post (a stored comment on that post without parent),
    oldest first and each once; the replies of a thread are the stored
    comments whose parent is its comment, oldest first, whatever post
    they name. *)
Theorem getPostComments_threads :
  forall postId db,
    exists threads,
      getPostComments postId db = Ok 200 threads
      /\ List.map (fun t => (cv_id (th_comment t), cv_comment (th_comment t)))
                  threads
         = topLevelComments postId db
      /\ (forall id c,
            In (id, c) (topLevelComments postId db)
            <-> Comments db !! id = Some c /\ Comment.post c = postId
                /\ Comment.parent c = None)
      /\ StronglySorted (oldest_first Comment.created_at)
           (topLevelComments postId db)
      /\ NoDup (topLevelComments postId db).*1
      /\ Forall (fun t =>
                   List.map (fun v => (cv_id v, cv_comment v)) (th_replies t)
                   = repliesOf (cv_id (th_comment t)) db
                   /\ cv_user (th_comment t)
                      = Users db !! Comment.user (cv_comment (th_comment t)))
                threads
      /\ (forall pid id c,
            In (id, c) (repliesOf pid db)
            <-> Comments db !! id = Some c /\ Comment.parent c = Some pid)
      /\ (forall pid,
            StronglySorted (oldest_first Comment.created_at) (repliesOf pid db)).
Proof.
  intros postId db. eexists. split; [reflexivity|].
  split; [|split; [|split; [|split; [|split; [|split]]]]].
  - rewrite List.map_map. cbn. induction (topLevelComments postId db) as [|[k c] l IH];
      [done|]. cbn. by rewrite IH.
  - intros id c. apply topLevelComments_spec.
  - apply Query_sort_oldest_first.
  - apply Query_sort_NoDup, find_NoDup.
  - apply Forall_forall. intros t Ht%list_elem_of_In.
    apply in_map_iff in Ht as ([k c] & <- & _). cbn. split; [|done].
    rewrite List.map_map. cbn.
    induction (repliesOf k db) as [|[k' c'] l IH]; [done|]. cbn. by rewrite IH.
  - intros pid id c. apply repliesOf_spec.
  - intros pid. apply Query_sort_oldest_first.
Qed.

(** X18. A comment is shown by [getPostComments] exactly when it is a
    top-level comment of the post or its parent is one.  So a reply to a
    reply is never shown, under any post. *)
Theorem getPostComments_shows :
  (forall postId db threads id,
     getPostComments postId db = Ok 200 threads ->
     listed id threads
     <-> exists c,
           Comments db !! id = Some c
           /\ ((Comment.post c = postId /\ Comment.parent c = None)
               \/ exists pid pc,
                    Comment.parent c = Some pid
                    /\ Comments db !! pid = Some pc
                    /\ Comment.post pc = postId /\ Comment.parent pc = None))
  /\ (forall postId db threads id c pid pc,
        getPostComments postId db = Ok 200 threads ->
        Comments db !! id = Some c -> Comment.parent c = Some pid ->
        Comments db !! pid = Some pc -> Comment.parent pc <> None ->
        ~ listed id threads).
Proof.
  split; [exact getPostComments_listed | exact deep_reply_not_listed].
Qed.

Lemma getPostComments_shows_witness :
  exists threads,
    getPostComments 1 sample_db = Ok 200 threads
    /\ listed 1 threads /\ listed 2 threads /\ ~ listed 4 threads.
Proof.
  eexists. split; [reflexivity|]. split; [|split].
  - apply (proj1 getPostComments_shows 1%positive sample_db _ 1%positive eq_refl).
    exists (sample_comment 1 7 None). split; [reflexivity|]. by left.
  - apply (proj1 getPostComments_shows 1%positive sample_db _ 2%positive eq_refl).
    exists (sample_comment 1 8 (Some 1%positive)). split; [reflexivity|].
    right. exists 1%positive, (sample_comment 1 7 None). by repeat split.
  - apply (proj2 getPostComments_shows 1%positive sample_db _ 4%positive
             (sample_comment 1 7 (Some 2%positive)) 2%positive
             (sample_comment 1 8 (Some 1%positive)) eq_refl);
      [reflexivity | reflexivity | reflexivity | discriminate].
Defined.

(** X19. [createComment] accepts a reply to a reply and stores it, and
    no listing of any post ever shows it. *)
Theorem reply_to_reply_is_hidden :
  forall clock postId user body db s p pid pc ppid,
    body_comment body = JStr s -> trim s <> [] ->
    Posts db !! postId = Some p ->
    body_parentId body = Some pid ->
    Comments db !! pid = Some pc -> Comment.parent pc = Some ppid ->
    exists id c db',
      createComment clock postId user body db
      = (Ok 201 (id, c, Users db !! user), db')
      /\ Comments db' !! id = Some c
      /\ forall anyPost threads,
           getPostComments anyPost db' = Ok 200 threads -> ~ listed id threads.
Proof.
  intros clock postId user body db s p pid pc ppid Hb Hs Hp Hpar Hpc Hppar.
  destruct (createComment_created clock postId user body db s p Hb Hs Hp)
    as (id & c & Hc & Hnone & _ & _ & _ & Hcpar & _).
  exists id, c, (with_Comments (<[id:=c]> (Comments db)) db).
  split; [done|]. split; [apply lookup_insert_eq|].
  intros anyPost threads Hget.
  assert (pid <> id) as Hne by (intros ->; congruence).
  apply (deep_reply_not_listed anyPost _ threads id c pid pc Hget).
  - apply lookup_insert_eq.
  - by rewrite Hcpar.
  - cbn. by rewrite lookup_insert_ne.
  - by rewrite Hppar.
Qed.

Lemma reply_to_reply_is_hidden_witness :
  exists id c db',
    createComment sample_clock 1 9 (reply_body (str "Me too") (Some 2%positive))
      sample_db
    = (Ok 201 (id, c, Users sample_db !! 9%positive), db')
    /\ Comments db' !! id = Some c
    /\ forall anyPost threads,
         getPostComments anyPost db' = Ok 200 threads -> ~ listed id threads.
Proof.
  apply (reply_to_reply_is_hidden sample_clock 1%positive 9%positive
           (reply_body (str "Me too") (Some 2%positive)) sample_db (str "Me too")
           (sample_post "Hello" "hello" 7 10 [8; 9]%positive 100)
           2%positive (sample_comment 1 8 (Some 1%positive)) 1%positive);
    try reflexivity.
  vm_compute. discriminate.
Defined.

(** X20. For a user that exists, [getUserPosts] answers with one entry
    for each published post of that user and for no other post, newest
    first and each once; every entry carries the name of the user, and
    its number of comments is 0 whatever comments are stored. *)
Theorem getUserPosts_lists :
  forall userId db u,
    Users db !! userId = Some u ->
    exists items,
      getUserPosts userId db = Ok 200 items
      /\ items = List.map (userPostView u) (userPosts userId db)
      /\ List.map up_id items = (userPosts userId db).*1
      /\ (forall id p,
            In (id, p) (userPosts userId db)
            <-> Posts db !! id = Some p /\ Post.author p = userId
                /\ Post.is_published p = true)
      /\ StronglySorted (newest_first Post.created_at) (userPosts userId db)
      /\ NoDup (userPosts userId db).*1
      /\ Forall (fun it => up_author it = User.name u /\ up_comments it = 0%nat)
                items.
Proof.
  intros userId db u Hu. eexists. split; [by apply getUserPosts_known|].
  split; [done|]. split; [|split; [|split; [|split]]].
  - induction (userPosts userId db) as [|[k p] l IH]; [done|]. cbn.
    by rewrite IH.
  - intros id p. apply userPosts_spec.
  - apply Query_sort_newest_first.
  - apply Query_sort_NoDup, find_NoDup.
  - apply Forall_forall. intros it Hit%list_elem_of_In.
    by apply in_map_iff in Hit as (kv & <- & _).
Qed.

Lemma getUserPosts_lists_witness :
  exists items,
    getUserPosts 7 sample_db = Ok 200 items
    /\ List.map up_id items = [3; 2; 1]%positive
    /\ Forall (fun it => up_author it = (str "Ada") /\ up_comments it = 0%nat)
              items.
Proof.
  destruct (getUserPosts_lists 7%positive sample_db sample_user eq_refl)
    as (items & Hget & _ & Hids & _ & _ & _ & Hall).
  exists items. split; [done|]. split; [|done].
  rewrite Hids. vm_compute. reflexivity.
Defined.

(** X21. For a user that does not exist, [getUserPosts] answers with a
    server error as soon as a published post names that user as author
    (reading the author's name fails), and with the empty list
    otherwise. *)
Theorem getUserPosts_unknown_user :
  forall userId db,
    Users db !! userId = None ->
    ((exists id p, Posts db !! id = Some p /\ Post.author p = userId
                   /\ Post.is_published p = true) ->
     getUserPosts userId db = ServerError TypeError)
    /\ ((forall id p, Posts db !! id = Some p -> Post.author p = userId ->
                      Post.is_published p = false) ->
        getUserPosts userId db = Ok 200 []).
Proof.
  intros userId db Hu. rewrite (getUserPosts_unknown userId db Hu). split.
  - intros (id & p & Hp). apply userPosts_spec in Hp.
    case_decide as E; [by rewrite E in Hp|done].
  - intros Hnone. case_decide as E; [done|].
    destruct (userPosts userId db) as [|[id p] l] eqn:El; [done|].
    assert (In (id, p) (userPosts userId db)) as Hin by (rewrite El; by left).
    apply userPosts_spec in Hin as (Hp & Ha & Hpub).
    by rewrite (Hnone id p Hp Ha) in Hpub.
Qed.

Lemma getUserPosts_unknown_user_witness :
  getUserPosts 7 (with_Users ∅ sample_db) = ServerError TypeError
  /\ getUserPosts 8 sample_db = Ok 200 [].
Proof.
  assert (Users (with_Users ∅ sample_db) !! 7%positive = None) as H7
    by (vm_compute; reflexivity).
  assert (Users sample_db !! 8%positive = None) as H8
    by (vm_compute; reflexivity).
  split.
  - apply (proj1 (getUserPosts_unknown_user 7%positive (with_Users ∅ sample_db)
                    H7)).
    exists 1%positive, (sample_post "Hello" "hello" 7 10 [8; 9]%positive 100).
    by repeat split.
  - apply (proj2 (getUserPosts_unknown_user 8%positive sample_db H8)).
    intros id p Hp Ha. unfold sample_db in Hp. cbn [Posts] in Hp.
    repeat (rewrite lookup_insert in Hp; case_decide;
            [injection Hp as <-; discriminate|]).
    by rewrite lookup_empty in Hp.
Defined.

(** X22. [getFeaturedPosts] answers with the N most recent published
    posts, newest first (no post that is left out is newer than one that
    is listed), where N is the limit when it parses to a positive integer
    and 3 when no limit is given or the given one parses to 0 or to no
    number; the author of every published post has to exist. *)
Theorem getFeaturedPosts_most_recent :
  featuredLimit None = 3%Z
  /\ (forall s n, parseInt s = Some n -> (0 < n)%Z -> featuredLimit (Some s) = n)
  /\ (forall s, parseInt s = None \/ parseInt s = Some 0%Z ->
        featuredLimit (Some s) = 3%Z)
  /\ (forall db,
        (forall id p, In (id, p) (recentPosts db)
                      <-> Posts db !! id = Some p /\ Post.is_published p = true)
        /\ StronglySorted (newest_first Post.created_at) (recentPosts db)
        /\ NoDup (recentPosts db).*1)
  /\ (forall limit db,
        (0 < featuredLimit limit)%Z -> authors_exist db ->
        exists items,
          getFeaturedPosts limit db = Ok 200 items
          /\ Forall2 (fun kv it =>
                        exists u, Users db !! Post.author kv.2 = Some u
                                  /\ it = featuredView u kv)
                     (take (Z.to_nat (featuredLimit limit)) (recentPosts db))
                     items
          /\ List.map fi_id items
             = (take (Z.to_nat (featuredLimit limit)) (recentPosts db)).*1
          /\ forall a b,
               In a (take (Z.to_nat (featuredLimit limit)) (recentPosts db)) ->
               In b (drop (Z.to_nat (featuredLimit limit)) (recentPosts db)) ->
               (Post.created_at b.2 <= Post.created_at a.2)%Z).
Proof.
  split; [exact featuredLimit_absent|].
  split; [exact featuredLimit_positive|].
  split; [exact featuredLimit_falsy|]. split.
  - intros db. split; [intros id p; apply recentPosts_spec|].
    split; [apply Query_sort_newest_first | apply Query_sort_NoDup, find_NoDup].
  - intros limit db Hn Hauth.
    destruct (getFeaturedPosts_positive limit db Hn Hauth) as (items & Hget & Hall).
    exists items. split; [done|]. split; [done|]. split.
    + clear Hget. induction Hall as [|kv it l its (u & _ & ->) _ IH]; [done|].
      cbn. by rewrite IH.
    + intros a b Ha Hb.
      apply (sorted_take_drop (newest_first Post.created_at) _ _ a b
               (Query_sort_newest_first Post.created_at _) Ha Hb).
Qed.

Lemma getFeaturedPosts_most_recent_witness :
  featuredLimit (Some (str "2")) = 2%Z
  /\ featuredLimit (Some (str "x")) = 3%Z
  /\ exists items,
       getFeaturedPosts (Some (str "2")) sample_db = Ok 200 items
       /\ List.map fi_id items = [3; 2]%positive.
Proof.
  split; [|split].
  - apply (proj1 (proj2 getFeaturedPosts_most_recent) (str "2") 2%Z);
      [reflexivity | lia].
  - apply (proj1 (proj2 (proj2 getFeaturedPosts_most_recent)) (str "x")).
    left. reflexivity.
  - destruct (proj2 (proj2 (proj2 (proj2 getFeaturedPosts_most_recent)))
                (Some (str "2")) sample_db)
      as (items & Hget & _ & Hids & _);
      [vm_compute; reflexivity | exact sample_authors_exist |].
    exists items. split; [done|]. rewrite Hids. vm_compute. reflexivity.
Defined.

(** X23. With a negative limit -k, [getTrendingPosts] keeps all of the
    ranking but its last k posts ([slice(0, -k)]), and nothing at all
    when k is not smaller than the number of published posts. *)
Theorem getTrendingPosts_negative_limit :
  forall clock s n db,
    parseInt s = Some n -> (n < 0)%Z ->
    sortedPosts clock (trendingLimit (Some s)) db
    = take (length (postsWithScores clock db) - Z.to_nat (- n))
           (js_sort compareTrending (postsWithScores clock db))
    /\ length (sortedPosts clock (trendingLimit (Some s)) db)
       = (length (postsWithScores clock db) - Z.to_nat (- n))%nat.
Proof.
  intros clock s n db Hs Hn.
  assert (trendingLimit (Some s) = n) as ->.
  { unfold trendingLimit. cbn. rewrite Hs. destruct (Z.eqb_spec n 0); [lia|done]. }
  rewrite sortedPosts_negative by done. split; [done|].
  rewrite length_take, js_sort_length. lia.
Qed.

Lemma getTrendingPosts_negative_limit_witness :
  length (sortedPosts sample_clock (trendingLimit (Some (str "-1")))
            sample_db)
  = (length (postsWithScores sample_clock sample_db) - 1)%nat.
Proof.
  apply (proj2 (getTrendingPosts_negative_limit sample_clock (str "-1") (-1)%Z
                  sample_db eq_refl eq_refl)).
Defined.

(** X24. [getTrendingPosts] answers 200 exactly when the author of every
    post that it keeps exists; otherwise the answer is a server error.
    Authors of posts beyond the limit do not matter.  A 200 lists as
    many entries as posts were kept. *)
Theorem getTrendingPosts_needs_authors :
  forall clock limit db,
    ((exists items, getTrendingPosts clock limit db = Ok 200 items)
     <-> Forall (fun sp => is_Some (sc_author sp))
                (sortedPosts clock (trendingLimit limit) db))
    /\ (Exists (fun sp => sc_author sp = None)
               (sortedPosts clock (trendingLimit limit) db) ->
        getTrendingPosts clock limit db = ServerError TypeError)
    /\ (forall items,
          getTrendingPosts clock limit db = Ok 200 items ->
          length items
          = length (sortedPosts clock (trendingLimit limit) db)).
Proof.
  intros clock limit db. unfold getTrendingPosts.
  set (kept := sortedPosts clock (trendingLimit limit) db).
  destruct (mapM_index_trendingItem_cases kept 0)
    as [(items & -> & Hlen & Hall)|[-> Hex]].
  - split; [|split].
    + split; [done | eauto].
    + intros Hex. apply Exists_exists in Hex as (sp & Hin & Hnone).
      rewrite Forall_forall in Hall. destruct (Hall sp Hin) as [u Hu]. congruence.
    + by intros ? [= <-].
  - split; [|split; [done|done]].
    split; [by intros [? ?]|]. intros Hall.
    apply Exists_exists in Hex as (sp & Hin & Hnone).
    rewrite Forall_forall in Hall. destruct (Hall sp Hin) as [u Hu]. congruence.
Qed.

Lemma getTrendingPosts_needs_authors_witness :
  getTrendingPosts sample_clock None (with_Users ∅ sample_db)
  = ServerError TypeError
  /\ exists items,
       getTrendingPosts sample_clock (Some (str "1")) sample_db
       = Ok 200 items.
Proof.
  split.
  - apply (proj1 (proj2 (getTrendingPosts_needs_authors sample_clock None
                           (with_Users ∅ sample_db)))).
    vm_compute. apply Exists_cons_hd. reflexivity.
  - apply (proj2 (proj1 (getTrendingPosts_needs_authors sample_clock
                           (Some (str "1")) sample_db))).
    vm_compute. repeat constructor. by eexists.
Defined.



(** X26. [updateUserProfile] answers 404 for a user that does not exist
    and then changes nothing.  For an existing user it changes that user
    and nothing else in the store; a name, bio or avatar that is a
    non-empty string is stored as given, and the answer shows the user as
    stored. *)
Theorem updateUserProfile_writes_one_user :
  (forall uid body db,
     Users db !! uid = None ->
     updateUserProfile uid body db = (Fail 404 "User not found", db))
  /\ (forall uid body db user,
        Users db !! uid = Some user ->
        exists view db' user',
          updateUserProfile uid body db = (Ok 200 view, db')
          /\ Posts db' = Posts db /\ Comments db' = Comments db
          /\ (forall k, k <> uid -> Users db' !! k = Users db !! k)
          /\ Users db' !! uid = Some user'
          /\ (forall s, body_name body = JStr s -> s <> [] ->
                        User.name user' = s)
          /\ (forall s, body_bio body = JStr s -> s <> [] ->
                        User.bio user' = Some s)
          /\ (forall s, body_avatar body = JStr s -> s <> [] ->
                        User.avatar_url user' = Some s)
          /\ prof_id view = uid
          /\ prof_name view = User.name user'
          /\ prof_bio view = User.bio user'
          /\ prof_avatar_url view = User.avatar_url user').
Proof.
  split; [exact updateUserProfile_missing|].
  intros uid body db user Hu. unfold updateUserProfile. rewrite Hu.
  eexists _, _, _. split; [reflexivity|]. cbn.
  split; [done|]. split; [done|].
  split; [intros k Hk; by rewrite lookup_insert_ne|].
  split; [apply lookup_insert_eq|].
  assert (forall v s, v = JStr s -> s <> [] -> truthy v = Some s) as Ht.
  { intros v s -> Hs. cbn. by rewrite (proj2 (is_empty_false s) Hs). }
  split; [intros s Hb Hs; by rewrite (Ht _ s Hb Hs)|].
  split; [intros s Hb Hs; by rewrite (Ht _ s Hb Hs)|].
  split; [intros s Hb Hs; by rewrite (Ht _ s Hb Hs)|]. done.
Qed.

Lemma updateUserProfile_writes_one_user_witness :
  updateUserProfile 8 {| body_name := JStr (str "Bob"); body_bio := JNull;
                         body_avatar := JUndefined |} sample_db
  = (Fail 404 "User not found", sample_db)
  /\ exists view db' user',
       updateUserProfile 7 {| body_name := JStr (str "  Ada L. "); body_bio := JNull;
                              body_avatar := JUndefined |} sample_db
       = (Ok 200 view, db')
       /\ Posts db' = Posts sample_db
       /\ Users db' !! 7%positive = Some user'
       /\ User.name user' = (str "  Ada L. ")
       /\ prof_name view = (str "  Ada L. ").
Proof.
  split.
  - apply (proj1 updateUserProfile_writes_one_user). vm_compute. reflexivity.
  - destruct (proj2 updateUserProfile_writes_one_user 7%positive
                {| body_name := JStr (str "  Ada L. "); body_bio := JNull;
                   body_avatar := JUndefined |} sample_db sample_user eq_refl)
      as (view & db' & user' & Hres & Hposts & _ & _ & Hu & Hname & _ & _ & _
          & Hview & _).
    exists view, db', user'. split; [done|]. split; [done|]. split; [done|].
    assert (User.name user' = (str "  Ada L. ")) as En
      by (apply Hname; [reflexivity | discriminate]).
    split; [exact En|]. by rewrite Hview.
Defined.

(** X27. [updateUserProfile] is idempotent: the same request a second
    time gives the same answer and the same store as the first. *)
Theorem updateUserProfile_twice :
  forall uid body db,
    updateUserProfile uid body (updateUserProfile uid body db).2
    = updateUserProfile uid body db.
Proof. exact updateUserProfile_idempotent. Qed.

(** X28. The reading time that the listings show is the number of
    space-separated pieces of the content divided by 200 and rounded up:
    it is at least 1, and 200 times it is the least multiple of 200 that
    is not below the number of pieces. *)
Theorem readTime_rounds_up :
  forall content,
    let pieces := Z.of_nat (S (count_spaces content)) in
    (1 <= readTime content)%Z
    /\ (200 * (readTime content - 1) < pieces <= 200 * readTime content)%Z.
Proof.
  intros content pieces. unfold readTime. fold pieces.
  assert (1 <= pieces)%Z as Hp by (unfold pieces; lia). clearbody pieces.
  pose proof (Z.div_mod (pieces + 199) 200 ltac:(lia)) as Hdm.
  pose proof (Z.mod_pos_bound (pieces + 199) 200 ltac:(lia)) as Hm.
  lia.
Qed.


